(** * SleuthCPS: the offset resolution engine of [Scripts/sleuthCPS.py]

    A shallow embedding of the two resolvers of the script (the batch class
    [SleuthParser] and the class [InteractiveSleuth] of the REPL), of their
    metadata probes and of the reconciling command [analyze_rel], with the
    properties of the specification stated over them.

    Conventions of the embedding:
    - Python integers are unbounded: [Z].
    - [bytes] is [list byte]; slices follow Python's index arithmetic,
      negative indices included.
    - [str] is [string]; an empty string and a missing CSV cell are both
      falsy, and the script only ever tests truthiness before use.
    - the schema ([self.structures]) is a [dict] whose iteration order is
      observable: an association list in insertion order.
    - the two caches ([resolved_offsets], [resolved_sizes]) are [dict]s that
      are only ever looked up by key: [gmap string Z].
    - an exception is a value of [exn]; a call returns [exn + A]. *)

From Stdlib Require Import ZArith Lia Bool List.
From Stdlib Require Import Strings.Byte Strings.Ascii Strings.String.
From stdpp Require Import base strings gmap list.

Local Open Scope Z_scope.
Local Set Warnings "-clear-no-such-hyp".

(** ** Python built-ins used by the script *)

Module Py.

(** [len(bd)] *)
Definition len {A} (l : list A) : Z := Z.of_nat (length l).

(** Index adjustment of a slice bound (CPython's [PySlice_AdjustIndices],
    step 1): a negative bound counts from the end, then is clamped. *)
Definition adjust (n i : Z) : Z :=
  if i <? 0 then Z.max 0 (i + n) else Z.min i n.

(** [l[a:b]] *)
Definition slice {A} (l : list A) (a b : Z) : list A :=
  let a' := adjust (len l) a in
  let b' := adjust (len l) b in
  firstn (Z.to_nat (b' - a')) (skipn (Z.to_nat a') l).

(** [int.from_bytes(bs, 'little')] *)
Fixpoint from_bytes_little (bs : list byte) : Z :=
  match bs with
  | [] => 0
  | b :: bs' => Z.of_N (Byte.to_N b) + 256 * from_bytes_little bs'
  end.

(** Truthiness of a [str] (or of [None], modelled by the empty string). *)
Definition truthy (s : string) : bool :=
  match s with EmptyString => false | String _ _ => true end.

End Py.

(** ** Exceptions *)

(** The messages of the script's [ValueError]s, by what they report. *)
Inductive value_error : Type :=
  | InvalidOffsetValue (name lit : string)
  | InvalidROffsetValue (name lit : string)
  | InvalidNumber (lit : string)
  | MissingOffsetAndRelative (name : string)
  | MetadataPointerOutOfRange
  | NoValidMetadata.

(** [RecursionError] is the error of the [raise] statements of lines 63
    and 351.  It carries the text [' -> '.join(visited)] followed by the
    name: [visited] is a [set], so the order of the joined names is the
    set's own; the payload is the set and the name.  The error of the
    same class that the interpreter raises by itself, when calls nest
    deeper than its recursion limit, is not a value of this type. *)
Inductive exn : Type :=
  | RecursionError (visited : gset string) (name : string)
  | KeyError (name : string)
  | ValueError (e : value_error)
  | TypeError.

Definition result (A : Type) : Type := exn + A.

(** ** Metadata probe *)

(** The exit taken by [_read_metadata]: one constructor per [return] and
    [raise] statement of the two variants. *)
Inductive probe_exit : Type :=
  | Return_4_4 (data_ptr size : Z)
  | Return_8_4 (data_ptr size : Z)
  | Raise_out_of_range
  | Raise_no_valid_metadata
  | Raise_TypeError.

(** What the caller of [_read_metadata] sees. *)
Definition probe_result (e : probe_exit) : result (Z * Z) :=
  match e with
  | Return_4_4 p s | Return_8_4 p s => inr (p, s)
  | Raise_out_of_range => inl (ValueError MetadataPointerOutOfRange)
  | Raise_no_valid_metadata => inl (ValueError NoValidMetadata)
  | Raise_TypeError => inl TypeError
  end.

(** [0 <= data_ptr < n and 0 <= data_ptr + size <= n] *)
Definition in_image (n data_ptr size : Z) : bool :=
  (0 <=? data_ptr) && (data_ptr <? n) &&
  (0 <=? data_ptr + size) && (data_ptr + size <=? n).

Module SleuthParser_probe.

(** [SleuthParser._read_metadata], lines 110-132. *)
Definition _read_metadata_exit (bd : list byte) (meta_ptr : Z) : probe_exit :=
  let n := Py.len bd in
  if (meta_ptr <? 0) || (meta_ptr >=? n) then Raise_out_of_range
  else
    if meta_ptr + 8 <=? n then
      let data_ptr_32 := Py.from_bytes_little (Py.slice bd meta_ptr (meta_ptr + 4)) in
      let size_32 := Py.from_bytes_little (Py.slice bd (meta_ptr - 4) meta_ptr) in
      if in_image n data_ptr_32 size_32 then Return_4_4 data_ptr_32 size_32
      else Raise_no_valid_metadata
    else Raise_no_valid_metadata.

Definition _read_metadata (bd : list byte) (meta_ptr : Z) : result (Z * Z) :=
  probe_result (_read_metadata_exit bd meta_ptr).

End SleuthParser_probe.

Module InteractiveSleuth_probe.

(** [InteractiveSleuth._read_metadata], lines 384-412.  [binary_data] is
    [None] until an image is loaded: [len(None)] raises [TypeError]. *)
Definition _read_metadata_exit (binary_data : option (list byte)) (meta_ptr : Z)
  : probe_exit :=
  match binary_data with
  | None => Raise_TypeError
  | Some bd =>
    let n := Py.len bd in
    if (meta_ptr <? 0) || (meta_ptr + 8 >? n) then Raise_out_of_range
    else
      let data_ptr_32 := Py.from_bytes_little (Py.slice bd meta_ptr (meta_ptr + 4)) in
      let size_32 := Py.from_bytes_little (Py.slice bd (meta_ptr - 4) meta_ptr) in
      if in_image n data_ptr_32 size_32 then Return_4_4 data_ptr_32 size_32
      else
        if meta_ptr + 12 <=? n then
          let data_ptr_64 := Py.from_bytes_little (Py.slice bd meta_ptr (meta_ptr + 8)) in
          let size_64 := Py.from_bytes_little (Py.slice bd (meta_ptr + 8) (meta_ptr + 12)) in
          if in_image n data_ptr_64 size_64 then Return_8_4 data_ptr_64 size_64
          else Raise_no_valid_metadata
        else Raise_no_valid_metadata
  end.

Definition _read_metadata (binary_data : option (list byte)) (meta_ptr : Z)
  : result (Z * Z) :=
  probe_result (_read_metadata_exit binary_data meta_ptr).

End InteractiveSleuth_probe.

(** The bytes [[pos, pos+4)] of the image read as a little-endian unsigned
    32-bit integer, for a position inside the image. *)
Definition u32_le (bd : list byte) (pos : Z) : Z :=
  Py.from_bytes_little (firstn 4 (skipn (Z.to_nat pos) bd)).

(** ** More built-ins: [str.strip], [format(n, 'X')], a model of [int(s, 0)] *)

Module PyStr.

Definition code (a : ascii) : N := N_of_ascii a.

(** [str.isspace] on the code points below 256. *)
Definition is_space (a : ascii) : bool :=
  let n := code a in
  ((9 <=? n) && (n <=? 13) || (28 <=? n) && (n <=? 32)
   || (n =? 133) || (n =? 160))%N.

Fixpoint lstrip (s : string) : string :=
  match s with
  | EmptyString => EmptyString
  | String c s' => if is_space c then lstrip s' else s
  end.

Fixpoint rstrip (s : string) : string :=
  match s with
  | EmptyString => EmptyString
  | String c s' =>
      match rstrip s' with
      | EmptyString => if is_space c then EmptyString else String c EmptyString
      | r => String c r
      end
  end.

(** [s.strip()] *)
Definition strip (s : string) : string := rstrip (lstrip s).

Definition hex_digit (d : N) : ascii :=
  ascii_of_N (if (d <? 10)%N then 48 + d else 55 + d)%N.

Fixpoint hex_digits (fuel : nat) (n : N) (acc : string) : string :=
  match fuel with
  | O => acc
  | S fuel' =>
      let acc' := String (hex_digit (n mod 16)) acc in
      if (n / 16 =? 0)%N then acc' else hex_digits fuel' (n / 16) acc'
  end.

(** [format(z, 'X')]: upper-case hexadecimal, a leading [-] when negative. *)
Definition format_X (z : Z) : string :=
  let n := Z.abs_N z in
  let digits := hex_digits (S (N.size_nat n)) n EmptyString in
  if z <? 0 then String "-"%char digits else digits.

(** [f"0x{z:X}"] *)
Definition hex_literal (z : Z) : string := String "0"%char (String "x"%char (format_X z)).

(** A model of [int(s, 0)] on ASCII text, used to run the engine on
    concrete schemas: optional sign, prefixes [0x], [0o], [0b] (either
    case), decimal without leading zeros.  [None] is [ValueError].  A
    literal with digit separators ([0x1_0], [1_000]), which Python
    accepts, is rejected here.  The theorems below do not depend on this
    model: they take the parser as a parameter. *)
Definition digit_value (a : ascii) : option N :=
  let n := code a in
  (if (48 <=? n) && (n <=? 57) then Some (n - 48)
   else if (97 <=? n) && (n <=? 102) then Some (n - 87)
   else if (65 <=? n) && (n <=? 70) then Some (n - 55)
   else None)%N.

Fixpoint digits_value (base : N) (s : string) (acc : N) : option N :=
  match s with
  | EmptyString => Some acc
  | String c s' =>
      match digit_value c with
      | Some d => if (d <? base)%N then digits_value base s' (acc * base + d)%N else None
      | None => None
      end
  end.

Definition nonempty_digits (base : N) (s : string) : option N :=
  match s with
  | EmptyString => None
  | _ => digits_value base s 0%N
  end.

Definition unsigned_literal (s : string) : option N :=
  match s with
  | String "0" (String ("x" | "X") r) => nonempty_digits 16 r
  | String "0" (String ("o" | "O") r) => nonempty_digits 8 r
  | String "0" (String ("b" | "B") r) => nonempty_digits 2 r
  | String "0" _ =>
      match nonempty_digits 10 s with
      | Some 0%N => Some 0%N
      | _ => None
      end
  | _ => nonempty_digits 10 s
  end.

Definition int0 (s : string) : option Z :=
  match strip s with
  | String "-" r => (fun n => - Z.of_N n) <$> unsigned_literal r
  | String "+" r => Z.of_N <$> unsigned_literal r
  | r => Z.of_N <$> unsigned_literal r
  end.

End PyStr.

(** ** Schema rows and the ordered dictionary of structures *)

(** A CSV row after cleaning: the five columns the script reads. *)
Record row : Type := Row {
  row_name : string;
  row_offset : string;
  row_size : string;
  row_rOffset : string;
  row_parent : string
}.

Module Dict.

(** [name in d] / [d.get(name)] *)
Fixpoint get (name : string) (d : list (string * row)) : option row :=
  match d with
  | [] => None
  | (k, v) :: d' => if String.eqb k name then Some v else get name d'
  end.

(** [d[name] = v]: an existing key keeps its position. *)
Fixpoint set (name : string) (v : row) (d : list (string * row)) : list (string * row) :=
  match d with
  | [] => [(name, v)]
  | (k, w) :: d' =>
      if String.eqb k name then (k, v) :: d' else (k, w) :: set name v d'
  end.

(** [for name in d] *)
Definition keys (d : list (string * row)) : list string := map fst d.

End Dict.

(** ** Sessions *)

(** The fields of a [SleuthParser] and of an [InteractiveSleuth] that the
    engine reads and writes.  [binary_data] is [None] only in an
    [InteractiveSleuth] before [load_binary]; the paths and the list of
    written files are file-system bookkeeping and are left out. *)
Record session : Type := Session {
  binary_data : option (list byte);
  structures : list (string * row);
  resolved_offsets : gmap string Z;
  resolved_sizes : gmap string Z
}.

Definition set_offset (name : string) (v : Z) (self : session) : session :=
  {| binary_data := binary_data self;
     structures := structures self;
     resolved_offsets := <[name := v]> (resolved_offsets self);
     resolved_sizes := resolved_sizes self |}.

Definition set_size (name : string) (v : Z) (self : session) : session :=
  {| binary_data := binary_data self;
     structures := structures self;
     resolved_offsets := resolved_offsets self;
     resolved_sizes := <[name := v]> (resolved_sizes self) |}.

Definition set_structures (d : list (string * row)) (self : session) : session :=
  {| binary_data := binary_data self;
     structures := d;
     resolved_offsets := resolved_offsets self;
     resolved_sizes := resolved_sizes self |}.

Definition set_binary (bd : list byte) (self : session) : session :=
  {| binary_data := Some bd;
     structures := structures self;
     resolved_offsets := resolved_offsets self;
     resolved_sizes := resolved_sizes self |}.

Definition clear_offsets (self : session) : session :=
  {| binary_data := binary_data self;
     structures := structures self;
     resolved_offsets := ∅;
     resolved_sizes := resolved_sizes self |}.

(** ** The recursive resolver *)

Section Resolver.

(** The two variants differ in how they parse a literal and in their
    probe; the recursion is the same. *)
Variable parse_offset : string -> string -> result Z.
Variable parse_rOffset : string -> string -> result Z.
Variable read_metadata : option (list byte) -> Z -> result (Z * Z).

(** [_get_absolute_offset(name, visited)] (lines 54-108) and
    [_resolve_offset_recursive(name, visited)] (lines 345-382).

    [fuel] bounds the depth of the recursion; [None] is "out of fuel",
    which [resolve_rec_total] below excludes for the fuel [resolve] gives.
    The interpreter's own limit on nested calls is not modelled: on a
    chain of parents longer than that limit (a thousand calls by default)
    the script ends with the interpreter's [RecursionError], where this
    function goes on.  What is proved of [resolve] is proved of chains
    below the limit.
    [visited] is the one [set] object passed down the calls: the caller
    never reads it after the recursive call, so it is passed by value.
    A row is a non-empty [dict], hence [not structure] holds only for
    [None]. *)
Fixpoint resolve_rec (fuel : nat) (self : session) (name : string)
    (visited : gset string) : option (result Z * session) :=
  match fuel with
  | O => None
  | S fuel' =>
    match resolved_offsets self !! name with
    | Some cached => Some (inr cached, self)
    | None =>
      if decide (name ∈ visited) then
        Some (inl (RecursionError visited name), self)
      else
        let visited' := {[name]} ∪ visited in
        match Dict.get name (structures self) with
        | None => Some (inl (KeyError name), self)
        | Some structure =>
          if Py.truthy (row_offset structure) then
            match parse_offset name (row_offset structure) with
            | inl e => Some (inl e, self)
            | inr offset => Some (inr offset, set_offset name offset self)
            end
          else if Py.truthy (row_rOffset structure) && Py.truthy (row_parent structure) then
            let parent_name := row_parent structure in
            match parse_rOffset name (row_rOffset structure) with
            | inl e => Some (inl e, self)
            | inr r_offset =>
              match resolve_rec fuel' self parent_name visited' with
              | None => None
              | Some (inl e, self1) => Some (inl e, self1)
              | Some (inr parent_offset, self1) =>
                let meta_ptr := parent_offset + r_offset in
                match read_metadata (binary_data self1) meta_ptr with
                | inr (data_ptr, size) =>
                    Some (inr data_ptr,
                          set_size name size (set_offset name data_ptr self1))
                | inl _ =>
                    let absolute_offset := parent_offset + r_offset in
                    Some (inr absolute_offset,
                          set_offset name absolute_offset self1)
                end
              end
            end
          else
            Some (inl (ValueError (MissingOffsetAndRelative name)), self)
        end
    end
  end.

(** A call from outside: [visited=None] becomes a fresh empty set. *)
Definition resolve (self : session) (name : string)
  : option (result Z * session) :=
  resolve_rec (S (length (structures self))) self name ∅.

(** Big-step reading of a call: it returns [out] for some depth bound. *)
Definition resolves (self : session) (name : string) (visited : gset string)
    (out : result Z * session) : Prop :=
  exists fuel, resolve_rec fuel self name visited = Some out.

(** [SleuthParser.resolve_all_offsets] (lines 134-138): the loop over
    the names; the first exception leaves the loop and the method. *)
Fixpoint resolve_all_loop (names : list string) (self : session)
  : option (result unit * session) :=
  match names with
  | [] => Some (inr tt, self)
  | name :: names' =>
    match resolved_offsets self !! name with
    | Some _ => resolve_all_loop names' self
    | None =>
      match resolve self name with
      | None => None
      | Some (inl e, self1) => Some (inl e, self1)
      | Some (inr _, self1) => resolve_all_loop names' self1
      end
    end
  end.

(** The loop of the [list] command (lines 600-605): one printed line per
    name, the offset or [N/A]. *)
Fixpoint list_loop (names : list string) (self : session)
  : option (list (string * option Z) * session) :=
  match names with
  | [] => Some ([], self)
  | nm :: names' =>
    match resolve self nm with
    | None => None
    | Some (r, self1) =>
      let line := (nm, match r with inr off => Some off | inl _ => None end) in
      match list_loop names' self1 with
      | None => None
      | Some (lines, self2) => Some (line :: lines, self2)
      end
    end
  end.

End Resolver.

(** ** The batch class *)

Module SleuthParser.

(** [__init__] (lines 32-52), after the files are read: every cell of a
    row is stripped, rows are stored under their name, caches are empty. *)
Definition clean_row (r : row) : row :=
  {| row_name := PyStr.strip (row_name r);
     row_offset := PyStr.strip (row_offset r);
     row_size := PyStr.strip (row_size r);
     row_rOffset := PyStr.strip (row_rOffset r);
     row_parent := PyStr.strip (row_parent r) |}.

Definition load_rows (rows : list row) : list (string * row) :=
  fold_left (fun d r => Dict.set (row_name (clean_row r)) (clean_row r) d) rows [].

Definition __init__ (binary : list byte) (rows : list row) : session :=
  {| binary_data := Some binary;
     structures := load_rows rows;
     resolved_offsets := ∅;
     resolved_sizes := ∅ |}.

Section WithInt.
(** Python's [int(s, 0)]; [None] stands for [ValueError]. *)
Variable int0 : string -> option Z.

(** lines 73-78 *)
Definition parse_offset (name lit : string) : result Z :=
  match int0 lit with
  | Some offset => inr offset
  | None => inl (ValueError (InvalidOffsetValue name lit))
  end.

(** lines 83-86 *)
Definition parse_rOffset (name lit : string) : result Z :=
  match int0 lit with
  | Some r_offset => inr r_offset
  | None => inl (ValueError (InvalidROffsetValue name lit))
  end.

Definition _read_metadata (binary_data : option (list byte)) (meta_ptr : Z)
  : result (Z * Z) :=
  match binary_data with
  | Some bd => SleuthParser_probe._read_metadata bd meta_ptr
  | None => inl TypeError
  end.

Definition _get_absolute_offset_rec :=
  resolve_rec parse_offset parse_rOffset _read_metadata.

Definition _get_absolute_offset (self : session) (name : string) :=
  resolve parse_offset parse_rOffset _read_metadata self name.

Definition resolve_all_offsets (self : session) :=
  resolve_all_loop parse_offset parse_rOffset _read_metadata
    (Dict.keys (structures self)) self.

(** [list_structures] (lines 140-149), the printed table as data: the
    rows are printed only if [resolve_all_offsets] returned. *)
Definition list_structures (self : session)
  : option (result (list (string * option Z)) * session) :=
  match resolve_all_offsets self with
  | None => None
  | Some (inl e, self1) => Some (inl e, self1)
  | Some (inr _, self1) =>
      Some (inr (map (fun name => (name, resolved_offsets self1 !! name))
                     (Dict.keys (structures self1))), self1)
  end.
End WithInt.

End SleuthParser.

(** ** The class of the REPL *)

Module InteractiveSleuth.

(** A fresh [InteractiveSleuth()] (lines 226-233). *)
Definition __init__ : session :=
  {| binary_data := None; structures := []; resolved_offsets := ∅;
     resolved_sizes := ∅ |}.

(** [load_binary] (lines 235-246) when the file can be read. *)
Definition load_binary (binary : list byte) (self : session) : session :=
  set_binary binary self.

(** [load_csv] (lines 248-267) when the file can be read: cells are
    stripped, rows without a name are dropped, the schema is replaced. *)
Definition load_rows (rows : list row) : list (string * row) :=
  fold_left
    (fun d r =>
       let clean_row := SleuthParser.clean_row r in
       let name := row_name clean_row in
       if Py.truthy name then Dict.set name clean_row d else d)
    rows [].

Definition load_csv (rows : list row) (self : session) : session :=
  set_structures (load_rows rows) self.

(** What [analyze_rel] tells its user, by the [print] reached. *)
Inductive analysis : Type :=
  | NoBinaryLoaded
  | NotInProfile
  | FailedToResolve (e : exn)
  | CannotReadSize (size_ptr : Z)
  | Analyzed (absolute size : Z) (updated_csv : option (list row))
             (out_of_range : bool).

Section WithInt.
Variable int0 : string -> option Z.

(** [parse_num] (lines 309-314) *)
Definition parse_num (s : string) : result Z :=
  let s := PyStr.strip s in
  match int0 s with
  | Some v => inr v
  | None => inl (ValueError (InvalidNumber s))
  end.

Definition _read_metadata := InteractiveSleuth_probe._read_metadata.

Definition _resolve_offset_recursive_rec :=
  resolve_rec (fun _ => parse_num) (fun _ => parse_num) _read_metadata.

Definition _resolve_offset_recursive (self : session) (name : string) :=
  resolve (fun _ => parse_num) (fun _ => parse_num) _read_metadata self name.

(** The [list] command (lines 591-606); [None] as first component is
    the message [No CSV loaded.] *)
Definition list_command (self : session)
  : option (option (list (string * option Z)) * session) :=
  match structures self with
  | [] => Some (None, self)
  | _ =>
    match list_loop (fun _ => parse_num) (fun _ => parse_num) _read_metadata
            (Dict.keys (structures self)) (clear_offsets self) with
    | None => None
    | Some (lines, self') => Some (Some lines, self')
    end
  end.

(** lines 457-464: the declared size and offset, both [None] as soon as
    one of the two literals does not parse *)
Definition csv_values (details : row) : option Z * option Z :=
  let parse_cell (cell : string) : result (option Z) :=
    if Py.truthy cell then
      match parse_num cell with inr v => inr (Some v) | inl e => inl e end
    else inr None in
  match parse_cell (row_size details) with
  | inl _ => (None, None)
  | inr csv_size =>
    match parse_cell (row_offset details) with
    | inl _ => (None, None)
    | inr csv_offset => (csv_size, csv_offset)
    end
  end.

(** line 465 *)
Definition mismatch (csv_size csv_offset : option Z) (size absolute : Z) : bool :=
  match csv_size with None => true | Some v => negb (v =? size) end
  || match csv_offset with None => true | Some v => negb (v =? absolute) end.

(** lines 473-488: the rows written to the updated profile *)
Definition updated_rows (d : list (string * row)) (name : string)
    (size absolute : Z) : list row :=
  map (fun '(nm, details) =>
         let out := {| row_name := nm;
                       row_offset := row_offset details;
                       row_size := row_size details;
                       row_rOffset := row_rOffset details;
                       row_parent := row_parent details |} in
         if String.eqb nm name then
           {| row_name := nm;
              row_offset := PyStr.hex_literal absolute;
              row_size := PyStr.hex_literal size;
              row_rOffset := row_rOffset out;
              row_parent := row_parent out |}
         else out) d.

(** lines 456-499: compare with the profile, rewrite and reload it on a
    mismatch, then check the range.  The file is taken to be written and
    read back as it was written.  The lookup of the row sits inside the
    [try] of line 459: a missing row would give [None] twice. *)
Definition reconcile (self : session) (bd : list byte) (name : string)
    (absolute size : Z) : analysis * session :=
  let '(csv_size, csv_offset) :=
    match Dict.get name (structures self) with
    | Some details => csv_values details
    | None => (None, None)
    end in
  let '(updated, self') :=
    if mismatch csv_size csv_offset size absolute then
      let rows := updated_rows (structures self) name size absolute in
      (Some rows, load_csv rows self)
    else (None, self) in
  let out_of_range := (absolute <? 0) || (absolute + size >? Py.len bd) in
  (Analyzed absolute size updated out_of_range, self').

(** [analyze_rel] (lines 414-510) up to the range warning; the hex dump
    and the optional extract that follow only print and write files. *)
Definition analyze_rel (self : session) (name : string)
  : option (analysis * session) :=
  match binary_data self with
  | None => Some (NoBinaryLoaded, self)
  | Some bd =>
    match Dict.get name (structures self) with
    | None => Some (NotInProfile, self)
    | Some _ =>
      match _resolve_offset_recursive self name with
      | None => None
      | Some (inl e, self1) => Some (FailedToResolve e, self1)
      | Some (inr absolute, self1) =>
        match resolved_sizes self1 !! name with
        | Some size => Some (reconcile self1 bd name absolute size)
        | None =>
          let size_ptr := absolute - 4 in
          if (size_ptr <? 0) || (size_ptr + 4 >? Py.len bd) then
            Some (CannotReadSize size_ptr, self1)
          else
            let size := Py.from_bytes_little (Py.slice bd size_ptr (size_ptr + 4)) in
            if absolute + 4 <=? Py.len bd then
              let new_ptr := Py.from_bytes_little (Py.slice bd absolute (absolute + 4)) in
              Some (reconcile (set_size name size (set_offset name new_ptr self1))
                      bd name new_ptr size)
            else Some (reconcile self1 bd name absolute size)
        end
      end
    end
  end.
End WithInt.

End InteractiveSleuth.

(** ** Definitions used to state the properties *)


Definition zeros8 : list byte := repeat x00%byte 8.

Definition image_child : list byte :=
  [x10; x00; x00; x00; x20; x00; x00; x00; x00; x00; x00; x00;
   x00; x00; x00; x00; x00; x00; x00; x00; x00; x00; x00; x00;
   x00; x00; x00; x00; x00; x00; x00; x00; x00; x00; x00; x00;
   x00; x00; x00; x00; x00; x00; x00; x00; x00; x00; x00; x00]%byte.

Definition image_8_4 : list byte :=
  [xff; x00; x00; x00; x08; x00; x00; x00;
   x00; x00; x00; x00; x04; x00; x00; x00]%byte.

(** The names of the schema not yet on the path: the recursion consumes
    one of them at each call. *)
Definition unvisited (d : list (string * row)) (visited : gset string) : nat :=
  length (filter (fun k => k ∉ visited) (Dict.keys d)).

(** An empty CSV cell. *)
Definition blank : string := EmptyString.

(** A root at an explicit offset and a child placed relative to it. *)
Definition schema_flat : list row :=
  [Row "Root" "0x0" "0x40" blank blank; Row "Child" blank blank "0x8" "Root"].

Definition batch_flat : session := SleuthParser.__init__ zeros8 schema_flat.

(** Two structures that name each other as parent. *)
Definition schema_cycle : list row :=
  [Row "A" blank blank "0x4" "B"; Row "B" blank blank "0x4" "A"].

(** The same, the first one without an rOffset. *)
Definition schema_cycle_no_rOffset : list row :=
  [Row "A" blank blank blank "B"; Row "B" blank blank "0x4" "A"].

(** The offset cache agrees with the explicit offsets of the schema:
    a cached name whose row has a valid offset literal is cached at the
    value of that literal. *)
Definition cache_agrees (parse_offset : string -> string -> result Z)
    (self : session) : Prop :=
  forall name structure L v,
    Dict.get name (structures self) = Some structure ->
    Py.truthy (row_offset structure) = true ->
    parse_offset name (row_offset structure) = inr L ->
    resolved_offsets self !! name = Some v ->
    v = L.

(** The calls a user of a [SleuthParser] can make on it that reach the
    resolver: [view_structure], [dump_structure] call
    [_get_absolute_offset]; [list_structures], [write_resolved_csv] call
    [resolve_all_offsets]. *)
Inductive batch_call : Type :=
  | Call_get_absolute_offset (name : string)
  | Call_resolve_all_offsets.

(** The parser object after a sequence of calls; a call that raises
    leaves the object to its caller as it is then. *)
Fixpoint batch_run (int0 : string -> option Z) (calls : list batch_call)
    (self : session) : option session :=
  match calls with
  | [] => Some self
  | Call_get_absolute_offset name :: calls' =>
      match SleuthParser._get_absolute_offset int0 self name with
      | None => None
      | Some (_, self') => batch_run int0 calls' self'
      end
  | Call_resolve_all_offsets :: calls' =>
      match SleuthParser.resolve_all_offsets int0 self with
      | None => None
      | Some (_, self') => batch_run int0 calls' self'
      end
  end.

(** A REPL session: a profile with one structure at [0x10] is loaded and
    listed, then a profile that puts the structure at [0x20] is loaded. *)
Definition profile_x10 : list row := [Row "X" "0x10" blank blank blank].
Definition profile_x20 : list row := [Row "X" "0x20" blank blank blank].

Definition repl_x10 : session :=
  InteractiveSleuth.load_binary zeros8
    (InteractiveSleuth.load_csv profile_x10 InteractiveSleuth.__init__).

Definition repl_x10_listed : session :=
  match InteractiveSleuth.list_command PyStr.int0 repl_x10 with
  | Some (_, self) => self
  | None => repl_x10
  end.

Definition repl_x20_reloaded : session :=
  InteractiveSleuth.load_csv profile_x20 repl_x10_listed.

(** A REPL session on [image_child]: one structure at offset 4, the place
    of a pointer that follows a size. *)
Definition profile_x4 : list row := [Row "X" "0x4" blank blank blank].

Definition repl_x4 : session :=
  InteractiveSleuth.load_binary image_child
    (InteractiveSleuth.load_csv profile_x4 InteractiveSleuth.__init__).

Definition repl_x4_resolved : session :=
  match InteractiveSleuth._resolve_offset_recursive PyStr.int0 repl_x4 "X" with
  | Some (_, self) => self
  | None => repl_x4
  end.

Definition repl_x4_analyzed : session :=
  match InteractiveSleuth.analyze_rel PyStr.int0 repl_x4_resolved "X" with
  | Some (_, self) => self
  | None => repl_x4_resolved
  end.

(** A schema with a row that has neither an offset nor an rOffset and
    parent, followed by a well-formed one. *)
Definition schema_bad_good : list row :=
  [Row "Bad" blank blank blank blank; Row "Good" "0x10" blank blank blank].

Definition batch_bad_good : session := SleuthParser.__init__ zeros8 schema_bad_good.

Definition repl_bad_good : session :=
  InteractiveSleuth.load_binary zeros8
    (InteractiveSleuth.load_csv schema_bad_good InteractiveSleuth.__init__).

(** A child whose metadata record sits at offset 4 of [image_child]. *)
Definition schema_child : list row :=
  [Row "Root" "0x0" blank blank blank; Row "Child" blank blank "0x4" "Root"].

Definition repl_child : session :=
  InteractiveSleuth.load_binary image_child
    (InteractiveSleuth.load_csv schema_child InteractiveSleuth.__init__).

Definition repl_child_resolved : session :=
  match InteractiveSleuth._resolve_offset_recursive PyStr.int0 repl_child "Child" with
  | Some (_, self) => self
  | None => repl_child
  end.

(** The image is then replaced by eight zero bytes. *)
Definition repl_child_new_image : session :=
  InteractiveSleuth.load_binary zeros8 repl_child_resolved.

(** A REPL session in which a discovered size outlives its pass.  The
    image has 24 bytes: the size 4 in [0,4), the pointer 16 in [4,8), the
    size 8 in [8,12), the pointer 16 in [12,16).  [Root] is declared at
    [0x4] and [Child] at rOffset [0x8] of [Root].  The commands are
    [list], [analyze_rel Root], [list]. *)
Definition image_stale : list byte :=
  [x04; x00; x00; x00; x10; x00; x00; x00; x08; x00; x00; x00;
   x10; x00; x00; x00; x00; x00; x00; x00; x00; x00; x00; x00]%byte.

Definition schema_stale : list row :=
  [Row "Root" "0x4" blank blank blank; Row "Child" blank blank "0x8" "Root"].

Definition repl_stale : session :=
  InteractiveSleuth.load_binary image_stale
    (InteractiveSleuth.load_csv schema_stale InteractiveSleuth.__init__).

Definition repl_stale_listed : session :=
  match InteractiveSleuth.list_command PyStr.int0 repl_stale with
  | Some (_, self) => self
  | None => repl_stale
  end.

Definition repl_stale_analyzed : session :=
  match InteractiveSleuth.analyze_rel PyStr.int0 repl_stale_listed "Root" with
  | Some (_, self) => self
  | None => repl_stale_listed
  end.

Definition repl_stale_relisted : session :=
  match InteractiveSleuth.list_command PyStr.int0 repl_stale_analyzed with
  | Some (_, self) => self
  | None => repl_stale_analyzed
  end.

(** The profile that [analyze_rel Root] wrote, in a session of its own. *)
Definition schema_stale_corrected : list row :=
  [Row "Root" "0x10" "0x4" blank blank; Row "Child" blank blank "0x8" "Root"].

Definition repl_stale_fresh : session :=
  InteractiveSleuth.load_binary image_stale
    (InteractiveSleuth.load_csv schema_stale_corrected InteractiveSleuth.__init__).

(** A fresh REPL session on the profile with [X] at [0x20]. *)
Definition repl_x20 : session :=
  InteractiveSleuth.load_binary zeros8
    (InteractiveSleuth.load_csv profile_x20 InteractiveSleuth.__init__).

(** ** Definitions used to state the reconciler's property *)

(** The pair that [analyze_rel] compares with the declared values (lines
    429-452), for a name that the resolver left at [resolved] in [self1].
    With a discovered size cached for the name: the resolved offset and
    that size.  Without one: the size read in the four bytes before the
    resolved offset, and the pointer read in the four bytes at the
    resolved offset when these lie in the image, the resolved offset
    otherwise. *)
Definition discovered_size (self1 : session) (bd : list byte) (name : string)
    (resolved : Z) : Z :=
  match resolved_sizes self1 !! name with
  | Some size => size
  | None => u32_le bd (resolved - 4)
  end.

Definition discovered_offset (self1 : session) (bd : list byte) (name : string)
    (resolved : Z) : Z :=
  match resolved_sizes self1 !! name with
  | Some _ => resolved
  | None => if resolved + 4 <=? Py.len bd then u32_le bd resolved else resolved
  end.

(** [X] declared at offset 4 with the size 16, on [image_child]: the size
    before offset 4 is 16. *)
Definition profile_x4_sized : list row := [Row "X" "0x4" "0x10" blank blank].

Definition repl_x4_sized : session :=
  InteractiveSleuth.load_binary image_child
    (InteractiveSleuth.load_csv profile_x4_sized InteractiveSleuth.__init__).

(** [X] declared at offset 0 without a size, on [image_child]. *)
Definition profile_x0 : list row := [Row "X" "0x0" blank blank blank].

Definition repl_x0 : session :=
  InteractiveSleuth.load_binary image_child
    (InteractiveSleuth.load_csv profile_x0 InteractiveSleuth.__init__).

(** The declared values of a row, each on its own: absent when the cell is
    empty or is not a number. *)
Definition declared_size (int0 : string -> option Z) (details : row) : option Z :=
  if Py.truthy (row_size details) then
    match InteractiveSleuth.parse_num int0 (row_size details) with
    | inr v => Some v
    | inl _ => None
    end
  else None.

Definition declared_offset (int0 : string -> option Z) (details : row) : option Z :=
  if Py.truthy (row_offset details) then
    match InteractiveSleuth.parse_num int0 (row_offset details) with
    | inr v => Some v
    | inl _ => None
    end
  else None.

(** The row of [name] after a correction. *)
Definition corrected_row (details : row) (name : string) (absolute size : Z) : row :=
  {| row_name := name;
     row_offset := PyStr.hex_literal absolute;
     row_size := PyStr.hex_literal size;
     row_rOffset := row_rOffset details;
     row_parent := row_parent details |}.

(** What [load_csv] guarantees of a schema: the names are distinct and
    not empty, every row is stored under its own name, every cell is
    stripped. *)
Definition wf_entry (kv : string * row) : Prop :=
  Py.truthy kv.1 = true /\ row_name kv.2 = kv.1 /\ SleuthParser.clean_row kv.2 = kv.2.

Definition wf_structures (d : list (string * row)) : Prop :=
  NoDup (Dict.keys d) /\ Forall wf_entry d.

(** No character of the string is white space. *)
Fixpoint no_space (s : string) : bool :=
  match s with
  | EmptyString => true
  | String c s' => negb (PyStr.is_space c) && no_space s'
  end.

(** One iteration of the loop of [load_csv]. *)
Definition load_step (d : list (string * row)) (r : row) : list (string * row) :=
  let clean_row := SleuthParser.clean_row r in
  let name := row_name clean_row in
  if Py.truthy name then Dict.set name clean_row d else d.

(** The schema after the row of [name] was corrected. *)
Definition corrected_schema (d : list (string * row)) (name : string)
    (absolute size : Z) : list (string * row) :=
  map (fun kv => (kv.1, if String.eqb kv.1 name
                        then corrected_row kv.2 kv.1 absolute size
                        else kv.2)) d.

(** A REPL session on [image_8_4] with one structure at offset 4: the size
    before it is 255, the pointer at it is 8. *)
Definition repl_x4_small : session :=
  InteractiveSleuth.load_binary image_8_4
    (InteractiveSleuth.load_csv profile_x4 InteractiveSleuth.__init__).

(** The example of the specification: 64 bytes, the size 16 in [4,8), the
    pointer 32 in [8,12); [Root] at [0x0], [Child] at rOffset [0x8] of
    [Root]. *)
Definition image_example : list byte :=
  [x00; x00; x00; x00; x10; x00; x00; x00; x20; x00; x00; x00]%byte
  ++ repeat x00%byte 52.

Definition batch_example : session := SleuthParser.__init__ image_example schema_flat.

Definition repl_example : session :=
  InteractiveSleuth.load_binary image_example
    (InteractiveSleuth.load_csv schema_flat InteractiveSleuth.__init__).

(** * The rest of the script: dumps, views, the resolved profile *)

Definition u64_le (bd : list byte) (pos : Z) : Z :=
  Py.from_bytes_little (firstn 8 (skipn (Z.to_nat pos) bd)).

(** ** Built-ins of the formatting code *)

Module PyFmt.

(** [range(0, n, step)]; [None] is the [ValueError] of a zero step. *)
Definition range0 (n step : Z) : option (list Z) :=
  if step =? 0 then None
  else if 0 <? step then
    Some (map (fun k => Z.of_nat k * step)
              (seq 0 (Z.to_nat ((n + step - 1) / step))))
  else
    Some (map (fun k => Z.of_nat k * step)
              (seq 0 (Z.to_nat ((- n + - step - 1) / - step)))).

(** The digits of [format(abs(z), 'X')]. *)
Definition hex_abs (z : Z) : string :=
  let n := Z.abs_N z in
  PyStr.hex_digits (S (N.size_nat n)) n EmptyString.

Fixpoint repeat_char (c : ascii) (n : nat) : string :=
  match n with
  | O => EmptyString
  | S n' => String c (repeat_char c n')
  end.

(** Zero padding on the left up to [width] characters. *)
Definition zfill (width : nat) (s : string) : string :=
  String.append (repeat_char "0" (width - String.length s)) s.

(** [format(z, '08X')]: the sign counts in the width and precedes the
    zeros. *)
Definition format_08X (z : Z) : string :=
  if z <? 0 then String "-" (zfill 7 (hex_abs z)) else zfill 8 (hex_abs z).

(** [format(b, '02X')] of a byte. *)
Definition format_02X (b : byte) : string :=
  zfill 2 (hex_abs (Z.of_N (Byte.to_N b))).

(** [format(s, '<w')]: padding with spaces on the right. *)
Definition ljust (width : Z) (s : string) : string :=
  String.append s (repeat_char " " (Z.to_nat width - String.length s)).

(** [sep.join(parts)] *)
Fixpoint join (sep : string) (parts : list string) : string :=
  match parts with
  | [] => EmptyString
  | [p] => p
  | p :: parts' => String.append p (String.append sep (join sep parts'))
  end.

(** [chr(b) if 32 <= b <= 126 else '.'] *)
Definition printable (b : byte) : ascii :=
  let n := Byte.to_N b in
  if ((32 <=? n) && (n <=? 126))%N then ascii_of_N n else "."%char.

Fixpoint string_of_chars (cs : list ascii) : string :=
  match cs with
  | [] => EmptyString
  | c :: cs' => String c (string_of_chars cs')
  end.

End PyFmt.

(** ** [hexdump] *)

Module Hexdump.

(** The chunk of one iteration: [data[i:i+width]]. *)
Definition chunk (data : list byte) (width i : Z) : list byte :=
  Py.slice data i (i + width).

(** One line (lines 25-28 and 282-285). *)
Definition line (data : list byte) (start_offset width i : Z) : string :=
  let chunk := chunk data width i in
  let offset_str := String "0" (String "x" (PyFmt.format_08X (start_offset + i))) in
  let hex_part := PyFmt.join " " (map PyFmt.format_02X chunk) in
  let ascii_part := PyFmt.string_of_chars (map PyFmt.printable chunk) in
  String.append offset_str
    (String.append " | "
       (String.append (PyFmt.ljust (width * 3) hex_part)
          (String.append " | " ascii_part))).

(** The list [lines] at the end of the loop; [None] is the [ValueError]
    that [range] raises for a zero width. *)
Definition lines (data : list byte) (start_offset width : Z) : option (list string) :=
  match PyFmt.range0 (Py.len data) width with
  | None => None
  | Some idx => Some (map (line data start_offset width) idx)
  end.

(** [InteractiveSleuth.hexdump(data, start_offset, width)] (lines 278-286) *)
Definition hexdump_width (data : list byte) (start_offset width : Z) : option string :=
  PyFmt.join (String "010" EmptyString) <$> lines data start_offset width.

(** The module-level [hexdump(data, start_offset)] (lines 20-29): the same
    with the width 16. *)
Definition hexdump (data : list byte) (start_offset : Z) : string :=
  default EmptyString (hexdump_width data start_offset 16).

End Hexdump.

(** ** The other methods of [SleuthParser] *)

(** An exception of [view_structure] or [dump_structure]: one of the
    resolver, or the [ValueError] of an invalid or missing size. *)
Inductive view_exn : Type :=
  | Resolver_raised (e : exn)
  | Invalid_or_missing_size (name : string).

Module SleuthParser_views.

Section WithInt.
Variable int0 : string -> option Z.

(** [view_structure] (lines 151-163) and [dump_structure] (lines 165-180)
    up to the output: the offset, the size and the slice that is dumped or
    written.  A missing image would be a [TypeError] on the slice. *)
Definition view_structure (self : session) (name : string)
  : option ((view_exn + (Z * Z * list byte)) * session) :=
  match SleuthParser._get_absolute_offset int0 self name with
  | None => None
  | Some (inl e, self1) => Some (inl (Resolver_raised e), self1)
  | Some (inr offset, self1) =>
    match Dict.get name (structures self1) with
    | None => Some (inl (Resolver_raised (KeyError name)), self1)
    | Some details =>
      match int0 (row_size details) with
      | None => Some (inl (Invalid_or_missing_size name), self1)
      | Some size =>
        match binary_data self1 with
        | None => Some (inl (Resolver_raised TypeError), self1)
        | Some bd =>
            Some (inr (offset, size, Py.slice bd offset (offset + size)), self1)
        end
      end
    end
  end.

(** The text [view_structure] prints between its header and footer. *)
Definition view_text (self : session) (name : string) : option string :=
  match view_structure self name with
  | Some (inr (offset, _, data_slice), _) => Some (Hexdump.hexdump data_slice offset)
  | _ => None
  end.

(** [write_resolved_csv] (lines 182-199): the rows written after the
    header. *)
Definition write_resolved_csv (self : session)
  : option (result (list row) * session) :=
  match SleuthParser.resolve_all_offsets int0 self with
  | None => None
  | Some (inl e, self1) => Some (inl e, self1)
  | Some (inr _, self1) =>
      Some (inr (map (fun '(name, details) =>
                        {| row_name := name;
                           row_offset :=
                             PyStr.hex_literal
                               (default 0 (resolved_offsets self1 !! name));
                           row_size := row_size details;
                           row_rOffset := row_rOffset details;
                           row_parent := row_parent details |})
                     (structures self1)), self1)
  end.

End WithInt.

End SleuthParser_views.

(** ** The other methods of [InteractiveSleuth] *)

Module InteractiveSleuth_views.

(** What [dump_slice] does (lines 288-307), when the file can be written:
    the bytes written. *)
Inductive dump : Type :=
  | Dump_no_binary
  | Dump_out_of_bounds
  | Dump_wrote (data_slice : list byte).

Definition dump_slice (self : session) (offset size : Z) : dump :=
  match binary_data self with
  | None => Dump_no_binary
  | Some bd =>
      if (offset <? 0) || (offset + size >? Py.len bd) then Dump_out_of_bounds
      else Dump_wrote (Py.slice bd offset (offset + size))
  end.

(** What [analyze_abs] tells its user (lines 316-343).  Its handler
    catches the exception of [parse_num], and the [ValueError] that
    [range] raises for a zero width once the warning and the header are
    printed. *)
Inductive abs_analysis : Type :=
  | Abs_not_in_profile
  | Abs_no_offset
  | Abs_no_size
  | Abs_no_binary
  | Abs_invalid_number (e : exn)
  | Abs_zero_width (offset size : Z) (warning : bool)
  | Abs_shown (offset size : Z) (warning : bool) (text : string)
              (extract : option dump).

Section WithInt.
Variable int0 : string -> option Z.

Definition analyze_abs (self : session) (name : string) (width : Z)
    (extract : bool) : abs_analysis :=
  match Dict.get name (structures self) with
  | None => Abs_not_in_profile
  | Some details =>
    if negb (Py.truthy (row_offset details)) then Abs_no_offset
    else
      match InteractiveSleuth.parse_num int0 (row_offset details) with
      | inl e => Abs_invalid_number e
      | inr offset =>
        if negb (Py.truthy (row_size details)) then Abs_no_size
        else
          match InteractiveSleuth.parse_num int0 (row_size details) with
          | inl e => Abs_invalid_number e
          | inr size =>
            match binary_data self with
            | None => Abs_no_binary
            | Some bd =>
              let warning := (offset <? 0) || (offset + size >? Py.len bd) in
              let data_slice := Py.slice bd offset (offset + size) in
              match Hexdump.hexdump_width data_slice offset width with
              | None => Abs_zero_width offset size warning
              | Some text =>
                  Abs_shown offset size warning text
                    (if extract then Some (dump_slice self offset size) else None)
              end
            end
          end
      end
  end.

End WithInt.

End InteractiveSleuth_views.

(** ** Definitions used to state the further properties *)

(** The resolver goes from [x] to [y]: [x] is not cached, its row has no
    explicit offset, has an rOffset and names [y] as parent. *)
Definition parent_edge (self : session) (x y : string) : Prop :=
  resolved_offsets self !! x = None /\
  exists structure,
    Dict.get x (structures self) = Some structure /\
    Py.truthy (row_offset structure) = false /\
    Py.truthy (row_rOffset structure) && Py.truthy (row_parent structure) = true /\
    row_parent structure = y.

(** A parser of literals raises nothing but the [ValueError] of an
    invalid literal. *)
Definition raises_literal_error (parse : string -> string -> result Z) : Prop :=
  forall name lit e,
    parse name lit = inl e ->
    match e with
    | ValueError (InvalidOffsetValue _ _ | InvalidROffsetValue _ _ | InvalidNumber _) => True
    | _ => False
    end.

(** The parser reads back the hexadecimal literals the script writes. *)
Definition reads_hex (int0 : string -> option Z) : Prop :=
  forall z, 0 <= z -> int0 (PyStr.hex_literal z) = Some z.

(** What the batch loader guarantees of a schema. *)
Definition batch_loaded (d : list (string * row)) : Prop :=
  NoDup (Dict.keys d) /\
  Forall (fun kv => row_name kv.2 = kv.1 /\ SleuthParser.clean_row kv.2 = kv.2) d.

(** A child four bytes before its root. *)
Definition schema_before_root : list row :=
  [Row "Root" "0x0" blank blank blank; Row "Child" blank blank "-4" "Root"].

(** Two results agree: the same value, or an exception on both sides. *)
Definition agree {A} (r1 r2 : result A) : Prop :=
  match r1, r2 with
  | inr v1, inr v2 => v1 = v2
  | inl _, inl _ => True
  | _, _ => False
  end.

(** Two calls of a resolver end alike: the same value or an exception on
    both sides, and the same session. *)
Definition same_outcome (o1 o2 : option (result Z * session)) : Prop :=
  match o1, o2 with
  | Some (r1, s1), Some (r2, s2) => agree r1 r2 /\ s1 = s2
  | None, None => True
  | _, _ => False
  end.

(** Every cell of the schema is stripped. *)
Definition stripped (d : list (string * row)) : Prop :=
  Forall (fun kv => SleuthParser.clean_row kv.2 = kv.2) d.

(** The parser rejects what the script writes for a negative number:
    [f"0x{z:X}"] puts the sign after the prefix, as in [0x-4]. *)
Definition rejects_negative_hex (int0 : string -> option Z) : Prop :=
  forall z, z < 0 -> int0 (PyStr.hex_literal z) = None.

(** The commands of the REPL that change the session, the profile being
    the one loaded first: [setimg] (lines 571-576), [list] (lines
    591-606) and [analyze_rel] (lines 647-660).  [analyze_abs], [hex],
    [showcsv] and [status] only read it. *)
Inductive repl_command : Type :=
  | Cmd_setimg (binary : list byte)
  | Cmd_list
  | Cmd_analyze_rel (name : string).

(** The session after a sequence of commands. *)
Fixpoint repl_run (int0 : string -> option Z) (cmds : list repl_command)
    (self : session) : option session :=
  match cmds with
  | [] => Some self
  | Cmd_setimg binary :: cmds' =>
      repl_run int0 cmds' (InteractiveSleuth.load_binary binary self)
  | Cmd_list :: cmds' =>
      match InteractiveSleuth.list_command int0 self with
      | None => None
      | Some (_, self') => repl_run int0 cmds' self'
      end
  | Cmd_analyze_rel name :: cmds' =>
      match InteractiveSleuth.analyze_rel int0 self name with
      | None => None
      | Some (_, self') => repl_run int0 cmds' self'
      end
  end.


(** * Properties *)

(** ** Slices and little-endian integers *)

Lemma slice_in_range {A} (l : list A) (a b : Z) :
  0 <= a -> a <= b -> b <= Py.len l ->
  Py.slice l a b = firstn (Z.to_nat (b - a)) (skipn (Z.to_nat a) l).
Proof.
  intros Ha Hab Hb. unfold Py.slice, Py.adjust.
  destruct (Z.ltb_spec a 0); [lia|].
  destruct (Z.ltb_spec b 0); [lia|].
  rewrite !Z.min_l by lia. reflexivity.
Qed.

Lemma slice_u32 (bd : list byte) (pos : Z) :
  0 <= pos -> pos + 4 <= Py.len bd ->
  Py.from_bytes_little (Py.slice bd pos (pos + 4)) = u32_le bd pos.
Proof.
  intros H0 H1. rewrite slice_in_range by lia.
  unfold u32_le. do 2 f_equal. lia.
Qed.

Lemma slice_u32_before (bd : list byte) (pos : Z) :
  4 <= pos -> pos <= Py.len bd ->
  Py.from_bytes_little (Py.slice bd (pos - 4) pos) = u32_le bd (pos - 4).
Proof.
  intros H0 H1. rewrite slice_in_range by lia.
  unfold u32_le. do 2 f_equal. lia.
Qed.

Lemma from_bytes_little_nonneg (bs : list byte) : 0 <= Py.from_bytes_little bs.
Proof.
  induction bs as [|b bs IH]; simpl; [lia|].
  pose proof (N2Z.is_nonneg (Byte.to_N b)). lia.
Qed.

Lemma from_bytes_little_bound (bs : list byte) :
  Py.from_bytes_little bs < 256 ^ Z.of_nat (length bs).
Proof.
  induction bs as [|b bs IH]; [simpl; lia|].
  cbn [Py.from_bytes_little length].
  rewrite Nat2Z.inj_succ, Z.pow_succ_r by lia.
  assert (Z.of_N (Byte.to_N b) < 256).
  { pose proof (Byte.to_N_bounded b) as Hb. lia. }
  lia.
Qed.

Lemma u32_le_range (bd : list byte) (pos : Z) : 0 <= u32_le bd pos < 2 ^ 32.
Proof.
  unfold u32_le. split; [apply from_bytes_little_nonneg|].
  eapply Z.lt_le_trans; [apply from_bytes_little_bound|].
  change (2 ^ 32) with (256 ^ 4).
  apply Z.pow_le_mono_r; [lia|].
  pose proof (firstn_le_length 4 (skipn (Z.to_nat pos) bd)). lia.
Qed.

Lemma in_image_spec (n p s : Z) :
  0 <= p -> 0 <= s ->
  in_image n p s = true <-> p < n /\ p + s <= n.
Proof.
  intros Hp Hs. unfold in_image.
  rewrite !andb_true_iff, !Z.leb_le, Z.ltb_lt. lia.
Qed.

(** ** The 4+4 layout (C1) *)









(** The probes do not check [meta_ptr - 4 >= 0]: for a position in [[0,4)]
    the slice [bd[meta_ptr-4:meta_ptr]] counts its start from the end of
    the image and is empty, so the size reads as 0. *)
Example probe_before_start :
  InteractiveSleuth_probe._read_metadata_exit (Some zeros8) 0 = Return_4_4 0 0 /\
  SleuthParser_probe._read_metadata_exit zeros8 0 = Return_4_4 0 0.
Proof. split; reflexivity. Qed.

(** ** The 8+4 layout (C2) *)


(** C2: the batch probe never takes the 8+4 exit, although its docstring
    announces both layouts and the interactive probe has it.  In
    [image_8_4] at position 4 the 4+4 layout decodes pointer 8 and size
    255, beyond the 16 bytes of the image; the 8+4 layout decodes the
    valid pair (8, 4).  The interactive probe returns that pair, the batch
    probe raises [No valid metadata found at pointer]. *)
Theorem C2_batch_probe_has_no_8_4 :
  (forall bd meta_ptr p s,
     SleuthParser_probe._read_metadata_exit bd meta_ptr <> Return_8_4 p s) /\
  u32_le image_8_4 4 + u32_le image_8_4 0 > Py.len image_8_4 /\
  InteractiveSleuth_probe._read_metadata_exit (Some image_8_4) 4 = Return_8_4 8 4 /\
  SleuthParser_probe._read_metadata_exit image_8_4 4 = Raise_no_valid_metadata /\
  SleuthParser_probe._read_metadata image_8_4 4 = inl (ValueError NoValidMetadata).
Proof.
  split; [|split; [|split; [|split]]]; try reflexivity.
  intros bd meta_ptr p s. unfold SleuthParser_probe._read_metadata_exit. cbv zeta.
  repeat match goal with |- context [if ?b then _ else _] => destruct b end;
    discriminate.
Qed.

(** ** Facts about the recursion *)

(** One unfolding of the recursion in a hypothesis, all branches split. *)
Ltac step H :=
  cbn [resolve_rec] in H;
  repeat (let E := fresh "E" in
          match type of H with
          | context [match ?x with _ => _ end] => destruct x eqn:E
          end);
  simplify_eq.

Section ResolverFacts.

Variable parse_offset : string -> string -> result Z.
Variable parse_rOffset : string -> string -> result Z.
Variable read_metadata : option (list byte) -> Z -> result (Z * Z).

Local Abbreviation rec := (resolve_rec parse_offset parse_rOffset read_metadata).
Local Abbreviation run := (resolve parse_offset parse_rOffset read_metadata).


Lemma resolve_rec_mono (fuel fuel' : nat) self name visited out :
  rec fuel self name visited = Some out ->
  (fuel <= fuel')%nat ->
  rec fuel' self name visited = Some out.
Proof.
  revert fuel' self name visited out.
  induction fuel as [|fuel IH]; intros fuel' self name visited out H Hle;
    [discriminate|].
  destruct fuel' as [|fuel']; [lia|].
  cbn [resolve_rec] in *.
  repeat match type of H with
  | context [rec fuel ?s ?p ?v] =>
      let E := fresh "E" in
      destruct (rec fuel s p v) as [o|] eqn:E;
      [rewrite (IH fuel' s p v o E) by lia|]
  | context [match ?x with _ => _ end] => destruct x eqn:?
  end; by simplify_eq.
Qed.

Lemma resolves_deterministic self name visited out1 out2 :
  resolves parse_offset parse_rOffset read_metadata self name visited out1 ->
  resolves parse_offset parse_rOffset read_metadata self name visited out2 ->
  out1 = out2.
Proof.
  intros [f1 H1] [f2 H2].
  apply (resolve_rec_mono _ (f1 `max` f2)%nat) in H1; [|lia].
  apply (resolve_rec_mono _ (f1 `max` f2)%nat) in H2; [|lia].
  congruence.
Qed.


Lemma get_Some_keys name d v : Dict.get name d = Some v -> name ∈ Dict.keys d.
Proof.
  induction d as [|[k w] d IH]; [discriminate|]. cbn.
  destruct (String.eqb_spec k name) as [->|Hne]; intros H.
  - apply list_elem_of_here.
  - apply list_elem_of_further, IH, H.
Qed.

Lemma filter_length_drop (l : list string) (visited : gset string) (name : string) :
  name ∈ l -> name ∉ visited ->
  (length (filter (fun k => k ∉ ({[name]} ∪ visited)) l)
   < length (filter (fun k => k ∉ visited) l))%nat.
Proof.
  intros Hin Hnv.
  assert (Hle : forall l' : list string,
    (length (filter (fun k => k ∉ ({[name]} ∪ visited)) l')
     <= length (filter (fun k => k ∉ visited) l'))%nat).
  { induction l' as [|a l' IH]; [done|].
    rewrite !filter_cons. repeat case_decide; cbn; try lia. set_solver. }
  induction l as [|a l IH]; [by apply elem_of_nil in Hin|].
  rewrite !filter_cons.
  apply elem_of_cons in Hin as [<-|Hin].
  - rewrite decide_False by set_solver. rewrite decide_True by done.
    cbn. specialize (Hle l). lia.
  - specialize (IH Hin). repeat case_decide; cbn; try lia. set_solver.
Qed.

Lemma resolve_rec_total (fuel : nat) self name visited :
  (unvisited (structures self) visited < fuel)%nat ->
  exists out, rec fuel self name visited = Some out.
Proof.
  revert self name visited.
  induction fuel as [|fuel IH]; intros self name visited Hlt; [lia|].
  cbn [resolve_rec].
  repeat (case_match; simplify_eq; eauto).
  all: match goal with
       | H : rec _ ?s ?p ?v = None |- _ =>
           destruct (IH s p v) as [out Hout]; [|congruence]
       end.
  all: eapply Nat.lt_le_trans;
    [apply filter_length_drop; [eapply get_Some_keys; eassumption|done]|].
  all: unfold unvisited in Hlt; lia.
Qed.

Lemma unvisited_le d visited : (unvisited d visited <= length d)%nat.
Proof.
  unfold unvisited, Dict.keys.
  etransitivity; [apply length_filter|]. by rewrite length_map.
Qed.

(** A call from outside always returns: with a value or an exception. *)
Lemma resolve_total self name : exists out, run self name = Some out.
Proof.
  apply resolve_rec_total. pose proof (unvisited_le (structures self) ∅). lia.
Qed.

Lemma resolve_resolves self name out :
  run self name = Some out <->
  resolves parse_offset parse_rOffset read_metadata self name ∅ out.
Proof.
  split; [intros H; eexists; exact H|].
  intros Hr. destruct (resolve_total self name) as [out' Hout'].
  rewrite Hout'. f_equal.
  eapply resolves_deterministic; [eexists; exact Hout'|exact Hr].
Qed.

(** *** What a call changes *)

Lemma resolve_rec_env fuel self name visited r self' :
  rec fuel self name visited = Some (r, self') ->
  structures self' = structures self /\ binary_data self' = binary_data self.
Proof.
  revert self name visited r self'.
  induction fuel as [|fuel IH]; intros self name visited r self' H;
    [discriminate|].
  step H; try done.
  all: match goal with
       | E : rec _ _ _ _ = Some _ |- _ => apply IH in E as [? ?]
       end; done.
Qed.

(** A call that raises has written nothing. *)
Lemma resolve_rec_fail fuel self name visited e self' :
  rec fuel self name visited = Some (inl e, self') -> self' = self.
Proof.
  revert self name visited e self'.
  induction fuel as [|fuel IH]; intros self name visited e self' H;
    [discriminate|].
  step H; try done.
  eapply IH; eassumption.
Qed.

(** A call that raises was for a name that is not cached. *)
Lemma resolve_rec_fail_uncached fuel self name visited e self' :
  rec fuel self name visited = Some (inl e, self') ->
  resolved_offsets self !! name = None.
Proof.
  destruct fuel as [|fuel]; intros H; [discriminate|].
  cbn [resolve_rec] in H.
  destruct (resolved_offsets self !! name); [discriminate|reflexivity].
Qed.

(** An entry of the offset cache survives every call, with its value. *)
Lemma resolve_rec_keeps fuel self name visited r self' k v :
  rec fuel self name visited = Some (r, self') ->
  resolved_offsets self !! k = Some v ->
  resolved_offsets self' !! k = Some v.
Proof.
  revert self name visited r self'.
  induction fuel as [|fuel IH]; intros self name visited r self' H Hk;
    [discriminate|].
  step H; try done.
  all: try (match goal with
            | E : rec _ _ _ _ = Some _ |- _ => pose proof (IH _ _ _ _ _ E Hk)
            end).
  all: cbn; destruct (decide (name = k)) as [->|Hne];
    [congruence | rewrite ?lookup_insert_ne by done; done].
Qed.

(** The names on the path are not written by the calls below them. *)
Lemma resolve_rec_visited fuel self name visited r self' k :
  rec fuel self name visited = Some (r, self') ->
  k ∈ visited ->
  resolved_offsets self' !! k = resolved_offsets self !! k /\
  resolved_sizes self' !! k = resolved_sizes self !! k.
Proof.
  revert self name visited r self'.
  induction fuel as [|fuel IH]; intros self name visited r self' H Hk;
    [discriminate|].
  step H; try done.
  all: assert (name <> k) by (intros ->; done).
  all: try (match goal with
            | E : rec _ _ _ _ = Some _ |- _ =>
                apply IH in E as [? ?]; [|set_solver]
            end).
  all: cbn; rewrite ?lookup_insert_ne by done; done.
Qed.

(** A call that returns has cached what it returns. *)
Lemma resolve_rec_result fuel self name visited v self' :
  rec fuel self name visited = Some (inr v, self') ->
  resolved_offsets self' !! name = Some v.
Proof.
  destruct fuel as [|fuel]; intros H; [discriminate|].
  step H; cbn; try done; by rewrite lookup_insert_eq.
Qed.

(** A cached name is answered from the cache: no lookup, no parse, no
    probe, no write. *)
Lemma resolve_rec_cached fuel self name visited v :
  resolved_offsets self !! name = Some v ->
  rec (S fuel) self name visited = Some (inr v, self).
Proof. intros H. cbn [resolve_rec]. by rewrite H. Qed.

(** Discovered sizes stay inside the resolved names. *)
Lemma resolve_rec_sizes_dom fuel self name visited r self' :
  rec fuel self name visited = Some (r, self') ->
  dom (resolved_sizes self) ⊆ dom (resolved_offsets self) ->
  dom (resolved_sizes self') ⊆ dom (resolved_offsets self').
Proof.
  revert self name visited r self'.
  induction fuel as [|fuel IH]; intros self name visited r self' H Hd;
    [discriminate|].
  step H; try done.
  all: try (match goal with
            | E : rec _ _ _ _ = Some _ |- _ => pose proof (IH _ _ _ _ _ E Hd)
            end).
  all: cbn; rewrite ?dom_insert_L; set_solver.
Qed.

End ResolverFacts.

(** ** The resolver: fallback, cycles, failures (C3, C4, C10) *)

Section ResolverProperties.

Variable parse_offset : string -> string -> result Z.
Variable parse_rOffset : string -> string -> result Z.
Variable read_metadata : option (list byte) -> Z -> result (Z * Z).

(** C4, as amended: when [a] and [b] are relative descriptors (rOffset a
    valid literal, parent set) that name each other as parent, neither
    with an explicit offset nor cached, [resolve] raises [RecursionError]
    for both; the error reports the path, the names [a] and [b], and the
    name at which the path closed; nothing is cached. *)
Theorem C4_mutual_parents_raise
    self a b structure_a structure_b r_a r_b :
  Dict.get a (structures self) = Some structure_a ->
  Dict.get b (structures self) = Some structure_b ->
  row_parent structure_a = b -> row_parent structure_b = a ->
  Py.truthy (row_offset structure_a) = false ->
  Py.truthy (row_offset structure_b) = false ->
  Py.truthy (row_rOffset structure_a) && Py.truthy (row_parent structure_a) = true ->
  Py.truthy (row_rOffset structure_b) && Py.truthy (row_parent structure_b) = true ->
  parse_rOffset a (row_rOffset structure_a) = inr r_a ->
  parse_rOffset b (row_rOffset structure_b) = inr r_b ->
  resolved_offsets self !! a = None ->
  resolved_offsets self !! b = None ->
  resolve parse_offset parse_rOffset read_metadata self a
    = Some (inl (RecursionError ({[a]} ∪ {[b]}) a), self) /\
  resolve parse_offset parse_rOffset read_metadata self b
    = Some (inl (RecursionError ({[a]} ∪ {[b]}) b), self).
Proof.
  intros Ha Hb Hpa Hpb Hoa Hob Hra Hrb Hia Hib Hca Hcb.
  assert (Hcycle : forall x y sx sy,
    Dict.get x (structures self) = Some sx ->
    Dict.get y (structures self) = Some sy ->
    row_parent sx = y -> row_parent sy = x ->
    Py.truthy (row_offset sx) = false -> Py.truthy (row_offset sy) = false ->
    Py.truthy (row_rOffset sx) && Py.truthy (row_parent sx) = true ->
    Py.truthy (row_rOffset sy) && Py.truthy (row_parent sy) = true ->
    (exists r, parse_rOffset x (row_rOffset sx) = inr r) ->
    (exists r, parse_rOffset y (row_rOffset sy) = inr r) ->
    resolved_offsets self !! x = None -> resolved_offsets self !! y = None ->
    resolve parse_offset parse_rOffset read_metadata self x
      = Some (inl (RecursionError ({[x]} ∪ {[y]}) x), self)).
  { intros x y sx sy Hx Hy Hpx Hpy Hox Hoy Hrx Hry [rx Hix] [ry Hiy] Hcx Hcy.
    apply resolve_resolves. exists 3%nat. cbn [resolve_rec].
    rewrite Hcx, Hx, Hox, Hrx, Hix, Hpx.
    rewrite decide_False by set_solver.
    rewrite Hcy. destruct (decide (y ∈ {[x]} ∪ ∅)) as [Hin|Hnin].
    - assert (y = x) as -> by set_solver.
      do 3 f_equal. f_equal. set_solver.
    - rewrite Hy, Hoy, Hry, Hiy, Hpy, Hcx.
      rewrite decide_True by set_solver.
      do 3 f_equal. f_equal. set_solver. }
  split.
  - eapply Hcycle; eauto.
  - replace ({[a]} ∪ {[b]} : gset string) with ({[b]} ∪ {[a]} : gset string)
      by set_solver.
    eapply Hcycle; eauto.
Qed.

(** C10: a [resolve] that raises, for whatever reason, leaves the session
    as it was: neither cache has a new entry, the failing name has no
    resolved offset, every entry cached before is still there with its
    value, and discovered sizes remain within the resolved names. *)
Theorem C10_failed_resolve_writes_nothing self name e self' :
  resolve parse_offset parse_rOffset read_metadata self name = Some (inl e, self') ->
  self' = self /\
  resolved_offsets self' !! name = None /\
  (forall k v, resolved_offsets self !! k = Some v ->
               resolved_offsets self' !! k = Some v) /\
  (dom (resolved_sizes self) ⊆ dom (resolved_offsets self) ->
   resolved_sizes self' !! name = None).
Proof.
  intros H. unfold resolve in H.
  pose proof (resolve_rec_fail _ _ _ _ _ _ _ _ _ H) as ->.
  pose proof (resolve_rec_fail_uncached _ _ _ _ _ _ _ _ _ H) as Hn.
  repeat split; [exact Hn|done|].
  intros Hd. apply not_elem_of_dom. apply not_elem_of_dom in Hn. set_solver.
Qed.

End ResolverProperties.

(** C3: a size discovered in one pass stays attached to the name when a
    later pass falls back.  [list] resolves [Child] through the probe at
    12: pointer 16, size 8.  [analyze_rel Root] moves [Root] to the
    pointer 16 and rewrites its row.  The next [list] empties the offset
    cache only; the probe for [Child], now at 24, is out of range, and
    [Child] falls back to 24, yet the size 8 of the first pass is still
    recorded for it.  [analyze_rel Child] then takes that size: it
    reports 8 bytes at 24, out of range, and writes the size [0x8] to
    the profile.  A fresh session on the same profile and image gives
    [Child] no size, and [analyze_rel Child] reports the size 0 read
    before offset 24. *)
Theorem C3_fallback_keeps_stale_size :
  InteractiveSleuth.list_command PyStr.int0 repl_stale
    = Some (Some [("Root", Some 4); ("Child", Some 16)], repl_stale_listed) /\
  resolved_sizes repl_stale_listed !! "Child" = Some 8 /\
  fst <$> InteractiveSleuth.analyze_rel PyStr.int0 repl_stale_listed "Root"
    = Some (InteractiveSleuth.Analyzed 16 4 (Some schema_stale_corrected) false) /\
  InteractiveSleuth._read_metadata (binary_data repl_stale_analyzed) (16 + 8)
    = inl (ValueError MetadataPointerOutOfRange) /\
  InteractiveSleuth.list_command PyStr.int0 repl_stale_analyzed
    = Some (Some [("Root", Some 16); ("Child", Some 24)], repl_stale_relisted) /\
  resolved_offsets repl_stale_relisted !! "Child" = Some (16 + 8) /\
  resolved_sizes repl_stale_relisted !! "Child" = Some 8 /\
  fst <$> InteractiveSleuth.analyze_rel PyStr.int0 repl_stale_relisted "Child"
    = Some (InteractiveSleuth.Analyzed 24 8
              (Some [Row "Root" "0x10" "0x4" blank blank;
                     Row "Child" "0x18" "0x8" "0x8" "Root"]) true) /\
  structures repl_stale_fresh = structures repl_stale_relisted /\
  binary_data repl_stale_fresh = binary_data repl_stale_relisted /\
  InteractiveSleuth._resolve_offset_recursive PyStr.int0 repl_stale_fresh "Child"
    = Some (inr 24, set_offset "Child" 24 (set_offset "Root" 16 repl_stale_fresh)) /\
  resolved_sizes (set_offset "Child" 24 (set_offset "Root" 16 repl_stale_fresh))
    !! "Child" = None /\
  fst <$> InteractiveSleuth.analyze_rel PyStr.int0 repl_stale_fresh "Child"
    = Some (InteractiveSleuth.Analyzed 24 0
              (Some [Row "Root" "0x10" "0x4" blank blank;
                     Row "Child" "0x18" "0x0" "0x8" "Root"]) false).
Proof. repeat split; reflexivity. Qed.

(** C4, counterexample: [A] names [B] as parent and [B] names [A], neither
    has an explicit offset nor is cached, but [A] has no rOffset: both
    resolutions raise the [ValueError] of a descriptor without offset and
    without rOffset and parent, not [RecursionError]. *)
Lemma C4_counterexample :
  let self := SleuthParser.__init__ zeros8 schema_cycle_no_rOffset in
  Dict.get "A" (structures self) = Some (Row "A" blank blank blank "B") /\
  Dict.get "B" (structures self) = Some (Row "B" blank blank "0x4" "A") /\
  resolved_offsets self !! "A" = None /\
  resolved_offsets self !! "B" = None /\
  SleuthParser._get_absolute_offset PyStr.int0 self "A"
    = Some (inl (ValueError (MissingOffsetAndRelative "A")), self) /\
  SleuthParser._get_absolute_offset PyStr.int0 self "B"
    = Some (inl (ValueError (MissingOffsetAndRelative "A")), self) /\
  InteractiveSleuth._resolve_offset_recursive PyStr.int0 self "A"
    = Some (inl (ValueError (MissingOffsetAndRelative "A")), self) /\
  InteractiveSleuth._resolve_offset_recursive PyStr.int0 self "B"
    = Some (inl (ValueError (MissingOffsetAndRelative "A")), self).
Proof. cbv zeta. repeat split; reflexivity. Qed.

Lemma C4_mutual_parents_raise_witness :
  let self := SleuthParser.__init__ zeros8 schema_cycle in
  SleuthParser._get_absolute_offset PyStr.int0 self "A"
    = Some (inl (RecursionError ({["A"]} ∪ {["B"]}) "A"), self) /\
  SleuthParser._get_absolute_offset PyStr.int0 self "B"
    = Some (inl (RecursionError ({["A"]} ∪ {["B"]}) "B"), self).
Proof.
  cbv zeta.
  apply (C4_mutual_parents_raise
           (SleuthParser.parse_offset PyStr.int0)
           (SleuthParser.parse_rOffset PyStr.int0)
           SleuthParser._read_metadata
           (SleuthParser.__init__ zeros8 schema_cycle) "A" "B"
           (Row "A" blank blank "0x4" "B") (Row "B" blank blank "0x4" "A") 4 4);
    reflexivity.
Defined.

Lemma C10_failed_resolve_writes_nothing_witness :
  let self := set_offset "Root" 0 batch_flat in
  let e := KeyError "Missing" in
  self = self /\
  resolved_offsets self !! "Missing" = None /\
  (forall k v, resolved_offsets self !! k = Some v ->
               resolved_offsets self !! k = Some v) /\
  (dom (resolved_sizes self) ⊆ dom (resolved_offsets self) ->
   resolved_sizes self !! "Missing" = None).
Proof.
  cbv zeta.
  apply (C10_failed_resolve_writes_nothing
           (SleuthParser.parse_offset PyStr.int0)
           (SleuthParser.parse_rOffset PyStr.int0)
           SleuthParser._read_metadata
           (set_offset "Root" 0 batch_flat) "Missing" (KeyError "Missing")).
  reflexivity.
Defined.

(** ** The cache: explicit offsets and write-once entries (C5, C6) *)

Section CacheFacts.

Variable parse_offset : string -> string -> result Z.
Variable parse_rOffset : string -> string -> result Z.
Variable read_metadata : option (list byte) -> Z -> result (Z * Z).

Local Abbreviation rec := (resolve_rec parse_offset parse_rOffset read_metadata).
Local Abbreviation run := (resolve parse_offset parse_rOffset read_metadata).


Lemma resolve_rec_agrees fuel self name visited r self' :
  rec fuel self name visited = Some (r, self') ->
  cache_agrees parse_offset self -> cache_agrees parse_offset self'.
Proof.
  revert self name visited r self'.
  induction fuel as [|fuel IH]; intros self name visited r self' H Hag;
    [discriminate|].
  step H; try done.
  - intros k sk L v Hk Ht Hp. cbn in *.
    destruct (decide (name = k)) as [->|Hne].
    + rewrite lookup_insert_eq. intros [= <-]. congruence.
    + rewrite lookup_insert_ne by done. eauto.
  - eauto.
  - match goal with
    | E : rec _ _ _ _ = Some _ |- _ =>
        pose proof (resolve_rec_env _ _ _ _ _ _ _ _ _ E) as [Hs _];
        pose proof (IH _ _ _ _ _ E Hag) as Hag1
    end.
    intros k sk L v Hk Ht Hp. cbn in *.
    destruct (decide (name = k)) as [->|Hne].
    + rewrite Hs in Hk. congruence.
    + rewrite lookup_insert_ne by done. eauto.
  - match goal with
    | E : rec _ _ _ _ = Some _ |- _ =>
        pose proof (resolve_rec_env _ _ _ _ _ _ _ _ _ E) as [Hs _];
        pose proof (IH _ _ _ _ _ E Hag) as Hag1
    end.
    intros k sk L v Hk Ht Hp. cbn in *.
    destruct (decide (name = k)) as [->|Hne].
    + rewrite Hs in Hk. congruence.
    + rewrite lookup_insert_ne by done. eauto.
Qed.

Lemma resolve_all_loop_agrees names self r self' :
  resolve_all_loop parse_offset parse_rOffset read_metadata names self = Some (r, self') ->
  cache_agrees parse_offset self -> cache_agrees parse_offset self'.
Proof.
  revert self. induction names as [|name names IH]; intros self H Hag;
    cbn [resolve_all_loop] in H.
  - by simplify_eq.
  - destruct (resolved_offsets self !! name); [eauto|].
    destruct (run self name) as [[[e|v] self1]|] eqn:E; [| |discriminate].
    + simplify_eq. eapply resolve_rec_agrees; eassumption.
    + eapply IH; [eassumption|]. eapply resolve_rec_agrees; eassumption.
Qed.

Lemma resolve_all_loop_keeps names self r self' k v :
  resolve_all_loop parse_offset parse_rOffset read_metadata names self = Some (r, self') ->
  resolved_offsets self !! k = Some v ->
  resolved_offsets self' !! k = Some v.
Proof.
  revert self. induction names as [|name names IH]; intros self H Hk;
    cbn [resolve_all_loop] in H.
  - by simplify_eq.
  - destruct (resolved_offsets self !! name); [eauto|].
    destruct (run self name) as [[[e|w] self1]|] eqn:E; [| |discriminate].
    + simplify_eq. eapply resolve_rec_keeps; eassumption.
    + eapply IH; [eassumption|]. eapply resolve_rec_keeps; eassumption.
Qed.

Lemma list_loop_keeps names self lines self' k v :
  list_loop parse_offset parse_rOffset read_metadata names self = Some (lines, self') ->
  resolved_offsets self !! k = Some v ->
  resolved_offsets self' !! k = Some v.
Proof.
  revert self lines. induction names as [|name names IH]; intros self lines H Hk;
    cbn [list_loop] in H.
  - by simplify_eq.
  - destruct (run self name) as [[r self1]|] eqn:E; [|discriminate].
    destruct (list_loop _ _ _ names self1) as [[ls self2]|] eqn:E2; [|discriminate].
    simplify_eq. eapply IH; [eassumption|].
    eapply resolve_rec_keeps; eassumption.
Qed.

(** An uncached name with a valid explicit offset resolves to it. *)
Lemma resolve_explicit self name structure L :
  Dict.get name (structures self) = Some structure ->
  Py.truthy (row_offset structure) = true ->
  parse_offset name (row_offset structure) = inr L ->
  resolved_offsets self !! name = None ->
  run self name = Some (inr L, set_offset name L self).
Proof.
  intros Hg Ht Hp Hc. unfold resolve. cbn [resolve_rec].
  rewrite Hc, Hg, Ht, Hp. rewrite decide_False by set_solver. reflexivity.
Qed.

End CacheFacts.

Lemma init_cache_agrees (int0 : string -> option Z) binary rows :
  cache_agrees (SleuthParser.parse_offset int0) (SleuthParser.__init__ binary rows).
Proof. intros name structure L v _ _ _ H. cbn in H. by rewrite lookup_empty in H. Qed.

Lemma batch_run_agrees (int0 : string -> option Z) calls self self' :
  batch_run int0 calls self = Some self' ->
  cache_agrees (SleuthParser.parse_offset int0) self ->
  cache_agrees (SleuthParser.parse_offset int0) self'.
Proof.
  revert self. induction calls as [|[name|] calls IH]; intros self H Hag;
    cbn [batch_run] in H.
  - by simplify_eq.
  - destruct (SleuthParser._get_absolute_offset int0 self name)
      as [[r self1]|] eqn:E; [|discriminate].
    eapply IH; [eassumption|]. eapply resolve_rec_agrees; eassumption.
  - destruct (SleuthParser.resolve_all_offsets int0 self)
      as [[r self1]|] eqn:E; [|discriminate].
    eapply IH; [eassumption|]. eapply resolve_all_loop_agrees; eassumption.
Qed.

(** C5: after a reload of the profile the resolver answers from the
    offset computed for the old one.  A profile with [X] at [0x10] is
    loaded and listed, then a profile with [X] at [0x20] is loaded: the
    row of [X] has the valid explicit offset [0x20], which reads 32, and
    [resolve] returns 16.  A fresh session on the second profile returns
    32.  Without a reload the cache follows the row: [analyze_rel X]
    moves [X] from 4 to 32 and writes [0x20] to its row, and [resolve]
    returns what the row says. *)
Theorem C5_reload_answers_old_offset :
  (Dict.get "X" (structures repl_x20_reloaded)
     = Some (Row "X" "0x20" blank blank blank) /\
   InteractiveSleuth.parse_num PyStr.int0 "0x20" = inr 32 /\
   InteractiveSleuth._resolve_offset_recursive PyStr.int0 repl_x20_reloaded "X"
     = Some (inr 16, repl_x20_reloaded)) /\
  (structures repl_x20 = structures repl_x20_reloaded /\
   binary_data repl_x20 = binary_data repl_x20_reloaded /\
   InteractiveSleuth._resolve_offset_recursive PyStr.int0 repl_x20 "X"
     = Some (inr 32, set_offset "X" 32 repl_x20)) /\
  (snd <$> InteractiveSleuth.analyze_rel PyStr.int0 repl_x4_resolved "X"
     = Some repl_x4_analyzed /\
   Dict.get "X" (structures repl_x4_analyzed)
     = Some (Row "X" "0x20" "0x10" blank blank) /\
   InteractiveSleuth._resolve_offset_recursive PyStr.int0 repl_x4_analyzed "X"
     = Some (inr 32, repl_x4_analyzed)).
Proof. repeat split; reflexivity. Qed.

Lemma reconcile_caches (int0 : string -> option Z) self bd name absolute size out self' :
  InteractiveSleuth.reconcile int0 self bd name absolute size = (out, self') ->
  resolved_offsets self' = resolved_offsets self /\
  resolved_sizes self' = resolved_sizes self /\
  binary_data self' = binary_data self.
Proof.
  unfold InteractiveSleuth.reconcile. intros H.
  repeat case_match; simplify_eq; done.
Qed.

Lemma analyze_rel_keeps (int0 : string -> option Z) self name out self' k v :
  InteractiveSleuth.analyze_rel int0 self name = Some (out, self') ->
  k <> name ->
  resolved_offsets self !! k = Some v ->
  resolved_offsets self' !! k = Some v.
Proof.
  unfold InteractiveSleuth.analyze_rel. intros H Hne Hk.
  destruct (binary_data self) as [bd|]; [|by simplify_eq].
  destruct (Dict.get name (structures self)); [|by simplify_eq].
  destruct (InteractiveSleuth._resolve_offset_recursive int0 self name)
    as [[[e|absolute] self1]|] eqn:E; [| |discriminate].
  { simplify_eq. eapply resolve_rec_keeps; eassumption. }
  pose proof (resolve_rec_keeps _ _ _ _ _ _ _ _ _ _ _ E Hk) as Hk1.
  repeat case_match; simplify_eq; try done.
  all: match goal with
       | H' : InteractiveSleuth.reconcile _ _ _ _ _ _ = _ |- _ =>
           apply reconcile_caches in H' as (-> & _ & _)
       end.
  all: cbn; rewrite ?lookup_insert_ne by done; done.
Qed.

(** C6, counterexample: [X] is declared at offset 4 of [image_child] and
    was resolved to 4.  [analyze_rel X] finds no discovered size, reads
    the size 16 before offset 4 and the pointer 32 at offset 4, and
    replaces the cached offset 4 by 32; the next [resolve] answers 32. *)
Lemma C6_counterexample :
  resolved_offsets repl_x4_resolved !! "X" = Some 4 /\
  InteractiveSleuth.analyze_rel PyStr.int0 repl_x4_resolved "X"
    = Some (InteractiveSleuth.Analyzed 32 16
              (Some [Row "X" "0x20" "0x10" blank blank]) false,
            repl_x4_analyzed) /\
  binary_data repl_x4_analyzed = binary_data repl_x4_resolved /\
  resolved_offsets repl_x4_analyzed !! "X" = Some 32 /\
  InteractiveSleuth._resolve_offset_recursive PyStr.int0 repl_x4_analyzed "X"
    = Some (inr 32, repl_x4_analyzed).
Proof. repeat split; reflexivity. Qed.

Lemma analyze_rel_entry (int0 : string -> option Z) self k v out self' :
  resolved_offsets self !! k = Some v ->
  InteractiveSleuth.analyze_rel int0 self k = Some (out, self') ->
  resolved_offsets self' !! k
  = Some (match binary_data self, Dict.get k (structures self),
                resolved_sizes self !! k with
          | Some bd, Some _, None =>
              if (4 <=? v) && (v + 4 <=? Py.len bd) then u32_le bd v else v
          | _, _, _ => v
          end).
Proof.
  intros Hk. unfold InteractiveSleuth.analyze_rel.
  destruct (binary_data self) as [bd|]; [|by intros [= _ <-]].
  destruct (Dict.get k (structures self)); [|by intros [= _ <-]].
  unfold InteractiveSleuth._resolve_offset_recursive, resolve.
  rewrite (resolve_rec_cached _ _ _ _ _ _ _ _ Hk).
  destruct (resolved_sizes self !! k) as [sz|].
  { intros [= Hrc]. apply reconcile_caches in Hrc as (-> & _ & _). exact Hk. }
  destruct (Z.ltb_spec (v - 4) 0); destruct (Z.gtb_spec (v - 4 + 4) (Py.len bd));
    cbn [orb].
  1-3: intros [= _ <-]; rewrite Hk; f_equal;
       destruct (Z.leb_spec 4 v); destruct (Z.leb_spec (v + 4) (Py.len bd));
       cbn [andb]; try reflexivity; lia.
  destruct (Z.leb_spec 4 v); [|lia].
  destruct (Z.leb_spec (v + 4) (Py.len bd)); cbn [andb].
  - intros [= Hrc]. apply reconcile_caches in Hrc as (-> & _ & _).
    cbn. rewrite lookup_insert_eq. f_equal. apply slice_u32; lia.
  - intros [= Hrc]. apply reconcile_caches in Hrc as (-> & _ & _). exact Hk.
Qed.

(** C6, as amended: once a name is cached, every [resolve] of it returns
    the cached value and leaves the session as it is, whatever the probe
    would answer (it is not asked); no call of the resolver, for any name,
    nor [resolve_all] nor the loop of [list], changes an entry of the
    offset cache; [analyze_rel name] leaves the entries of every other
    name as they are.  [analyze_rel name] replaces the entry of [name]
    itself, by the pointer read in the four bytes at the cached offset,
    exactly when an image is loaded, the name is in the profile, no
    discovered size is cached for it, and the four bytes before the cached
    offset and the four bytes at it lie in the image; otherwise it leaves
    the entry.  The [list] command starts its pass from an emptied offset
    cache: its lines and the session it leaves are those it gives on the
    session without any cached offset. *)
Theorem C6_cache_write_once
    (parse_offset parse_rOffset : string -> string -> result Z)
    (read_metadata : option (list byte) -> Z -> result (Z * Z))
    (int0 : string -> option Z) self k v :
  resolved_offsets self !! k = Some v ->
  resolve parse_offset parse_rOffset read_metadata self k = Some (inr v, self) /\
  (forall name r self',
     resolve parse_offset parse_rOffset read_metadata self name = Some (r, self') ->
     resolved_offsets self' !! k = Some v) /\
  (forall names r self',
     resolve_all_loop parse_offset parse_rOffset read_metadata names self
       = Some (r, self') ->
     resolved_offsets self' !! k = Some v) /\
  (forall names lines self',
     list_loop parse_offset parse_rOffset read_metadata names self
       = Some (lines, self') ->
     resolved_offsets self' !! k = Some v) /\
  (forall name out self',
     InteractiveSleuth.analyze_rel int0 self name = Some (out, self') ->
     k <> name ->
     resolved_offsets self' !! k = Some v) /\
  (forall out self',
     InteractiveSleuth.analyze_rel int0 self k = Some (out, self') ->
     resolved_offsets self' !! k
     = Some (match binary_data self, Dict.get k (structures self),
                   resolved_sizes self !! k with
             | Some bd, Some _, None =>
                 if (4 <=? v) && (v + 4 <=? Py.len bd) then u32_le bd v else v
             | _, _, _ => v
             end)) /\
  (forall lines self',
     InteractiveSleuth.list_command int0 self = Some (Some lines, self') ->
     resolved_offsets (clear_offsets self) = ∅ /\
     InteractiveSleuth.list_command int0 (clear_offsets self)
       = Some (Some lines, self')).
Proof.
  intros Hk. repeat split.
  - unfold resolve. by apply resolve_rec_cached.
  - intros name r self' H. eapply resolve_rec_keeps; eassumption.
  - intros names r self' H. eapply resolve_all_loop_keeps; eassumption.
  - intros names lines self' H. eapply list_loop_keeps; eassumption.
  - intros name out self' H Hne. eapply analyze_rel_keeps; eassumption.
  - intros out self' H. eapply analyze_rel_entry; eassumption.
  - revert H. unfold InteractiveSleuth.list_command. cbn [structures clear_offsets].
    destruct (structures self); [by intros [=]|]. done.
Qed.

Lemma C6_cache_write_once_witness :
  InteractiveSleuth._resolve_offset_recursive PyStr.int0 repl_x4_resolved "X"
    = Some (inr 4, repl_x4_resolved).
Proof.
  apply (C6_cache_write_once
           (fun _ => InteractiveSleuth.parse_num PyStr.int0)
           (fun _ => InteractiveSleuth.parse_num PyStr.int0)
           InteractiveSleuth._read_metadata PyStr.int0
           repl_x4_resolved "X" 4).
  reflexivity.
Defined.

(** ** Batch resolution and reloads (C7, C8) *)

Lemma list_loop_total
    (parse_offset parse_rOffset : string -> string -> result Z)
    (read_metadata : option (list byte) -> Z -> result (Z * Z)) names self :
  exists lines self',
    list_loop parse_offset parse_rOffset read_metadata names self
      = Some (lines, self') /\
    map fst lines = names.
Proof.
  revert self. induction names as [|nm names IH]; intros self.
  - by exists [], self.
  - cbn [list_loop].
    destruct (resolve_total parse_offset parse_rOffset read_metadata self nm)
      as [[r self1] Hr].
    rewrite Hr. destruct (IH self1) as (lines & self2 & Hl & Hn).
    rewrite Hl. eexists _, _. split; [reflexivity|]. cbn. by rewrite Hn.
Qed.

(** C7: [SleuthParser.resolve_all_offsets] has no handler around the call
    of the resolver.  On the schema [Bad, Good] the [ValueError] of [Bad]
    leaves the loop: [Good], which resolves to 16 on its own, is never
    resolved, and [list_structures] prints nothing.  The loop of the
    [list] command handles the exception per name: on the same schema it
    prints [N/A] for [Bad] and 16 for [Good], and in general it reaches
    every name. *)
Theorem C7_batch_resolve_all_aborts :
  SleuthParser.resolve_all_offsets PyStr.int0 batch_bad_good
    = Some (inl (ValueError (MissingOffsetAndRelative "Bad")), batch_bad_good) /\
  resolved_offsets batch_bad_good !! "Good" = None /\
  SleuthParser.list_structures PyStr.int0 batch_bad_good
    = Some (inl (ValueError (MissingOffsetAndRelative "Bad")), batch_bad_good) /\
  SleuthParser._get_absolute_offset PyStr.int0 batch_bad_good "Good"
    = Some (inr 16, set_offset "Good" 16 batch_bad_good) /\
  InteractiveSleuth.list_command PyStr.int0 repl_bad_good
    = Some (Some [("Bad", None); ("Good", Some 16)],
            set_offset "Good" 16 repl_bad_good) /\
  (forall int0 names self,
     exists lines self',
       list_loop (fun _ => InteractiveSleuth.parse_num int0)
         (fun _ => InteractiveSleuth.parse_num int0)
         InteractiveSleuth._read_metadata names self = Some (lines, self') /\
       map fst lines = names).
Proof.
  repeat split; try reflexivity.
  intros int0 names self. apply list_loop_total.
Qed.

(** C8: [load_csv] and [load_binary] replace the schema and the image and
    leave both caches as they are.  After a reload of the profile the
    resolver answers from offsets computed for the old one (here 16 for a
    row that now says [0x20]); after a reload of the image it answers
    with the pointer 32 and the size 16 read from the old image, although
    the new image has eight bytes, where a fresh session resolves [Child]
    to 4 without a size. *)
Theorem C8_reload_keeps_caches :
  (forall rows self,
     resolved_offsets (InteractiveSleuth.load_csv rows self) = resolved_offsets self /\
     resolved_sizes (InteractiveSleuth.load_csv rows self) = resolved_sizes self) /\
  (forall binary self,
     resolved_offsets (InteractiveSleuth.load_binary binary self) = resolved_offsets self /\
     resolved_sizes (InteractiveSleuth.load_binary binary self) = resolved_sizes self) /\
  (Dict.get "X" (structures repl_x20_reloaded)
     = Some (Row "X" "0x20" blank blank blank) /\
   InteractiveSleuth._resolve_offset_recursive PyStr.int0 repl_x20_reloaded "X"
     = Some (inr 16, repl_x20_reloaded)) /\
  (binary_data repl_child_new_image = Some zeros8 /\
   InteractiveSleuth._resolve_offset_recursive PyStr.int0 repl_child_new_image "Child"
     = Some (inr 32, repl_child_new_image) /\
   resolved_sizes repl_child_new_image !! "Child" = Some 16 /\
   exists fresh,
     InteractiveSleuth._resolve_offset_recursive PyStr.int0
       (InteractiveSleuth.load_binary zeros8
          (InteractiveSleuth.load_csv schema_child InteractiveSleuth.__init__))
       "Child" = Some (inr 4, fresh) /\
     resolved_sizes fresh !! "Child" = None).
Proof.
  repeat split; try reflexivity.
  eexists. split; reflexivity.
Qed.

(** ** Strings: [strip] and hexadecimal literals *)

Lemma rstrip_no_space s : no_space s = true -> PyStr.rstrip s = s.
Proof.
  induction s as [|c s IH]; [done|]. cbn.
  intros [Hc Hs]%andb_true_iff. rewrite (IH Hs).
  apply negb_true_iff in Hc. rewrite Hc. by destruct s.
Qed.

Lemma strip_no_space s : no_space s = true -> PyStr.strip s = s.
Proof.
  intros H. unfold PyStr.strip.
  destruct s as [|c s]; [done|].
  cbn [PyStr.lstrip]. pose proof H as H'. cbn in H'.
  apply andb_true_iff in H' as [Hc%negb_true_iff _]. rewrite Hc.
  by apply rstrip_no_space.
Qed.

Lemma rstrip_idem s : PyStr.rstrip (PyStr.rstrip s) = PyStr.rstrip s.
Proof.
  induction s as [|c s IH]; [done|]. cbn.
  destruct (PyStr.rstrip s) as [|c' r] eqn:E.
  - destruct (PyStr.is_space c) eqn:Hc; [done|]. cbn. by rewrite Hc.
  - cbn [PyStr.rstrip]. cbn [PyStr.rstrip] in IH.
    destruct (PyStr.rstrip r) as [|c'' r'] eqn:E'.
    + destruct (PyStr.is_space c'); [discriminate|]. by simplify_eq.
    + by simplify_eq.
Qed.

Lemma rstrip_head c s :
  PyStr.is_space c = false -> exists r, PyStr.rstrip (String c s) = String c r.
Proof.
  intros Hc. cbn. destruct (PyStr.rstrip s); [rewrite Hc|]; eauto.
Qed.

Lemma lstrip_cases s :
  PyStr.lstrip s = EmptyString \/
  exists c r, PyStr.lstrip s = String c r /\ PyStr.is_space c = false.
Proof.
  induction s as [|c s IH]; [by left|]. cbn.
  destruct (PyStr.is_space c) eqn:Hc; [exact IH|]. right. eauto.
Qed.

Lemma strip_idem s : PyStr.strip (PyStr.strip s) = PyStr.strip s.
Proof.
  unfold PyStr.strip.
  destruct (lstrip_cases s) as [->|(c & r & -> & Hc)]; [done|].
  destruct (rstrip_head c r Hc) as [r' Hr]. rewrite Hr.
  cbn [PyStr.lstrip]. rewrite Hc, <- Hr. apply rstrip_idem.
Qed.

Lemma clean_row_idem r :
  SleuthParser.clean_row (SleuthParser.clean_row r) = SleuthParser.clean_row r.
Proof.
  destruct r. unfold SleuthParser.clean_row.
  cbn [row_name row_offset row_size row_rOffset row_parent].
  by rewrite !strip_idem.
Qed.

Lemma hex_digit_no_space d : (d < 16)%N -> PyStr.is_space (PyStr.hex_digit d) = false.
Proof.
  intros Hd. destruct d as [|p]; [reflexivity|].
  do 4 (destruct p as [p|p|]; try reflexivity).
  all: lia.
Qed.

Lemma hex_digits_no_space fuel n acc :
  no_space acc = true -> no_space (PyStr.hex_digits fuel n acc) = true.
Proof.
  revert n acc. induction fuel as [|fuel IH]; intros n acc Hacc; [done|].
  cbn [PyStr.hex_digits].
  assert (Hd : no_space (String (PyStr.hex_digit (n mod 16)) acc) = true).
  { cbn. rewrite hex_digit_no_space, Hacc; [done|]. apply N.mod_upper_bound. lia. }
  destruct (n / 16 =? 0)%N; [exact Hd|by apply IH].
Qed.

Lemma hex_literal_no_space z : no_space (PyStr.hex_literal z) = true.
Proof.
  unfold PyStr.hex_literal, PyStr.format_X. cbv zeta.
  pose proof (hex_digits_no_space (S (N.size_nat (Z.abs_N z))) (Z.abs_N z)
                EmptyString eq_refl) as H.
  revert H. generalize (PyStr.hex_digits (S (N.size_nat (Z.abs_N z))) (Z.abs_N z)
                          EmptyString).
  intros digits H. destruct (z <? 0); cbn; exact H.
Qed.

Lemma strip_hex_literal z : PyStr.strip (PyStr.hex_literal z) = PyStr.hex_literal z.
Proof. apply strip_no_space, hex_literal_no_space. Qed.

(** ** The ordered dictionary *)

Lemma set_fresh name v d :
  name ∉ Dict.keys d -> Dict.set name v d = d ++ [(name, v)].
Proof.
  induction d as [|[k w] d IH]; [done|]. cbn. intros Hn.
  destruct (String.eqb_spec k name) as [->|Hne]; [set_solver|].
  rewrite IH; [done|set_solver].
Qed.

Lemma set_existing_keys name v d :
  name ∈ Dict.keys d -> Dict.keys (Dict.set name v d) = Dict.keys d.
Proof.
  induction d as [|[k w] d IH]; [set_solver|]. cbn. intros Hn.
  destruct (String.eqb_spec k name) as [->|Hne]; [done|].
  cbn. f_equal. apply IH. set_solver.
Qed.

Lemma set_Forall (P : string * row -> Prop) name v d :
  Forall P d -> P (name, v) -> Forall P (Dict.set name v d).
Proof.
  intros Hd Hv. induction d as [|[k w] d IH]; cbn.
  - by constructor.
  - inversion Hd; subst.
    destruct (String.eqb_spec k name) as [->|Hne]; constructor; auto.
Qed.

Lemma set_wf name v d :
  wf_structures d -> wf_entry (name, v) -> wf_structures (Dict.set name v d).
Proof.
  intros [Hnd Hall] Hv. split; [|by apply set_Forall].
  destruct (decide (name ∈ Dict.keys d)) as [Hin|Hnin].
  - by rewrite set_existing_keys.
  - rewrite set_fresh by done. unfold Dict.keys in *. rewrite map_app. cbn.
    apply NoDup_app. split; [done|]. split; [|apply NoDup_singleton].
    intros x Hx ->%list_elem_of_singleton. done.
Qed.

Lemma load_rows_fold rows :
  InteractiveSleuth.load_rows rows = fold_left load_step rows [].
Proof. reflexivity. Qed.

(** Every schema that [load_csv] builds is well formed. *)
Lemma load_rows_wf rows : wf_structures (InteractiveSleuth.load_rows rows).
Proof.
  rewrite load_rows_fold.
  assert (H : forall acc, wf_structures acc -> wf_structures (fold_left load_step rows acc)).
  { induction rows as [|r rows IH]; intros acc Hacc; [done|]. cbn [fold_left].
    apply IH. unfold load_step. cbv zeta.
    destruct (Py.truthy (row_name (SleuthParser.clean_row r))) eqn:Ht; [|done].
    apply set_wf; [done|]. repeat split; [done|apply clean_row_idem]. }
  apply H. split; [constructor|constructor].
Qed.

Lemma fold_load_fresh rows acc :
  Forall (fun r => SleuthParser.clean_row r = r /\ Py.truthy (row_name r) = true) rows ->
  NoDup (map row_name rows) ->
  (forall r, r ∈ rows -> row_name r ∉ Dict.keys acc) ->
  fold_left load_step rows acc = acc ++ map (fun r => (row_name r, r)) rows.
Proof.
  revert acc. induction rows as [|r rows IH]; intros acc Hall Hnd Hfresh.
  - cbn. by rewrite app_nil_r.
  - inversion Hall as [|? ? [Hclean Ht] Hall']; subst.
    cbn [map] in Hnd. apply NoDup_cons in Hnd as [Hr Hnd].
    cbn [fold_left map]. unfold load_step at 2. cbv zeta.
    rewrite Hclean, Ht. rewrite set_fresh by (apply Hfresh; set_solver).
    rewrite IH; [by rewrite <- app_assoc|done|done|].
    intros r' Hr'. unfold Dict.keys. rewrite map_app. cbn.
    intros [Hin|Heq%list_elem_of_singleton]%elem_of_app.
    + eapply Hfresh; [|exact Hin]. set_solver.
    + apply Hr. rewrite <- Heq. apply list_elem_of_fmap. eauto.
Qed.

Lemma get_map_values (g : string * row -> row) nm d :
  Dict.get nm (map (fun kv => (kv.1, g kv)) d)
  = (fun v => g (nm, v)) <$> Dict.get nm d.
Proof.
  induction d as [|[k w] d IH]; [done|]. cbn.
  destruct (String.eqb_spec k nm) as [->|Hne]; [done|exact IH].
Qed.

Lemma get_wf_entry nm d v :
  Forall wf_entry d -> Dict.get nm d = Some v -> wf_entry (nm, v).
Proof.
  induction d as [|[k w] d IH]; [done|]. cbn. intros Hall.
  inversion Hall; subst.
  destruct (String.eqb_spec k nm) as [->|Hne]; [by intros [= <-]|by apply IH].
Qed.

(** ** The reconciler (C9) *)

Lemma updated_rows_load d name size absolute :
  wf_structures d ->
  InteractiveSleuth.load_rows (InteractiveSleuth.updated_rows d name size absolute)
  = corrected_schema d name absolute size.
Proof.
  intros [Hnd Hall]. rewrite load_rows_fold.
  unfold InteractiveSleuth.updated_rows, corrected_schema.
  rewrite fold_load_fresh.
  - cbn [app]. rewrite map_map. apply map_ext_Forall.
    eapply Forall_impl; [exact Hall|].
    intros [k [n o s r p]] (_ & Hn & _). cbn in *. subst n.
    by destruct (String.eqb k name).
  - apply Forall_map. eapply Forall_impl; [exact Hall|].
    intros [k [n o s r p]] (Ht & Hn & Hc). cbn in *. subst n.
    unfold SleuthParser.clean_row in Hc.
    cbn [row_name row_offset row_size row_rOffset row_parent snd] in Hc.
    injection Hc as Hk Ho Hs Hr Hp.
    destruct (String.eqb k name); cbn; (split; [|exact Ht]);
      unfold SleuthParser.clean_row; cbn [row_name row_offset row_size row_rOffset row_parent];
      rewrite ?strip_hex_literal; congruence.
  - rewrite map_map.
    replace (map _ d) with (Dict.keys d); [exact Hnd|].
    unfold Dict.keys. apply map_ext. intros [k v]. cbn.
    by destruct (String.eqb k name).
  - intros r _. cbn. apply not_elem_of_nil.
Qed.

Lemma corrected_schema_get d name absolute size nm :
  Forall wf_entry d ->
  Dict.get nm (corrected_schema d name absolute size)
  = if String.eqb nm name
    then (fun v => corrected_row v nm absolute size) <$> Dict.get nm d
    else Dict.get nm d.
Proof.
  intros Hall. unfold corrected_schema.
  rewrite (get_map_values
             (fun kv => if String.eqb kv.1 name
                        then corrected_row kv.2 kv.1 absolute size else kv.2)).
  cbn. destruct (String.eqb nm name); [done|].
  by destruct (Dict.get nm d).
Qed.

Lemma corrected_schema_keys d name absolute size :
  Dict.keys (corrected_schema d name absolute size) = Dict.keys d.
Proof. unfold corrected_schema, Dict.keys. rewrite map_map. by apply map_ext. Qed.

(** The comparison of line 465 against the declared values taken one by
    one. *)
Lemma mismatch_iff (int0 : string -> option Z) details size absolute :
  InteractiveSleuth.mismatch
    (InteractiveSleuth.csv_values int0 details).1
    (InteractiveSleuth.csv_values int0 details).2 size absolute = true
  <-> declared_offset int0 details <> Some absolute \/
      declared_size int0 details <> Some size.
Proof.
  unfold InteractiveSleuth.csv_values, InteractiveSleuth.mismatch,
    declared_offset, declared_size.
  destruct (Py.truthy (row_size details));
    destruct (Py.truthy (row_offset details));
    repeat (destruct (InteractiveSleuth.parse_num int0 _));
    cbn [fst snd]; rewrite ?orb_true_iff, ?negb_true_iff, ?Z.eqb_neq;
    split; intros H; try (by auto); try (destruct H; congruence).
  all: try (destruct H as [H|H]; [right|left]; congruence).
  all: try (destruct H as [H|H]; [right|left]; intros E; apply H; congruence).
  all: try (left; congruence); try (right; congruence).
Qed.

Lemma reconcile_spec (int0 : string -> option Z) self bd name absolute size details
    out self' :
  wf_structures (structures self) ->
  Dict.get name (structures self) = Some details ->
  InteractiveSleuth.reconcile int0 self bd name absolute size = (out, self') ->
  exists updated,
    out = InteractiveSleuth.Analyzed absolute size updated
            ((absolute <? 0) || (absolute + size >? Py.len bd)) /\
    (updated <> None <->
       declared_offset int0 details <> Some absolute \/
       declared_size int0 details <> Some size) /\
    (updated = None -> self' = self) /\
    (updated <> None ->
       updated = Some (InteractiveSleuth.updated_rows (structures self) name size absolute) /\
       structures self' = corrected_schema (structures self) name absolute size).
Proof.
  intros Hwf Hg. unfold InteractiveSleuth.reconcile. rewrite Hg.
  pose proof (mismatch_iff int0 details size absolute) as Hm.
  destruct (InteractiveSleuth.csv_values int0 details) as [csv_size csv_offset].
  cbn [fst snd] in Hm.
  destruct (InteractiveSleuth.mismatch csv_size csv_offset size absolute).
  - intros [= <- <-]. eexists. split; [reflexivity|].
    split; [split; [intros _; by apply Hm|done]|].
    split; [done|]. intros _. split; [done|].
    cbn. by apply updated_rows_load.
  - intros [= <- <-]. exists None. split; [reflexivity|].
    split; [split; [done|intros H; apply Hm in H; discriminate]|].
    split; done.
Qed.

(** [analyze_rel] reaches the comparison with the schema it started with. *)
Lemma analyze_rel_reconciles (int0 : string -> option Z) self name absolute size
    updated out_of_range self' :
  InteractiveSleuth.analyze_rel int0 self name
    = Some (InteractiveSleuth.Analyzed absolute size updated out_of_range, self') ->
  exists details bd self2,
    Dict.get name (structures self) = Some details /\
    binary_data self = Some bd /\
    structures self2 = structures self /\
    InteractiveSleuth.reconcile int0 self2 bd name absolute size
      = (InteractiveSleuth.Analyzed absolute size updated out_of_range, self').
Proof.
  unfold InteractiveSleuth.analyze_rel. intros H.
  destruct (binary_data self) as [bd|]; [|by simplify_eq].
  destruct (Dict.get name (structures self)) as [details|]; [|by simplify_eq].
  destruct (InteractiveSleuth._resolve_offset_recursive int0 self name)
    as [[[e|resolved] self1]|] eqn:E; [by simplify_eq| |discriminate].
  apply resolve_rec_env in E as [Hs _].
  assert (Hout : forall s a sz o,
    InteractiveSleuth.reconcile int0 s bd name a sz
      = (InteractiveSleuth.Analyzed absolute size updated out_of_range, o) ->
    a = absolute /\ sz = size).
  { intros s a sz o Hr. unfold InteractiveSleuth.reconcile in Hr.
    repeat case_match; by simplify_eq. }
  exists details, bd.
  repeat case_match; simplify_eq;
    match goal with
    | Hr : InteractiveSleuth.reconcile _ ?s _ _ _ _ = _ |- _ =>
        destruct (Hout _ _ _ _ Hr) as [<- <-]; exists s; repeat split; done
    end.
Qed.

Lemma reconcile_outcome (int0 : string -> option Z) self bd name details s2
    absolute size :
  wf_structures (structures self) ->
  Dict.get name (structures self) = Some details ->
  structures s2 = structures self ->
  resolved_offsets s2 !! name = Some absolute ->
  exists updated out_of_range self',
    InteractiveSleuth.reconcile int0 s2 bd name absolute size
      = (InteractiveSleuth.Analyzed absolute size updated out_of_range, self') /\
    (updated <> None <->
       declared_offset int0 details <> Some absolute \/
       declared_size int0 details <> Some size) /\
    (updated = None -> structures self' = structures self) /\
    (updated <> None ->
       updated
         = Some (InteractiveSleuth.updated_rows (structures self) name size absolute) /\
       Dict.get name (structures self')
         = Some (corrected_row details name absolute size) /\
       (forall nm, nm <> name ->
          Dict.get nm (structures self') = Dict.get nm (structures self)) /\
       Dict.keys (structures self') = Dict.keys (structures self)) /\
    (out_of_range = true <-> absolute < 0 \/ absolute + size > Py.len bd) /\
    resolved_offsets self' !! name = Some absolute.
Proof.
  intros Hwf Hg Hs Hc.
  destruct (InteractiveSleuth.reconcile int0 s2 bd name absolute size)
    as [out self'] eqn:Hr.
  rewrite <- Hs in Hwf, Hg.
  destruct (reconcile_spec _ _ _ _ _ _ _ _ _ Hwf Hg Hr)
    as (updated & -> & Hiff & Hnone & Hsome).
  apply reconcile_caches in Hr as (Ho & _ & _).
  exists updated, ((absolute <? 0) || (absolute + size >? Py.len bd)), self'.
  split; [reflexivity|]. split; [exact Hiff|].
  rewrite Hs in *. split; [|split; [|split]].
  - intros Hn. rewrite (Hnone Hn). exact Hs.
  - intros Hn. destruct (Hsome Hn) as [Hu Hst]. rewrite Hst.
    destruct Hwf as [_ Hall].
    split; [exact Hu|]. split; [|split].
    + rewrite corrected_schema_get by done.
      rewrite String.eqb_refl, Hg. reflexivity.
    + intros nm Hne. rewrite corrected_schema_get by done.
      destruct (String.eqb_spec nm name); [done|reflexivity].
    + apply corrected_schema_keys.
  - rewrite orb_true_iff, Z.ltb_lt, Z.gtb_ltb, Z.ltb_lt. lia.
  - by rewrite Ho.
Qed.

(** C9, counterexample.  [X] is declared at [0x4] with the size [0x10] on
    [image_child].  The resolver returns 4 and discovers no size, and the
    size read before offset 4 is 16: resolved offset and effective size
    are the declared ones.  [analyze_rel] still writes a correction, with
    the offset [0x20]: it compares with the pointer 32 read at offset 4.
    And [X] declared at [0x0] without a size resolves to 0, the declared
    size is absent, and no correction is written: the four bytes before
    offset 0 do not exist and [analyze_rel] stops. *)
Lemma C9_counterexample :
  (Dict.get "X" (structures repl_x4_sized) = Some (Row "X" "0x4" "0x10" blank blank) /\
   declared_offset PyStr.int0 (Row "X" "0x4" "0x10" blank blank) = Some 4 /\
   declared_size PyStr.int0 (Row "X" "0x4" "0x10" blank blank) = Some 16 /\
   InteractiveSleuth._resolve_offset_recursive PyStr.int0 repl_x4_sized "X"
     = Some (inr 4, set_offset "X" 4 repl_x4_sized) /\
   resolved_sizes (set_offset "X" 4 repl_x4_sized) !! "X" = None /\
   u32_le image_child (4 - 4) = 16 /\
   fst <$> InteractiveSleuth.analyze_rel PyStr.int0 repl_x4_sized "X"
     = Some (InteractiveSleuth.Analyzed 32 16
               (Some [Row "X" "0x20" "0x10" blank blank]) false)) /\
  (Dict.get "X" (structures repl_x0) = Some (Row "X" "0x0" blank blank blank) /\
   declared_size PyStr.int0 (Row "X" "0x0" blank blank blank) = None /\
   InteractiveSleuth._resolve_offset_recursive PyStr.int0 repl_x0 "X"
     = Some (inr 0, set_offset "X" 0 repl_x0) /\
   InteractiveSleuth.analyze_rel PyStr.int0 repl_x0 "X"
     = Some (InteractiveSleuth.CannotReadSize (-4), set_offset "X" 0 repl_x0) /\
   structures (set_offset "X" 0 repl_x0) = structures repl_x0).
Proof. repeat split; reflexivity. Qed.

(** C9, as amended.  Let the resolver return [resolved] for a name of the
    profile.  When no discovered size is cached for the name and the four
    bytes before [resolved] do not lie in the image, [analyze_rel] stops:
    it compares nothing and corrects nothing.  Otherwise it compares the
    declared values with the discovered pair: with a discovered size
    cached, [resolved] and that size; without one, the size read in the
    four bytes before [resolved] and the pointer read at [resolved] (or
    [resolved] itself when these four bytes pass the end of the image).
    It writes a corrected profile exactly when the declared offset or the
    declared size is absent, is not a number, or differs from the
    discovered pair.  The corrected schema gives the name the two
    discovered values as hexadecimal literals and its former rOffset and
    parent, and gives every other name its former row, in the former
    order; without a correction the schema is unchanged.  The range flag
    is raised exactly when the discovered offset is negative or offset
    plus size exceeds the image: the values recorded are then the same
    unclamped ones.  The discovered offset is the one cached afterwards. *)
Theorem C9_reconciler (int0 : string -> option Z) self name bd details
    resolved self1 :
  wf_structures (structures self) ->
  binary_data self = Some bd ->
  Dict.get name (structures self) = Some details ->
  InteractiveSleuth._resolve_offset_recursive int0 self name
    = Some (inr resolved, self1) ->
  let absolute := discovered_offset self1 bd name resolved in
  let size := discovered_size self1 bd name resolved in
  (resolved_sizes self1 !! name = None -> ~ 4 <= resolved <= Py.len bd ->
   InteractiveSleuth.analyze_rel int0 self name
     = Some (InteractiveSleuth.CannotReadSize (resolved - 4), self1)) /\
  (is_Some (resolved_sizes self1 !! name) \/ 4 <= resolved <= Py.len bd ->
   exists updated out_of_range self',
     InteractiveSleuth.analyze_rel int0 self name
       = Some (InteractiveSleuth.Analyzed absolute size updated out_of_range, self') /\
     (updated <> None <->
        declared_offset int0 details <> Some absolute \/
        declared_size int0 details <> Some size) /\
     (updated = None -> structures self' = structures self) /\
     (updated <> None ->
        updated
          = Some (InteractiveSleuth.updated_rows (structures self) name size absolute) /\
        Dict.get name (structures self')
          = Some (corrected_row details name absolute size) /\
        (forall nm, nm <> name ->
           Dict.get nm (structures self') = Dict.get nm (structures self)) /\
        Dict.keys (structures self') = Dict.keys (structures self)) /\
     (out_of_range = true <-> absolute < 0 \/ absolute + size > Py.len bd) /\
     resolved_offsets self' !! name = Some absolute).
Proof.
  intros Hwf Hbd Hg Hr absolute size.
  pose proof Hr as Hr'.
  unfold InteractiveSleuth._resolve_offset_recursive, resolve in Hr'.
  pose proof (resolve_rec_env _ _ _ _ _ _ _ _ _ Hr') as [Hs _].
  pose proof (resolve_rec_result _ _ _ _ _ _ _ _ _ Hr') as Hc.
  assert (Hrec : forall s2 a sz,
    structures s2 = structures self ->
    resolved_offsets s2 !! name = Some a ->
    a = absolute -> sz = size ->
    exists updated out_of_range self',
      Some (InteractiveSleuth.reconcile int0 s2 bd name a sz)
        = Some (InteractiveSleuth.Analyzed absolute size updated out_of_range, self') /\
      (updated <> None <->
         declared_offset int0 details <> Some absolute \/
         declared_size int0 details <> Some size) /\
      (updated = None -> structures self' = structures self) /\
      (updated <> None ->
         updated
           = Some (InteractiveSleuth.updated_rows (structures self) name size absolute) /\
         Dict.get name (structures self')
           = Some (corrected_row details name absolute size) /\
         (forall nm, nm <> name ->
            Dict.get nm (structures self') = Dict.get nm (structures self)) /\
         Dict.keys (structures self') = Dict.keys (structures self)) /\
      (out_of_range = true <-> absolute < 0 \/ absolute + size > Py.len bd) /\
      resolved_offsets self' !! name = Some absolute).
  { intros s2 a sz Hs2 Hc2 -> ->.
    destruct (reconcile_outcome int0 self bd name details s2 absolute size
                Hwf Hg Hs2 Hc2) as (u & o & s' & Hrc & Hrest).
    exists u, o, s'. by rewrite Hrc. }
  unfold InteractiveSleuth.analyze_rel. rewrite Hbd, Hg, Hr.
  subst absolute size. unfold discovered_offset, discovered_size in *.
  destruct (resolved_sizes self1 !! name) as [sz|] eqn:Hsz.
  - split; [done|]. intros _. by apply Hrec.
  - destruct (Z.ltb_spec (resolved - 4) 0);
      destruct (Z.gtb_spec (resolved - 4 + 4) (Py.len bd)); cbn [orb].
    1-3: split; [done|intros [[? [=]]|?]; lia].
    split; [intros _ ?; lia|intros _].
    destruct (Z.leb_spec (resolved + 4) (Py.len bd)).
    + apply Hrec.
      * cbn. exact Hs.
      * cbn. by rewrite lookup_insert_eq.
      * by apply slice_u32; lia.
      * by rewrite slice_u32 by lia.
    + apply Hrec; [exact Hs|exact Hc|done|by rewrite slice_u32 by lia].
Qed.

Lemma C9_reconciler_witness :
  exists updated out_of_range self',
    InteractiveSleuth.analyze_rel PyStr.int0 repl_x4 "X"
      = Some (InteractiveSleuth.Analyzed
                (discovered_offset repl_x4_resolved image_child "X" 4)
                (discovered_size repl_x4_resolved image_child "X" 4)
                updated out_of_range, self') /\
    (updated <> None <->
       declared_offset PyStr.int0 (Row "X" "0x4" blank blank blank)
         <> Some (discovered_offset repl_x4_resolved image_child "X" 4) \/
       declared_size PyStr.int0 (Row "X" "0x4" blank blank blank)
         <> Some (discovered_size repl_x4_resolved image_child "X" 4)) /\
    (updated = None -> structures self' = structures repl_x4) /\
    (updated <> None ->
       updated
         = Some (InteractiveSleuth.updated_rows (structures repl_x4) "X"
                   (discovered_size repl_x4_resolved image_child "X" 4)
                   (discovered_offset repl_x4_resolved image_child "X" 4)) /\
       Dict.get "X" (structures self')
         = Some (corrected_row (Row "X" "0x4" blank blank blank) "X"
                   (discovered_offset repl_x4_resolved image_child "X" 4)
                   (discovered_size repl_x4_resolved image_child "X" 4)) /\
       (forall nm, nm <> "X" ->
          Dict.get nm (structures self') = Dict.get nm (structures repl_x4)) /\
       Dict.keys (structures self') = Dict.keys (structures repl_x4)) /\
    (out_of_range = true <->
       discovered_offset repl_x4_resolved image_child "X" 4 < 0 \/
       discovered_offset repl_x4_resolved image_child "X" 4
         + discovered_size repl_x4_resolved image_child "X" 4 > Py.len image_child) /\
    resolved_offsets self' !! "X"
      = Some (discovered_offset repl_x4_resolved image_child "X" 4).
Proof.
  apply (proj2 (C9_reconciler PyStr.int0 repl_x4 "X" image_child
                  (Row "X" "0x4" blank blank blank) 4 repl_x4_resolved
                  ltac:(split; [repeat constructor; set_solver|repeat constructor])
                  eq_refl eq_refl eq_refl)).
  right. vm_compute. split; discriminate.
Defined.

(** On this input the discovered pair is the pointer 32 read at offset 4
    and the size 16 read before it. *)
Example discovered_pair_example :
  discovered_offset repl_x4_resolved image_child "X" 4 = 32 /\
  discovered_size repl_x4_resolved image_child "X" 4 = 16.
Proof. split; reflexivity. Qed.

(** The same command on [image_8_4]: the size 255 read before offset 4
    and the pointer 8 read at it are recorded as they are, and the range
    is flagged, 8 + 255 being beyond the 16 bytes of the image. *)
Example reconciler_out_of_range :
  fst <$> InteractiveSleuth.analyze_rel PyStr.int0 repl_x4_small "X"
  = Some (InteractiveSleuth.Analyzed 8 255
            (Some [Row "X" "0x8" "0xFF" blank blank]) true).
Proof. reflexivity. Qed.

(** ** The example of the specification *)

Example resolve_child_example :
  SleuthParser._get_absolute_offset PyStr.int0 batch_example "Child"
    = Some (inr 32,
            set_size "Child" 16 (set_offset "Child" 32 (set_offset "Root" 0 batch_example))) /\
  InteractiveSleuth._resolve_offset_recursive PyStr.int0 repl_example "Child"
    = Some (inr 32,
            set_size "Child" 16 (set_offset "Child" 32 (set_offset "Root" 0 repl_example))).
Proof. split; reflexivity. Qed.

(** [analyze_rel] always answers, and it reaches the comparison exactly
    when the resolver returns and an effective size exists: a discovered
    size, or four readable bytes before the resolved offset. *)
Lemma analyze_rel_total (int0 : string -> option Z) self name :
  exists out self', InteractiveSleuth.analyze_rel int0 self name = Some (out, self').
Proof.
  unfold InteractiveSleuth.analyze_rel.
  destruct (binary_data self) as [bd|]; [|eauto].
  destruct (Dict.get name (structures self)); [|eauto].
  destruct (resolve_total (fun _ => InteractiveSleuth.parse_num int0)
              (fun _ => InteractiveSleuth.parse_num int0)
              InteractiveSleuth._read_metadata self name) as [[[e|a] self1] Hr];
    unfold InteractiveSleuth._resolve_offset_recursive; rewrite Hr; [eauto|].
  repeat case_match; eauto;
    match goal with
    | |- context [InteractiveSleuth.reconcile ?i ?s ?b ?n ?x ?y] =>
        destruct (InteractiveSleuth.reconcile i s b n x y); eauto
    end.
Qed.

Lemma analyze_rel_reaches (int0 : string -> option Z) self name bd details
    resolved self1 :
  binary_data self = Some bd ->
  Dict.get name (structures self) = Some details ->
  InteractiveSleuth._resolve_offset_recursive int0 self name = Some (inr resolved, self1) ->
  (exists absolute size updated out_of_range self',
     InteractiveSleuth.analyze_rel int0 self name
       = Some (InteractiveSleuth.Analyzed absolute size updated out_of_range, self'))
  <-> (is_Some (resolved_sizes self1 !! name) \/ 4 <= resolved <= Py.len bd).
Proof.
  intros Hbd Hg Hr. unfold InteractiveSleuth.analyze_rel. rewrite Hbd, Hg, Hr.
  destruct (resolved_sizes self1 !! name) as [sz|] eqn:Hsz.
  - split; [intros _; left; eauto|intros _].
    unfold InteractiveSleuth.reconcile. repeat case_match; eauto 10.
  - destruct (Z.ltb_spec (resolved - 4) 0);
      destruct (Z.gtb_spec (resolved - 4 + 4) (Py.len bd)); cbn [orb].
    1-3: split; [intros (? & ? & ? & ? & ? & [=])|
                 intros [[? [=]]|?]; lia].
    split; [intros _; right; lia|intros _].
    unfold InteractiveSleuth.reconcile. repeat case_match; eauto 10.
Qed.

(** * Further properties of the script *)

(** ** The probes *)

Lemma in_image_true (n p s : Z) :
  in_image n p s = true -> 0 <= p < n /\ 0 <= p + s <= n.
Proof.
  unfold in_image. rewrite !andb_true_iff, !Z.leb_le, Z.ltb_lt. lia.
Qed.

Lemma batch_probe_exit_cases (bd : list byte) (meta_ptr p s : Z) :
  SleuthParser_probe._read_metadata bd meta_ptr = inr (p, s) ->
  SleuthParser_probe._read_metadata_exit bd meta_ptr = Return_4_4 p s.
Proof.
  unfold SleuthParser_probe._read_metadata.
  destruct (SleuthParser_probe._read_metadata_exit bd meta_ptr) eqn:E;
    cbn; intros [=]; subst; [reflexivity|].
  exfalso. revert E. unfold SleuthParser_probe._read_metadata_exit. cbv zeta.
  repeat match goal with |- context [if ?b then _ else _] => destruct b end;
    discriminate.
Qed.

Lemma batch_exit_range (bd : list byte) (meta_ptr p s : Z) :
  SleuthParser_probe._read_metadata_exit bd meta_ptr = Return_4_4 p s ->
  0 <= meta_ptr /\ meta_ptr + 8 <= Py.len bd /\
  0 <= p < Py.len bd /\ 0 <= s /\ p + s <= Py.len bd.
Proof.
  unfold SleuthParser_probe._read_metadata_exit. cbv zeta.
  destruct (Z.ltb_spec meta_ptr 0); [discriminate|].
  destruct (Z.geb_spec meta_ptr (Py.len bd)); [discriminate|]. cbn [orb].
  destruct (Z.leb_spec (meta_ptr + 8) (Py.len bd)); [|discriminate].
  destruct (in_image _ _ _) eqn:E; [|discriminate].
  intros [= <- <-]. apply in_image_true in E.
  pose proof (from_bytes_little_nonneg (Py.slice bd (meta_ptr - 4) meta_ptr)).
  lia.
Qed.

Lemma interactive_exit_range (bd : list byte) (meta_ptr p s : Z) :
  InteractiveSleuth_probe._read_metadata (Some bd) meta_ptr = inr (p, s) ->
  0 <= meta_ptr /\ meta_ptr + 8 <= Py.len bd /\
  0 <= p < Py.len bd /\ 0 <= s /\ p + s <= Py.len bd.
Proof.
  unfold InteractiveSleuth_probe._read_metadata,
    InteractiveSleuth_probe._read_metadata_exit. cbv zeta.
  destruct (Z.ltb_spec meta_ptr 0); [discriminate|].
  destruct (Z.gtb_spec (meta_ptr + 8) (Py.len bd)); [discriminate|]. cbn [orb].
  destruct (in_image _ _ _) eqn:E.
  - cbn. intros [= <- <-]. apply in_image_true in E.
    pose proof (from_bytes_little_nonneg (Py.slice bd (meta_ptr - 4) meta_ptr)).
    lia.
  - destruct (meta_ptr + 12 <=? Py.len bd); [|discriminate].
    destruct (in_image _ (Py.from_bytes_little (Py.slice bd meta_ptr (meta_ptr + 8))) _)
      eqn:E2; [|discriminate].
    cbn. intros [= <- <-]. apply in_image_true in E2.
    pose proof (from_bytes_little_nonneg
                  (Py.slice bd (meta_ptr + 8) (meta_ptr + 12))).
    lia.
Qed.

(** X1: whatever the position, a pair returned by either probe lies in
    the image: the position has eight bytes from it on, the pointer is a
    position of the image, the size is not negative and the region ends
    inside the image.  An image of fewer than eight bytes gives no
    metadata at all. *)
Theorem X1_probe_hit_in_image (bd : list byte) (meta_ptr p s : Z) :
  SleuthParser_probe._read_metadata bd meta_ptr = inr (p, s) \/
  InteractiveSleuth_probe._read_metadata (Some bd) meta_ptr = inr (p, s) ->
  0 <= meta_ptr /\ meta_ptr + 8 <= Py.len bd /\
  0 <= p < Py.len bd /\ 0 <= s /\ p + s <= Py.len bd.
Proof.
  intros [H|H].
  - apply batch_probe_exit_cases in H. by apply batch_exit_range in H.
  - by apply interactive_exit_range in H.
Qed.

Lemma X1_probe_hit_in_image_witness :
  0 <= 4 /\ 4 + 8 <= Py.len image_child /\
  0 <= 32 < Py.len image_child /\ 0 <= 16 /\ 32 + 16 <= Py.len image_child.
Proof.
  apply (X1_probe_hit_in_image image_child 4 32 16). left. reflexivity.
Defined.

(** X2: the two probes agree on the 4+4 layout: one takes that exit
    exactly when the other does, with the same pair; so whatever the batch
    probe returns, the interactive probe returns too, and the two differ
    only where the interactive probe takes the 8+4 exit. *)
Theorem X2_probes_agree_on_4_4 (bd : list byte) (meta_ptr : Z) :
  (forall p s,
     SleuthParser_probe._read_metadata_exit bd meta_ptr = Return_4_4 p s <->
     InteractiveSleuth_probe._read_metadata_exit (Some bd) meta_ptr = Return_4_4 p s) /\
  (forall r,
     SleuthParser_probe._read_metadata bd meta_ptr = inr r ->
     InteractiveSleuth_probe._read_metadata (Some bd) meta_ptr = inr r) /\
  (forall r,
     InteractiveSleuth_probe._read_metadata (Some bd) meta_ptr = inr r ->
     SleuthParser_probe._read_metadata bd meta_ptr = inr r \/
     InteractiveSleuth_probe._read_metadata_exit (Some bd) meta_ptr
       = Return_8_4 r.1 r.2).
Proof.
  assert (Hiff : forall p s,
     SleuthParser_probe._read_metadata_exit bd meta_ptr = Return_4_4 p s <->
     InteractiveSleuth_probe._read_metadata_exit (Some bd) meta_ptr = Return_4_4 p s).
  { intros p s.
    unfold SleuthParser_probe._read_metadata_exit,
      InteractiveSleuth_probe._read_metadata_exit. cbv zeta.
    destruct (Z.ltb_spec meta_ptr 0); [done|].
    destruct (Z.geb_spec meta_ptr (Py.len bd));
      destruct (Z.gtb_spec (meta_ptr + 8) (Py.len bd));
      destruct (Z.leb_spec (meta_ptr + 8) (Py.len bd)); cbn [orb];
      try lia; try done.
    destruct (in_image _ _ _); [done|].
    split; [discriminate|].
    destruct (meta_ptr + 12 <=? Py.len bd); [|discriminate].
    match goal with |- context [if ?b then _ else _] => destruct b end;
      discriminate. }
  split; [exact Hiff|]. split.
  - intros [p s] H. apply batch_probe_exit_cases in H. apply Hiff in H.
    unfold InteractiveSleuth_probe._read_metadata. by rewrite H.
  - intros [p s].
    unfold InteractiveSleuth_probe._read_metadata, SleuthParser_probe._read_metadata.
    case_eq (InteractiveSleuth_probe._read_metadata_exit (Some bd) meta_ptr);
      cbn; intros; simplify_eq.
    + left. match goal with E : _ = Return_4_4 _ _ |- _ =>
        apply Hiff in E; by rewrite E end.
    + by right.
Qed.

Lemma X2_probes_agree_on_4_4_witness :
  InteractiveSleuth_probe._read_metadata (Some image_child) 4 = inr (32, 16).
Proof.
  apply (proj1 (proj2 (X2_probes_agree_on_4_4 image_child 4)) (32, 16)).
  reflexivity.
Defined.

(** X3: for a position with four bytes before it, the interactive probe
    takes the 8+4 exit exactly when the 4+4 pair is not in the image,
    twelve bytes from the position on lie in the image, and the 64-bit
    pointer at the position and the 32-bit size eight bytes further are in
    the image; it then returns that pair. *)
Theorem X3_probe_8_4 (bd : list byte) (meta_ptr p s : Z) :
  4 <= meta_ptr ->
  InteractiveSleuth_probe._read_metadata_exit (Some bd) meta_ptr = Return_8_4 p s <->
  meta_ptr + 12 <= Py.len bd /\
  ~ (u32_le bd meta_ptr < Py.len bd /\
     u32_le bd meta_ptr + u32_le bd (meta_ptr - 4) <= Py.len bd) /\
  p = u64_le bd meta_ptr /\ s = u32_le bd (meta_ptr + 8) /\
  p < Py.len bd /\ p + s <= Py.len bd.
Proof.
  intros Hm. unfold InteractiveSleuth_probe._read_metadata_exit. cbv zeta.
  pose proof (u32_le_range bd meta_ptr) as Hp.
  pose proof (u32_le_range bd (meta_ptr - 4)) as Hs.
  pose proof (u32_le_range bd (meta_ptr + 8)) as Hs8.
  assert (H64 : 0 <= u64_le bd meta_ptr) by apply from_bytes_little_nonneg.
  destruct (Z.ltb_spec meta_ptr 0); [lia|].
  destruct (Z.gtb_spec (meta_ptr + 8) (Py.len bd)); cbn [orb].
  { split; [discriminate|lia]. }
  rewrite slice_u32, slice_u32_before by lia.
  destruct (in_image _ _ _) eqn:E.
  { apply in_image_spec in E; [|lia|lia]. split; [discriminate|tauto]. }
  assert (Hno : ~ (u32_le bd meta_ptr < Py.len bd /\
                   u32_le bd meta_ptr + u32_le bd (meta_ptr - 4) <= Py.len bd)).
  { intros Hc. apply in_image_spec in Hc; [congruence|lia|lia]. }
  destruct (Z.leb_spec (meta_ptr + 12) (Py.len bd)).
  2:{ split; [discriminate|lia]. }
  replace (Py.from_bytes_little (Py.slice bd meta_ptr (meta_ptr + 8)))
    with (u64_le bd meta_ptr).
  2:{ rewrite slice_in_range by lia. unfold u64_le. do 2 f_equal. lia. }
  replace (Py.from_bytes_little (Py.slice bd (meta_ptr + 8) (meta_ptr + 12)))
    with (u32_le bd (meta_ptr + 8)).
  2:{ rewrite <- (slice_u32 bd (meta_ptr + 8)) by lia. do 2 f_equal. lia. }
  destruct (in_image _ (u64_le bd meta_ptr) _) eqn:E2.
  - apply in_image_spec in E2; [|lia|lia].
    split; [intros [= <- <-]; tauto|intros (_ & _ & -> & -> & _); reflexivity].
  - split; [discriminate|]. intros (_ & _ & -> & -> & Hr1 & Hr2).
    assert (in_image (Py.len bd) (u64_le bd meta_ptr) (u32_le bd (meta_ptr + 8)) = true)
      by (apply in_image_spec; lia).
    congruence.
Qed.

Lemma X3_probe_8_4_witness :
  4 <= 4 /\
  InteractiveSleuth_probe._read_metadata_exit (Some image_8_4) 4 = Return_8_4 8 4.
Proof.
  split; [lia|].
  apply (X3_probe_8_4 image_8_4 4 8 4); [lia|].
  vm_compute. intuition discriminate.
Defined.

(** ** The resolver *)

Section ResolverMore.

Variable parse_offset : string -> string -> result Z.
Variable parse_rOffset : string -> string -> result Z.
Variable read_metadata : option (list byte) -> Z -> result (Z * Z).

Local Abbreviation rec := (resolve_rec parse_offset parse_rOffset read_metadata).
Local Abbreviation run := (resolve parse_offset parse_rOffset read_metadata).

Lemma resolve_all_loop_total names self :
  exists out,
    resolve_all_loop parse_offset parse_rOffset read_metadata names self = Some out.
Proof.
  revert self. induction names as [|name names IH]; intros self;
    cbn [resolve_all_loop]; [eauto|].
  destruct (resolved_offsets self !! name); [apply IH|].
  destruct (resolve_total parse_offset parse_rOffset read_metadata self name)
    as [[[e|v] self1] Hr]; rewrite Hr; eauto.
Qed.

(** Entries change only for schema names that were not cached, and such
    a name is cached afterwards. *)
Lemma resolve_rec_changes fuel self name visited r self' k :
  rec fuel self name visited = Some (r, self') ->
  resolved_offsets self' !! k <> resolved_offsets self !! k \/
  resolved_sizes self' !! k <> resolved_sizes self !! k ->
  resolved_offsets self !! k = None /\
  is_Some (Dict.get k (structures self)) /\
  is_Some (resolved_offsets self' !! k).
Proof.
  revert self name visited r self'.
  induction fuel as [|fuel IH]; intros self name visited r self' H Hk;
    [discriminate|].
  step H; try (exfalso; destruct Hk as [Hk|Hk]; by apply Hk).
  - cbn in Hk. destruct (decide (name = k)) as [->|Hne].
    + cbn. rewrite lookup_insert_eq. eauto.
    + rewrite lookup_insert_ne in Hk by done. exfalso. destruct Hk; done.
  - eapply IH; eassumption.
  - match goal with E : rec _ _ _ _ = Some _ |- _ =>
      pose proof (IH _ _ _ _ _ E) as IH1 end.
    cbn in Hk |- *. destruct (decide (name = k)) as [->|Hne].
    + rewrite lookup_insert_eq. eauto.
    + repeat rewrite lookup_insert_ne in Hk by done.
      rewrite ?lookup_insert_ne by done. by apply IH1.
  - match goal with E : rec _ _ _ _ = Some _ |- _ =>
      pose proof (IH _ _ _ _ _ E) as IH1 end.
    cbn in Hk |- *. destruct (decide (name = k)) as [->|Hne].
    + rewrite lookup_insert_eq. eauto.
    + repeat rewrite lookup_insert_ne in Hk by done.
      rewrite ?lookup_insert_ne by done. by apply IH1.
Qed.

(** What a relative resolution returns. *)
Lemma resolve_rec_relative fuel self name visited v self' structure :
  rec fuel self name visited = Some (inr v, self') ->
  resolved_offsets self !! name = None ->
  Dict.get name (structures self) = Some structure ->
  Py.truthy (row_offset structure) = false ->
  exists parent_offset r_offset,
    parse_rOffset name (row_rOffset structure) = inr r_offset /\
    resolved_offsets self' !! row_parent structure = Some parent_offset /\
    (v = parent_offset + r_offset \/
     exists size,
       read_metadata (binary_data self) (parent_offset + r_offset) = inr (v, size) /\
       resolved_sizes self' !! name = Some size).
Proof.
  destruct fuel as [|fuel]; intros H Hc Hg Ho; [discriminate|].
  cbn [resolve_rec] in H. rewrite Hc, Hg, Ho in H.
  destruct (decide (name ∈ visited)); [discriminate|].
  destruct (_ && _); [|discriminate].
  destruct (parse_rOffset name (row_rOffset structure)) as [e|r_offset];
    [discriminate|].
  destruct (rec fuel self (row_parent structure) ({[name]} ∪ visited))
    as [[[e|parent_offset] self1]|] eqn:E; [discriminate| |discriminate].
  pose proof (resolve_rec_result _ _ _ _ _ _ _ _ _ E) as Hp.
  pose proof (resolve_rec_env _ _ _ _ _ _ _ _ _ E) as [_ Hb].
  assert (Hname : row_parent structure <> name).
  { intros Heq.
    assert (Hin : name ∈ ({[name]} ∪ visited : gset string)) by set_solver.
    destruct (resolve_rec_visited _ _ _ _ _ _ _ _ _ name E Hin) as [Hv _].
    rewrite Heq, Hv, Hc in Hp. discriminate. }
  exists parent_offset, r_offset. split; [done|].
  destruct (read_metadata (binary_data self1) (parent_offset + r_offset))
    as [e|[data_ptr size]] eqn:Hm; simplify_eq; cbn.
  - rewrite lookup_insert_ne by done. split; [done|]. by left.
  - rewrite lookup_insert_ne by done. split; [done|]. right.
    exists size. rewrite <- Hb, Hm, lookup_insert_eq. done.
Qed.

(** Exceptions name the right structure. *)
Lemma resolve_rec_raise_sound fuel self name visited e self' :
  raises_literal_error parse_offset -> raises_literal_error parse_rOffset ->
  rec fuel self name visited = Some (inl e, self') ->
  (forall v, v ∈ visited -> tc (parent_edge self) v name) ->
  match e with
  | RecursionError vs n =>
      n ∈ vs /\ rtc (parent_edge self) name n /\ tc (parent_edge self) n n
  | KeyError k =>
      rtc (parent_edge self) name k /\
      resolved_offsets self !! k = None /\ Dict.get k (structures self) = None
  | ValueError (MissingOffsetAndRelative k) =>
      rtc (parent_edge self) name k /\
      resolved_offsets self !! k = None /\
      exists structure,
        Dict.get k (structures self) = Some structure /\
        Py.truthy (row_offset structure) = false /\
        Py.truthy (row_rOffset structure) && Py.truthy (row_parent structure) = false
  | _ => True
  end.
Proof.
  intros Hpo Hpr. revert self name visited e self'.
  induction fuel as [|fuel IH]; intros self name visited e self' H Hinv;
    [discriminate|].
  cbn [resolve_rec] in H.
  destruct (resolved_offsets self !! name) eqn:Hc; [discriminate|].
  destruct (decide (name ∈ visited)) as [Hin|Hnin].
  { simplify_eq. split; [done|]. split; [apply rtc_refl|by apply Hinv]. }
  destruct (Dict.get name (structures self)) as [structure|] eqn:Hg.
  2:{ simplify_eq. split; [apply rtc_refl|done]. }
  destruct (Py.truthy (row_offset structure)) eqn:Ho.
  { destruct (parse_offset name (row_offset structure)) eqn:Hp; simplify_eq.
    pose proof (Hpo _ _ _ Hp) as He. by destruct e as [| |[]|]. }
  destruct (Py.truthy (row_rOffset structure) && Py.truthy (row_parent structure))
    eqn:Hrp.
  2:{ simplify_eq. split; [apply rtc_refl|]. split; [done|]. eauto. }
  destruct (parse_rOffset name (row_rOffset structure)) eqn:Hp.
  { simplify_eq. pose proof (Hpr _ _ _ Hp) as He. by destruct e as [| |[]|]. }
  destruct (rec fuel self (row_parent structure) ({[name]} ∪ visited))
    as [[[e1|parent_offset] self1]|] eqn:E; [| |discriminate].
  2:{ destruct (read_metadata _ _) as [?|[? ?]]; discriminate. }
  simplify_eq.
  assert (Hedge : parent_edge self name (row_parent structure)).
  { split; [done|]. eexists. repeat split; eauto. }
  apply IH in E.
  - destruct e as [vs n|k|[]|]; try done.
    all: destruct E as (? & ? & ?); repeat split; try done.
    all: eapply rtc_l; eassumption.
  - intros v [->%elem_of_singleton|Hv]%elem_of_union.
    + by apply tc_once.
    + eapply tc_r; [by apply Hinv|done].
Qed.

End ResolverMore.

Lemma batch_parsers_raise_literal_errors (int0 : string -> option Z) :
  raises_literal_error (SleuthParser.parse_offset int0) /\
  raises_literal_error (SleuthParser.parse_rOffset int0).
Proof.
  split; intros name lit e;
    unfold SleuthParser.parse_offset, SleuthParser.parse_rOffset;
    destruct (int0 lit); intros [=]; by subst.
Qed.

Lemma interactive_parser_raises_literal_errors (int0 : string -> option Z) :
  raises_literal_error (fun _ => InteractiveSleuth.parse_num int0).
Proof.
  intros name lit e. unfold InteractiveSleuth.parse_num.
  destruct (int0 _); intros [=]; by subst.
Qed.

(** X4: the resolver always returns, on every schema, cyclic ones
    included: the recursion never goes deeper than the number of rows of
    the schema plus one, so [resolve], [resolve_all_offsets] and the loop
    of [list] all end, with a value or with an exception. *)
Theorem X4_resolver_terminates
    (parse_offset parse_rOffset : string -> string -> result Z)
    (read_metadata : option (list byte) -> Z -> result (Z * Z)) (self : session) :
  (forall fuel name visited,
     (length (structures self) < fuel)%nat ->
     exists out,
       resolve_rec parse_offset parse_rOffset read_metadata fuel self name visited
         = Some out) /\
  (forall name,
     exists out, resolve parse_offset parse_rOffset read_metadata self name = Some out) /\
  (forall names,
     exists out,
       resolve_all_loop parse_offset parse_rOffset read_metadata names self = Some out) /\
  (forall names,
     exists out,
       list_loop parse_offset parse_rOffset read_metadata names self = Some out).
Proof.
  repeat split.
  - intros fuel name visited Hlt. apply resolve_rec_total.
    pose proof (unvisited_le (structures self) visited). lia.
  - intros name. apply resolve_total.
  - intros names. apply resolve_all_loop_total.
  - intros names.
    destruct (list_loop_total parse_offset parse_rOffset read_metadata names self)
      as (lines & self' & H & _).
    eauto.
Qed.

Lemma X4_resolver_terminates_witness :
  exists out,
    SleuthParser._get_absolute_offset_rec PyStr.int0 5
      (SleuthParser.__init__ zeros8 schema_cycle) "A" {["B"]} = Some out.
Proof.
  apply (proj1 (X4_resolver_terminates
                  (SleuthParser.parse_offset PyStr.int0)
                  (SleuthParser.parse_rOffset PyStr.int0)
                  SleuthParser._read_metadata
                  (SleuthParser.__init__ zeros8 schema_cycle))).
  vm_compute. lia.
Defined.

(** X5: a resolution that returned can be repeated: the second call
    returns the same offset and leaves the session as the first one left
    it. *)
Theorem X5_resolve_twice
    (parse_offset parse_rOffset : string -> string -> result Z)
    (read_metadata : option (list byte) -> Z -> result (Z * Z))
    self name v self' :
  resolve parse_offset parse_rOffset read_metadata self name = Some (inr v, self') ->
  resolve parse_offset parse_rOffset read_metadata self' name = Some (inr v, self').
Proof.
  intros H. unfold resolve in *.
  apply resolve_rec_result in H. by apply resolve_rec_cached.
Qed.

Lemma X5_resolve_twice_witness :
  InteractiveSleuth._resolve_offset_recursive PyStr.int0
    (set_size "Child" 16 (set_offset "Child" 32 (set_offset "Root" 0 repl_example)))
    "Child"
  = Some (inr 32,
          set_size "Child" 16 (set_offset "Child" 32 (set_offset "Root" 0 repl_example))).
Proof.
  apply (X5_resolve_twice
           (fun _ => InteractiveSleuth.parse_num PyStr.int0)
           (fun _ => InteractiveSleuth.parse_num PyStr.int0)
           InteractiveSleuth._read_metadata repl_example "Child" 32).
  reflexivity.
Defined.

(** X6: a call of the resolver, whatever it returns, leaves the schema
    and the image alone, and changes cache entries only for names of the
    schema that had no resolved offset; each of them has one afterwards. *)
Theorem X6_resolver_frame
    (parse_offset parse_rOffset : string -> string -> result Z)
    (read_metadata : option (list byte) -> Z -> result (Z * Z))
    self name r self' :
  resolve parse_offset parse_rOffset read_metadata self name = Some (r, self') ->
  structures self' = structures self /\
  binary_data self' = binary_data self /\
  forall k,
    resolved_offsets self' !! k <> resolved_offsets self !! k \/
    resolved_sizes self' !! k <> resolved_sizes self !! k ->
    resolved_offsets self !! k = None /\
    is_Some (Dict.get k (structures self)) /\
    is_Some (resolved_offsets self' !! k).
Proof.
  intros H. unfold resolve in H.
  destruct (resolve_rec_env _ _ _ _ _ _ _ _ _ H) as [Hs Hb].
  split; [exact Hs|]. split; [exact Hb|].
  intros k. eapply resolve_rec_changes. exact H.
Qed.

Lemma X6_resolver_frame_witness :
  let self' := set_size "Child" 16 (set_offset "Child" 32 (set_offset "Root" 0 repl_example)) in
  structures self' = structures repl_example /\
  binary_data self' = binary_data repl_example /\
  forall k,
    resolved_offsets self' !! k <> resolved_offsets repl_example !! k \/
    resolved_sizes self' !! k <> resolved_sizes repl_example !! k ->
    resolved_offsets repl_example !! k = None /\
    is_Some (Dict.get k (structures repl_example)) /\
    is_Some (resolved_offsets self' !! k).
Proof.
  apply (X6_resolver_frame
           (fun _ => InteractiveSleuth.parse_num PyStr.int0)
           (fun _ => InteractiveSleuth.parse_num PyStr.int0)
           InteractiveSleuth._read_metadata repl_example "Child" (inr 32)).
  reflexivity.
Defined.

(** X7: when the resolver returns for an uncached structure without an
    explicit offset, its rOffset was a valid literal, its parent is cached
    afterwards, and the value returned is either parent offset plus
    rOffset, or the pointer that the probe found at that position, in
    which case the size the probe found is recorded for the structure. *)
Theorem X7_relative_resolution
    (parse_offset parse_rOffset : string -> string -> result Z)
    (read_metadata : option (list byte) -> Z -> result (Z * Z))
    self name v self' structure :
  resolve parse_offset parse_rOffset read_metadata self name = Some (inr v, self') ->
  resolved_offsets self !! name = None ->
  Dict.get name (structures self) = Some structure ->
  Py.truthy (row_offset structure) = false ->
  exists parent_offset r_offset,
    parse_rOffset name (row_rOffset structure) = inr r_offset /\
    resolved_offsets self' !! row_parent structure = Some parent_offset /\
    (v = parent_offset + r_offset \/
     exists size,
       read_metadata (binary_data self) (parent_offset + r_offset) = inr (v, size) /\
       resolved_sizes self' !! name = Some size).
Proof. intros H. unfold resolve in H. by eapply resolve_rec_relative. Qed.

Lemma X7_relative_resolution_witness :
  exists parent_offset r_offset,
    SleuthParser.parse_rOffset PyStr.int0 "Child" "0x8" = inr r_offset /\
    resolved_offsets
      (set_size "Child" 16 (set_offset "Child" 32 (set_offset "Root" 0 batch_example)))
      !! "Root" = Some parent_offset /\
    (32 = parent_offset + r_offset \/
     exists size,
       SleuthParser._read_metadata (binary_data batch_example)
         (parent_offset + r_offset) = inr (32, size) /\
       resolved_sizes
         (set_size "Child" 16 (set_offset "Child" 32 (set_offset "Root" 0 batch_example)))
         !! "Child" = Some size).
Proof.
  apply (X7_relative_resolution
           (SleuthParser.parse_offset PyStr.int0)
           (SleuthParser.parse_rOffset PyStr.int0)
           SleuthParser._read_metadata batch_example "Child" 32 _
           (Row "Child" blank blank "0x8" "Root"));
    reflexivity.
Defined.

Lemma resolve_all_loop_complete
    (parse_offset parse_rOffset : string -> string -> result Z)
    (read_metadata : option (list byte) -> Z -> result (Z * Z))
    names self u self' :
  resolve_all_loop parse_offset parse_rOffset read_metadata names self
    = Some (inr u, self') ->
  forall name, name ∈ names -> is_Some (resolved_offsets self' !! name).
Proof.
  revert self. induction names as [|nm names IH]; intros self H name Hin;
    [by apply elem_of_nil in Hin|].
  cbn [resolve_all_loop] in H.
  destruct (resolved_offsets self !! nm) as [w|] eqn:Hc.
  - apply elem_of_cons in Hin as [->|Hin]; [|by eapply IH].
    exists w. eapply resolve_all_loop_keeps; eassumption.
  - destruct (resolve parse_offset parse_rOffset read_metadata self nm)
      as [[[e|w] self1]|] eqn:E; try discriminate.
    apply elem_of_cons in Hin as [->|Hin]; [|by eapply IH].
    exists w. eapply resolve_all_loop_keeps; [eassumption|].
    eapply resolve_rec_result. exact E.
Qed.

Lemma resolve_all_loop_cached
    (parse_offset parse_rOffset : string -> string -> result Z)
    (read_metadata : option (list byte) -> Z -> result (Z * Z))
    names self :
  (forall name, name ∈ names -> is_Some (resolved_offsets self !! name)) ->
  resolve_all_loop parse_offset parse_rOffset read_metadata names self
    = Some (inr tt, self).
Proof.
  induction names as [|nm names IH]; intros Hall; cbn [resolve_all_loop]; [done|].
  destruct (Hall nm) as [w Hw]; [set_solver|]. rewrite Hw.
  apply IH. intros name Hin. apply Hall. set_solver.
Qed.

Lemma resolve_all_loop_env
    (parse_offset parse_rOffset : string -> string -> result Z)
    (read_metadata : option (list byte) -> Z -> result (Z * Z))
    names self r self' :
  resolve_all_loop parse_offset parse_rOffset read_metadata names self
    = Some (r, self') ->
  structures self' = structures self /\ binary_data self' = binary_data self.
Proof.
  revert self. induction names as [|nm names IH]; intros self H;
    cbn [resolve_all_loop] in H; [by simplify_eq|].
  destruct (resolved_offsets self !! nm); [by apply IH|].
  destruct (resolve parse_offset parse_rOffset read_metadata self nm)
    as [[[e|w] self1]|] eqn:E; try discriminate.
  - simplify_eq. eapply resolve_rec_env. exact E.
  - apply resolve_rec_env in E as [Hs Hb]. apply IH in H as [Hs' Hb'].
    split; congruence.
Qed.

(** X8: when [resolve_all_offsets] returns, every name of the schema has
    a resolved offset, a second pass changes nothing, and the table of
    [list_structures] has an offset in every line, in the order of the
    schema. *)
Theorem X8_resolve_all_complete (int0 : string -> option Z) self u self' :
  SleuthParser.resolve_all_offsets int0 self = Some (inr u, self') ->
  (forall name, name ∈ Dict.keys (structures self) ->
     is_Some (resolved_offsets self' !! name)) /\
  SleuthParser.resolve_all_offsets int0 self' = Some (inr tt, self') /\
  exists table,
    SleuthParser.list_structures int0 self = Some (inr table, self') /\
    map fst table = Dict.keys (structures self) /\
    Forall (fun line => is_Some line.2) table.
Proof.
  intros H. unfold SleuthParser.resolve_all_offsets in *.
  pose proof (resolve_all_loop_complete _ _ _ _ _ _ _ H) as Hall.
  pose proof (resolve_all_loop_env _ _ _ _ _ _ _ H) as [Hs _].
  split; [exact Hall|]. split.
  - rewrite Hs. by apply resolve_all_loop_cached.
  - unfold SleuthParser.list_structures, SleuthParser.resolve_all_offsets.
    rewrite H, Hs. eexists. split; [reflexivity|]. split.
    + rewrite map_map. cbn. apply map_id.
    + apply Forall_map. apply Forall_forall. intros name Hin. cbn.
      apply Hall. exact Hin.
Qed.

Lemma X8_resolve_all_complete_witness :
  (forall name, name ∈ Dict.keys (structures batch_flat) ->
     is_Some (resolved_offsets
                (set_offset "Child" 8 (set_offset "Root" 0 batch_flat)) !! name)) /\
  SleuthParser.resolve_all_offsets PyStr.int0
    (set_offset "Child" 8 (set_offset "Root" 0 batch_flat))
    = Some (inr tt, set_offset "Child" 8 (set_offset "Root" 0 batch_flat)) /\
  exists table,
    SleuthParser.list_structures PyStr.int0 batch_flat
      = Some (inr table, set_offset "Child" 8 (set_offset "Root" 0 batch_flat)) /\
    map fst table = Dict.keys (structures batch_flat) /\
    Forall (fun line => is_Some line.2) table.
Proof.
  apply (X8_resolve_all_complete PyStr.int0 batch_flat tt). reflexivity.
Defined.

Lemma list_loop_lines_cached
    (parse_offset parse_rOffset : string -> string -> result Z)
    (read_metadata : option (list byte) -> Z -> result (Z * Z))
    names self lines self' :
  list_loop parse_offset parse_rOffset read_metadata names self = Some (lines, self') ->
  map fst lines = names /\
  structures self' = structures self /\
  binary_data self' = binary_data self /\
  forall nm off, (nm, Some off) ∈ lines -> resolved_offsets self' !! nm = Some off.
Proof.
  revert self lines. induction names as [|name names IH]; intros self lines H;
    cbn [list_loop] in H.
  - simplify_eq. repeat split. intros nm off Hin. by apply elem_of_nil in Hin.
  - destruct (resolve parse_offset parse_rOffset read_metadata self name)
      as [[r self1]|] eqn:E; [|discriminate].
    destruct (list_loop _ _ _ names self1) as [[ls self2]|] eqn:E2; [|discriminate].
    simplify_eq. destruct (IH _ _ E2) as (Hn & Hs & Hb & Hc).
    destruct (resolve_rec_env _ _ _ _ _ _ _ _ _ E) as [Hs1 Hb1].
    split; [cbn; by rewrite Hn|]. split; [congruence|]. split; [congruence|].
    intros nm off [Heq|Hin]%elem_of_cons; [|by apply Hc].
    destruct r as [e|v]; simplify_eq.
    eapply list_loop_keeps; [exact E2|]. eapply resolve_rec_result. exact E.
Qed.

(** X9: the [list] command prints one line per name of the schema, in the
    order of the schema; every offset it prints is the offset cached for
    that name when the command ends; the schema and the image are as
    before. *)
Theorem X9_list_lines_are_cached (int0 : string -> option Z) self lines self' :
  InteractiveSleuth.list_command int0 self = Some (Some lines, self') ->
  map fst lines = Dict.keys (structures self) /\
  structures self' = structures self /\
  binary_data self' = binary_data self /\
  forall nm off, (nm, Some off) ∈ lines -> resolved_offsets self' !! nm = Some off.
Proof.
  unfold InteractiveSleuth.list_command. intros H.
  destruct (structures self) as [|kv d] eqn:Hd; [discriminate|].
  destruct (list_loop _ _ _ _ _) as [[ls self2]|] eqn:E; [|discriminate].
  simplify_eq. apply list_loop_lines_cached in E as (Hn & Hs & Hb & Hc).
  cbn in Hs, Hb. rewrite Hd in Hs. done.
Qed.

Lemma X9_list_lines_are_cached_witness :
  map fst [("Bad", None); ("Good", Some 16)] = Dict.keys (structures repl_bad_good) /\
  structures (set_offset "Good" 16 repl_bad_good) = structures repl_bad_good /\
  binary_data (set_offset "Good" 16 repl_bad_good) = binary_data repl_bad_good /\
  forall nm off,
    (nm, Some off) ∈ [("Bad", None); ("Good", Some 16)] ->
    resolved_offsets (set_offset "Good" 16 repl_bad_good) !! nm = Some off.
Proof.
  apply (X9_list_lines_are_cached PyStr.int0 repl_bad_good
           [("Bad", None); ("Good", Some 16)] (set_offset "Good" 16 repl_bad_good)).
  reflexivity.
Defined.

(** X10: the circular-reference error that the resolver raises itself
    (the [raise] of lines 62-63 and 350-351, which reports the path) is
    raised only for a real cycle, at whatever depth the recursion is cut:
    the name it reports is reached from the requested name along parent
    links of uncached relative descriptors, and comes back to itself
    along such links; it belongs to the reported path.  The error of the
    same class that the interpreter raises by itself, when the chain of
    parents is deeper than its recursion limit, is not this error and is
    not spoken of here. *)
Theorem X10_recursion_error_is_a_cycle (int0 : string -> option Z)
    (fuel : nat) self name visited n self' :
  resolve_rec (SleuthParser.parse_offset int0) (SleuthParser.parse_rOffset int0)
    SleuthParser._read_metadata fuel self name ∅
    = Some (inl (RecursionError visited n), self') \/
  resolve_rec (fun _ => InteractiveSleuth.parse_num int0)
    (fun _ => InteractiveSleuth.parse_num int0)
    InteractiveSleuth._read_metadata fuel self name ∅
    = Some (inl (RecursionError visited n), self') ->
  n ∈ visited /\
  rtc (parent_edge self) name n /\
  tc (parent_edge self) n n.
Proof.
  destruct (batch_parsers_raise_literal_errors int0) as [Hb1 Hb2].
  pose proof (interactive_parser_raises_literal_errors int0) as Hi.
  intros [H|H].
  - apply (resolve_rec_raise_sound _ _ _ _ _ _ _ _ _ Hb1 Hb2 H). set_solver.
  - apply (resolve_rec_raise_sound _ _ _ _ _ _ _ _ _ Hi Hi H). set_solver.
Qed.

Lemma X10_recursion_error_is_a_cycle_witness :
  let self := SleuthParser.__init__ zeros8 schema_cycle in
  "A" ∈ ({["A"]} ∪ {["B"]} : gset string) /\
  rtc (parent_edge self) "A" "A" /\
  tc (parent_edge self) "A" "A".
Proof.
  cbv zeta.
  apply (X10_recursion_error_is_a_cycle PyStr.int0 3
           (SleuthParser.__init__ zeros8 schema_cycle) "A" ({["A"]} ∪ {["B"]}) "A"
           (SleuthParser.__init__ zeros8 schema_cycle)).
  left. reflexivity.
Defined.

(** X11: a [KeyError] names a structure that is absent from the schema,
    and the [ValueError] of a malformed descriptor names a row without
    explicit offset and without rOffset and parent; in both cases the name
    is the requested one or is reached from it along parent links of
    uncached relative descriptors. *)
Theorem X11_errors_name_the_culprit (int0 : string -> option Z) self name self' :
  (forall k,
     SleuthParser._get_absolute_offset int0 self name = Some (inl (KeyError k), self') \/
     InteractiveSleuth._resolve_offset_recursive int0 self name
       = Some (inl (KeyError k), self') ->
     rtc (parent_edge self) name k /\
     resolved_offsets self !! k = None /\
     Dict.get k (structures self) = None) /\
  (forall k,
     SleuthParser._get_absolute_offset int0 self name
       = Some (inl (ValueError (MissingOffsetAndRelative k)), self') \/
     InteractiveSleuth._resolve_offset_recursive int0 self name
       = Some (inl (ValueError (MissingOffsetAndRelative k)), self') ->
     rtc (parent_edge self) name k /\
     resolved_offsets self !! k = None /\
     exists structure,
       Dict.get k (structures self) = Some structure /\
       Py.truthy (row_offset structure) = false /\
       Py.truthy (row_rOffset structure) && Py.truthy (row_parent structure) = false).
Proof.
  destruct (batch_parsers_raise_literal_errors int0) as [Hb1 Hb2].
  pose proof (interactive_parser_raises_literal_errors int0) as Hi.
  split; intros k [H|H].
  - unfold SleuthParser._get_absolute_offset, resolve in H.
    apply (resolve_rec_raise_sound _ _ _ _ _ _ _ _ _ Hb1 Hb2 H). set_solver.
  - unfold InteractiveSleuth._resolve_offset_recursive, resolve in H.
    apply (resolve_rec_raise_sound _ _ _ _ _ _ _ _ _ Hi Hi H). set_solver.
  - unfold SleuthParser._get_absolute_offset, resolve in H.
    apply (resolve_rec_raise_sound _ _ _ _ _ _ _ _ _ Hb1 Hb2 H). set_solver.
  - unfold InteractiveSleuth._resolve_offset_recursive, resolve in H.
    apply (resolve_rec_raise_sound _ _ _ _ _ _ _ _ _ Hi Hi H). set_solver.
Qed.

Lemma X11_errors_name_the_culprit_witness :
  let self := SleuthParser.__init__ zeros8 schema_cycle_no_rOffset in
  rtc (parent_edge self) "B" "A" /\
  resolved_offsets self !! "A" = None /\
  exists structure,
    Dict.get "A" (structures self) = Some structure /\
    Py.truthy (row_offset structure) = false /\
    Py.truthy (row_rOffset structure) && Py.truthy (row_parent structure) = false.
Proof.
  cbv zeta.
  apply (proj2 (X11_errors_name_the_culprit PyStr.int0
                  (SleuthParser.__init__ zeros8 schema_cycle_no_rOffset) "B"
                  (SleuthParser.__init__ zeros8 schema_cycle_no_rOffset)) "A").
  left. reflexivity.
Defined.

(** ** Loading a profile *)

Lemma get_set name v d k :
  Dict.get k (Dict.set name v d)
  = if String.eqb name k then Some v else Dict.get k d.
Proof.
  induction d as [|[k0 w] d IH]; cbn; [done|].
  destruct (String.eqb_spec k0 name) as [->|Hne]; cbn.
  - by destruct (String.eqb name k).
  - rewrite IH. destruct (String.eqb_spec k0 k) as [->|Hne'].
    + destruct (String.eqb_spec name k) as [->|]; [done|done].
    + done.
Qed.

(** X12: after a profile is loaded, the row found under a name is the
    last row of the file whose stripped name is that name, with every
    cell stripped; the interactive loader keeps no row under the empty
    name. *)
Theorem X12_last_row_wins (rows : list row) (name : string) :
  Dict.get name (SleuthParser.load_rows rows)
    = find (fun r => String.eqb (row_name r) name)
           (rev (map SleuthParser.clean_row rows)) /\
  Dict.get name (InteractiveSleuth.load_rows rows)
    = if Py.truthy name
      then find (fun r => String.eqb (row_name r) name)
                (rev (map SleuthParser.clean_row rows))
      else None.
Proof.
  split.
  - unfold SleuthParser.load_rows.
    induction rows as [|r rows IH] using rev_ind; [done|].
    rewrite fold_left_app, map_app, rev_app_distr.
    cbn [fold_left map rev app find]. rewrite get_set, IH. reflexivity.
  - unfold InteractiveSleuth.load_rows.
    induction rows as [|r rows IH] using rev_ind; [by destruct name|].
    rewrite fold_left_app, map_app, rev_app_distr.
    cbn [fold_left map rev app find]. cbv zeta.
    destruct (Py.truthy (row_name (SleuthParser.clean_row r))) eqn:Ht.
    + rewrite get_set, IH.
      destruct (String.eqb_spec (row_name (SleuthParser.clean_row r)) name)
        as [<-|Hne]; [by rewrite Ht|done].
    + rewrite IH.
      destruct (String.eqb_spec (row_name (SleuthParser.clean_row r)) name)
        as [<-|Hne]; [by rewrite Ht|done].
Qed.

Lemma set_keys_NoDup name v d :
  NoDup (Dict.keys d) -> NoDup (Dict.keys (Dict.set name v d)).
Proof.
  intros Hnd. destruct (decide (name ∈ Dict.keys d)) as [Hin|Hnin].
  - by rewrite set_existing_keys.
  - rewrite set_fresh by done. unfold Dict.keys in *. rewrite map_app. cbn.
    apply NoDup_app. split; [done|]. split; [|apply NoDup_singleton].
    intros x Hx Heq%list_elem_of_singleton. by subst.
Qed.

Lemma reconcile_wf (int0 : string -> option Z) self bd name absolute size out self' :
  InteractiveSleuth.reconcile int0 self bd name absolute size = (out, self') ->
  wf_structures (structures self) -> wf_structures (structures self').
Proof.
  unfold InteractiveSleuth.reconcile. intros H Hwf.
  repeat case_match; simplify_eq; first [done | apply load_rows_wf].
Qed.

(** X13: the schema of a REPL session is always well formed: names are
    distinct and not empty, each row is stored under its own name, every
    cell is stripped.  It is so at the start and after every [load_csv],
    and [load_binary], [list] and [analyze_rel] keep it so.  The batch
    loader gives the same but for the empty name, which it keeps. *)
Theorem X13_schema_well_formed (int0 : string -> option Z) :
  wf_structures (structures InteractiveSleuth.__init__) /\
  (forall rows self, wf_structures (structures (InteractiveSleuth.load_csv rows self))) /\
  (forall binary self,
     wf_structures (structures self) ->
     wf_structures (structures (InteractiveSleuth.load_binary binary self))) /\
  (forall self lines self',
     InteractiveSleuth.list_command int0 self = Some (lines, self') ->
     wf_structures (structures self) -> wf_structures (structures self')) /\
  (forall self name out self',
     InteractiveSleuth.analyze_rel int0 self name = Some (out, self') ->
     wf_structures (structures self) -> wf_structures (structures self')) /\
  (forall binary rows,
     let d := structures (SleuthParser.__init__ binary rows) in
     NoDup (Dict.keys d) /\
     Forall (fun kv => row_name kv.2 = kv.1 /\ SleuthParser.clean_row kv.2 = kv.2) d).
Proof.
  split; [split; constructor|].
  split; [intros rows self; apply load_rows_wf|].
  split; [by intros binary self H|].
  split; [|split].
  - intros self lines self' H Hwf. unfold InteractiveSleuth.list_command in H.
    destruct (structures self) eqn:Hd; [by simplify_eq; rewrite Hd|].
    destruct (list_loop _ _ _ _ _) as [[ls self2]|] eqn:E; [|discriminate].
    simplify_eq. apply list_loop_lines_cached in E as (_ & Hs & _).
    rewrite Hs. cbn. by rewrite Hd.
  - intros self name out self' H Hwf. unfold InteractiveSleuth.analyze_rel in H.
    destruct (binary_data self) as [bd|]; [|by simplify_eq].
    destruct (Dict.get name (structures self)); [|by simplify_eq].
    destruct (InteractiveSleuth._resolve_offset_recursive int0 self name)
      as [[[e|absolute] self1]|] eqn:E; [| |discriminate].
    { simplify_eq. apply resolve_rec_env in E as [-> _]. done. }
    apply resolve_rec_env in E as [Hs _]. rewrite <- Hs in Hwf.
    repeat case_match; simplify_eq; try done.
    all: match goal with
         | Hr : InteractiveSleuth.reconcile _ _ _ _ _ _ = _ |- _ =>
             eapply reconcile_wf; [exact Hr|done]
         end.
  - intros binary rows. cbn. unfold SleuthParser.load_rows.
    induction rows as [|r rows IH] using rev_ind; [split; constructor|].
    rewrite fold_left_app. cbn. destruct IH as [Hnd Hall]. split.
    + by apply set_keys_NoDup.
    + apply set_Forall; [done|]. cbn. split; [done|apply clean_row_idem].
Qed.

Lemma X13_schema_well_formed_witness :
  wf_structures (structures repl_x4_analyzed).
Proof.
  apply (proj1 (proj2 (proj2 (proj2 (proj2 (X13_schema_well_formed PyStr.int0)))))
           repl_x4_resolved "X"
           (InteractiveSleuth.Analyzed 32 16
              (Some [Row "X" "0x20" "0x10" blank blank]) false)
           repl_x4_analyzed).
  - reflexivity.
  - apply (proj1 (proj2 (X13_schema_well_formed PyStr.int0)) profile_x4
             (InteractiveSleuth.load_binary image_child InteractiveSleuth.__init__)).
Defined.

(** ** Hexadecimal literals are read back *)

Lemma digit_value_hex_digit d :
  (d < 16)%N -> PyStr.digit_value (PyStr.hex_digit d) = Some d.
Proof.
  intros Hd. destruct d as [|p]; [reflexivity|].
  do 4 (destruct p as [p|p|]; try reflexivity).
  all: lia.
Qed.

Lemma hex_digits_value fuel n acc :
  (n < 16 ^ N.of_nat fuel)%N ->
  exists k, forall a,
    PyStr.digits_value 16 (PyStr.hex_digits fuel n acc) a
    = PyStr.digits_value 16 acc (a * 16 ^ k + n)%N.
Proof.
  revert n acc. induction fuel as [|fuel IH]; intros n acc Hn.
  - exists 0%N. intros a. cbn in *. f_equal. lia.
  - cbn [PyStr.hex_digits].
    assert (Hd : (n mod 16 < 16)%N) by (apply N.mod_upper_bound; lia).
    pose proof (N.div_mod n 16 ltac:(lia)) as Hdm.
    destruct (N.eqb_spec (n / 16) 0) as [Hz|Hnz].
    + exists 1%N. intros a. cbn [PyStr.digits_value].
      rewrite digit_value_hex_digit by done.
      apply N.ltb_lt in Hd. rewrite Hd. f_equal. lia.
    + destruct (IH (n / 16)%N (String (PyStr.hex_digit (n mod 16)) acc)) as [k Hk].
      { rewrite Nat2N.inj_succ, N.pow_succ_r' in Hn.
        apply N.Div0.div_lt_upper_bound. lia. }
      exists (k + 1)%N. intros a. rewrite Hk. cbn [PyStr.digits_value].
      rewrite digit_value_hex_digit by done.
      apply N.ltb_lt in Hd. rewrite Hd. f_equal.
      rewrite N.pow_add_r. lia.
Qed.

Lemma hex_digits_nonempty fuel n acc :
  acc <> EmptyString -> PyStr.hex_digits fuel n acc <> EmptyString.
Proof.
  revert n acc. induction fuel as [|fuel IH]; intros n acc Hacc; [done|].
  cbn [PyStr.hex_digits]. destruct (n / 16 =? 0)%N; [done|]. by apply IH.
Qed.

Lemma pos_size_nat_bound p : (N.pos p < 2 ^ N.of_nat (Pos.size_nat p))%N.
Proof.
  induction p as [p IH|p IH|]; cbn [Pos.size_nat];
    rewrite ?Nat2N.inj_succ, ?N.pow_succ_r'; lia.
Qed.

Lemma size_nat_bound n : (n < 16 ^ N.of_nat (S (N.size_nat n)))%N.
Proof.
  rewrite Nat2N.inj_succ, N.pow_succ_r'.
  assert (H : (n < 2 ^ N.of_nat (N.size_nat n))%N).
  { destruct n as [|p]; [cbn; lia|apply pos_size_nat_bound]. }
  assert (H2 : (2 ^ N.of_nat (N.size_nat n) <= 16 ^ N.of_nat (N.size_nat n))%N)
    by (apply N.pow_le_mono_l; lia).
  lia.
Qed.

(** The model of [int(s, 0)] reads the literals of [f"0x{z:X}"] back. *)
Lemma int0_hex_literal : reads_hex PyStr.int0.
Proof.
  intros z Hz. unfold PyStr.int0. rewrite strip_hex_literal.
  unfold PyStr.hex_literal, PyStr.format_X. cbv zeta.
  destruct (Z.ltb_spec z 0) as [|_]; [lia|].
  destruct (hex_digits_value (S (N.size_nat (Z.abs_N z))) (Z.abs_N z) EmptyString
              (size_nat_bound _)) as [k Hk].
  pose proof (hex_digits_nonempty (N.size_nat (Z.abs_N z)) (Z.abs_N z / 16)%N
                (String (PyStr.hex_digit (Z.abs_N z mod 16)) EmptyString)) as Hne.
  cbn [PyStr.unsigned_literal]. unfold PyStr.nonempty_digits.
  destruct (PyStr.hex_digits (S (N.size_nat (Z.abs_N z))) (Z.abs_N z) EmptyString)
    as [|c r] eqn:E.
  - exfalso. cbn [PyStr.hex_digits] in E.
    destruct (Z.abs_N z / 16 =? 0)%N; [discriminate|]. by apply Hne.
  - rewrite (Hk 0%N). cbn. f_equal. lia.
Qed.

(** ** The resolved profile *)

Lemma fold_batch_fresh rows acc :
  Forall (fun r => SleuthParser.clean_row r = r) rows ->
  NoDup (map row_name rows) ->
  (forall r, r ∈ rows -> row_name r ∉ Dict.keys acc) ->
  fold_left (fun d r => Dict.set (row_name (SleuthParser.clean_row r))
                          (SleuthParser.clean_row r) d) rows acc
  = acc ++ map (fun r => (row_name r, r)) rows.
Proof.
  revert acc. induction rows as [|r rows IH]; intros acc Hall Hnd Hfresh.
  - cbn. by rewrite app_nil_r.
  - inversion Hall as [|? ? Hclean Hall']; subst.
    cbn [map] in Hnd. apply NoDup_cons in Hnd as [Hr Hnd].
    cbn [fold_left map]. rewrite Hclean.
    rewrite set_fresh by (apply Hfresh; set_solver).
    rewrite IH; [by rewrite <- app_assoc|done|done|].
    intros r' Hr'. unfold Dict.keys. rewrite map_app. cbn.
    intros [Hin|Heq%list_elem_of_singleton]%elem_of_app.
    + eapply Hfresh; [|exact Hin]. set_solver.
    + apply Hr. rewrite <- Heq. apply list_elem_of_fmap. eauto.
Qed.

Lemma get_batch_loaded name d v :
  batch_loaded d -> Dict.get name d = Some v ->
  row_name v = name /\ SleuthParser.clean_row v = v.
Proof.
  intros [_ Hall]. induction d as [|[k w] d IH]; [done|]. cbn.
  inversion Hall; subst.
  destruct (String.eqb_spec k name) as [->|Hne]; [by intros [= <-]|by apply IH].
Qed.

Lemma keys_get name d : name ∈ Dict.keys d -> is_Some (Dict.get name d).
Proof.
  induction d as [|[k w] d IH]; cbn; [by intros ?%elem_of_nil|].
  destruct (String.eqb_spec k name) as [->|Hne]; [eauto|].
  intros [?|?]%elem_of_cons; [done|by apply IH].
Qed.

(** X14: the profile written by [write_resolved_csv] reproduces the
    resolution.  When no resolved offset is negative, a parser loaded from
    the written rows has the names of the schema in the same order, each
    with its size, rOffset and parent as before, and resolves each name to
    the offset it had when the profile was written, whatever image it is
    loaded with. *)
Theorem X14_resolved_profile_round_trip (int0 : string -> option Z)
    self rows self1 binary :
  reads_hex int0 ->
  batch_loaded (structures self) ->
  SleuthParser_views.write_resolved_csv int0 self = Some (inr rows, self1) ->
  (forall name v, resolved_offsets self1 !! name = Some v -> 0 <= v) ->
  let reloaded := SleuthParser.__init__ binary rows in
  Dict.keys (structures reloaded) = Dict.keys (structures self) /\
  forall name details,
    Dict.get name (structures self) = Some details ->
    exists v,
      resolved_offsets self1 !! name = Some v /\
      Dict.get name (structures reloaded)
        = Some (Row name (PyStr.hex_literal v) (row_size details)
                  (row_rOffset details) (row_parent details)) /\
      SleuthParser._get_absolute_offset int0 reloaded name
        = Some (inr v, set_offset name v reloaded).
Proof.
  intros Hhex Hwf H Hpos reloaded.
  unfold SleuthParser_views.write_resolved_csv in H.
  destruct (SleuthParser.resolve_all_offsets int0 self) as [[[e|u] self2]|] eqn:E;
    simplify_eq.
  unfold SleuthParser.resolve_all_offsets in E.
  pose proof (resolve_all_loop_complete _ _ _ _ _ _ _ E) as Hall.
  pose proof (resolve_all_loop_env _ _ _ _ _ _ _ E) as [Hs _].
  set (f := fun '(name, details) =>
              {| row_name := name;
                 row_offset := PyStr.hex_literal
                                 (default 0 (resolved_offsets self1 !! name));
                 row_size := row_size details;
                 row_rOffset := row_rOffset details;
                 row_parent := row_parent details |}).
  assert (Hst : structures reloaded = map (fun kv => (kv.1, f kv)) (structures self)).
  { unfold reloaded. cbn [structures SleuthParser.__init__].
    unfold SleuthParser.load_rows. rewrite Hs.
    destruct Hwf as [Hnd Hwf].
    rewrite fold_batch_fresh.
    - cbn [app]. rewrite map_map. apply map_ext. by intros [k v].
    - apply Forall_map. eapply Forall_impl; [exact Hwf|].
      intros [k [n o s r p]] [Hn Hc]. cbn in Hn. subst n.
      unfold SleuthParser.clean_row in Hc |- *.
      cbn [row_name row_offset row_size row_rOffset row_parent snd f] in Hc |- *.
      injection Hc as Hk Ho Hsz Hr Hp.
      rewrite strip_hex_literal. congruence.
    - rewrite map_map. replace (map _ (structures self)) with (Dict.keys (structures self));
        [exact Hnd|].
      unfold Dict.keys. apply map_ext. by intros [k v].
    - intros r _. cbn. apply not_elem_of_nil. }
  split.
  - rewrite Hst. unfold Dict.keys. rewrite map_map. by apply map_ext.
  - intros name details Hg.
    destruct (Hall name) as [v Hv]; [eapply get_Some_keys; eassumption|].
    exists v. split; [exact Hv|].
    assert (Hrow : Dict.get name (structures reloaded)
                   = Some (Row name (PyStr.hex_literal v) (row_size details)
                             (row_rOffset details) (row_parent details))).
    { rewrite Hst, (get_map_values f), Hg. cbn. by rewrite Hv. }
    split; [exact Hrow|].
    apply (resolve_explicit _ _ _ _ _ _ _ Hrow); [reflexivity| |reflexivity].
    cbn [row_offset]. unfold SleuthParser.parse_offset.
    rewrite Hhex; [done|]. eapply Hpos. exact Hv.
Qed.

Lemma X14_resolved_profile_round_trip_witness :
  let reloaded :=
    SleuthParser.__init__ zeros8
      [Row "Root" "0x0" "0x40" blank blank; Row "Child" "0x20" blank "0x8" "Root"] in
  Dict.keys (structures reloaded) = Dict.keys (structures batch_example) /\
  forall name details,
    Dict.get name (structures batch_example) = Some details ->
    exists v,
      resolved_offsets
        (set_size "Child" 16 (set_offset "Child" 32 (set_offset "Root" 0 batch_example)))
        !! name = Some v /\
      Dict.get name (structures reloaded)
        = Some (Row name (PyStr.hex_literal v) (row_size details)
                  (row_rOffset details) (row_parent details)) /\
      SleuthParser._get_absolute_offset PyStr.int0 reloaded name
        = Some (inr v, set_offset name v reloaded).
Proof.
  apply (X14_resolved_profile_round_trip PyStr.int0 batch_example
           [Row "Root" "0x0" "0x40" blank blank; Row "Child" "0x20" blank "0x8" "Root"]
           (set_size "Child" 16 (set_offset "Child" 32 (set_offset "Root" 0 batch_example)))
           zeros8).
  - exact int0_hex_literal.
  - split; [repeat constructor; set_solver|repeat constructor].
  - reflexivity.
  - intros name v. cbn.
    destruct (decide (name = "Child")) as [->|Hc].
    { rewrite lookup_insert_eq. intros [= <-]. lia. }
    rewrite lookup_insert_ne by done.
    destruct (decide (name = "Root")) as [->|Hr].
    { rewrite lookup_insert_eq. intros [= <-]. lia. }
    rewrite lookup_insert_ne by done. by rewrite lookup_empty.
Defined.

(** A resolved offset that is negative is written as [0x-4], which is not
    a literal: the written profile no longer resolves. *)
Example resolved_profile_negative_offset :
  fst <$> SleuthParser_views.write_resolved_csv PyStr.int0
            (SleuthParser.__init__ zeros8 schema_before_root)
    = Some (inr [Row "Root" "0x0" blank blank blank;
                 Row "Child" "0x-4" blank "-4" "Root"]) /\
  fst <$> SleuthParser._get_absolute_offset PyStr.int0
            (SleuthParser.__init__ zeros8
               [Row "Root" "0x0" blank blank blank;
                Row "Child" "0x-4" blank "-4" "Root"]) "Child"
    = Some (inl (ValueError (InvalidOffsetValue "Child" "0x-4"))).
Proof. split; reflexivity. Qed.

(** ** The reconciler settles *)

Lemma csv_values_Some (int0 : string -> option Z) details size absolute :
  InteractiveSleuth.csv_values int0 details = (Some size, Some absolute) ->
  Py.truthy (row_offset details) = true /\
  InteractiveSleuth.parse_num int0 (row_offset details) = inr absolute /\
  Py.truthy (row_size details) = true /\
  InteractiveSleuth.parse_num int0 (row_size details) = inr size.
Proof.
  unfold InteractiveSleuth.csv_values.
  destruct (Py.truthy (row_size details));
    destruct (Py.truthy (row_offset details));
    repeat (destruct (InteractiveSleuth.parse_num int0 _));
    intros [=]; subst; done.
Qed.

Lemma parse_num_hex_literal (int0 : string -> option Z) z :
  reads_hex int0 -> 0 <= z ->
  InteractiveSleuth.parse_num int0 (PyStr.hex_literal z) = inr z.
Proof.
  intros Hhex Hz. unfold InteractiveSleuth.parse_num.
  rewrite strip_hex_literal, Hhex; done.
Qed.

Lemma reconcile_declares (int0 : string -> option Z) self bd name absolute size
    details out self' :
  reads_hex int0 -> 0 <= absolute -> 0 <= size ->
  wf_structures (structures self) ->
  Dict.get name (structures self) = Some details ->
  InteractiveSleuth.reconcile int0 self bd name absolute size = (out, self') ->
  exists details',
    Dict.get name (structures self') = Some details' /\
    InteractiveSleuth.csv_values int0 details' = (Some size, Some absolute).
Proof.
  intros Hhex Ha Hs Hwf Hg. unfold InteractiveSleuth.reconcile. rewrite Hg.
  destruct (InteractiveSleuth.csv_values int0 details) as [csv_size csv_offset] eqn:Hcsv.
  destruct (InteractiveSleuth.mismatch csv_size csv_offset size absolute) eqn:Hm;
    intros [= <- <-].
  - exists (corrected_row details name absolute size). split.
    + cbn [structures InteractiveSleuth.load_csv set_structures].
      rewrite updated_rows_load by done.
      destruct Hwf as [_ Hall]. rewrite corrected_schema_get by done.
      by rewrite String.eqb_refl, Hg.
    + unfold InteractiveSleuth.csv_values, corrected_row.
      cbn [row_size row_offset]. cbn [PyStr.hex_literal Py.truthy].
      change (String "0" (String "x" (PyStr.format_X size)))
        with (PyStr.hex_literal size).
      change (String "0" (String "x" (PyStr.format_X absolute)))
        with (PyStr.hex_literal absolute).
      by rewrite !parse_num_hex_literal.
  - exists details. split; [done|]. rewrite Hcsv.
    unfold InteractiveSleuth.mismatch in Hm.
    apply orb_false_iff in Hm as [Hm1 Hm2].
    destruct csv_size as [v1|]; [|discriminate].
    destruct csv_offset as [v2|]; [|discriminate].
    apply negb_false_iff, Z.eqb_eq in Hm1, Hm2. by subst.
Qed.

Lemma reconcile_settled (int0 : string -> option Z) self bd name absolute size details :
  Dict.get name (structures self) = Some details ->
  InteractiveSleuth.csv_values int0 details = (Some size, Some absolute) ->
  InteractiveSleuth.reconcile int0 self bd name absolute size
  = (InteractiveSleuth.Analyzed absolute size None
       ((absolute <? 0) || (absolute + size >? Py.len bd)), self).
Proof.
  intros Hg Hcsv. unfold InteractiveSleuth.reconcile. rewrite Hg, Hcsv.
  unfold InteractiveSleuth.mismatch. by rewrite !Z.eqb_refl.
Qed.

(** Where [analyze_rel] leaves the session when it reached the
    comparison. *)
Lemma analyze_rel_post (int0 : string -> option Z) self name absolute size
    updated out_of_range self' :
  reads_hex int0 -> 0 <= absolute -> 0 <= size ->
  wf_structures (structures self) ->
  InteractiveSleuth.analyze_rel int0 self name
    = Some (InteractiveSleuth.Analyzed absolute size updated out_of_range, self') ->
  exists bd details',
    binary_data self = Some bd /\
    binary_data self' = Some bd /\
    out_of_range = (absolute <? 0) || (absolute + size >? Py.len bd) /\
    resolved_offsets self' !! name = Some absolute /\
    Dict.get name (structures self') = Some details' /\
    InteractiveSleuth.csv_values int0 details' = (Some size, Some absolute) /\
    (resolved_sizes self' !! name = Some size \/
     resolved_sizes self' !! name = None /\
     (absolute - 4 <? 0) || (absolute - 4 + 4 >? Py.len bd) = false /\
     (absolute + 4 <=? Py.len bd) = false /\
     size = Py.from_bytes_little (Py.slice bd (absolute - 4) (absolute - 4 + 4))).
Proof.
  intros Hhex Ha Hs Hwf H. unfold InteractiveSleuth.analyze_rel in H.
  destruct (binary_data self) as [bd|] eqn:Hbd; [|by simplify_eq].
  destruct (Dict.get name (structures self)) as [details|] eqn:Hg; [|by simplify_eq].
  destruct (InteractiveSleuth._resolve_offset_recursive int0 self name)
    as [[[e|resolved] self1]|] eqn:E; [by simplify_eq| |discriminate].
  pose proof (resolve_rec_result _ _ _ _ _ _ _ _ _ E) as Hres.
  apply resolve_rec_env in E as [Hst Hb].
  rewrite <- Hst in Hwf, Hg. rewrite <- Hb in Hbd.
  assert (Hfin : forall s2 a sz,
    structures s2 = structures self1 -> binary_data s2 = binary_data self1 ->
    InteractiveSleuth.reconcile int0 s2 bd name a sz
      = (InteractiveSleuth.Analyzed absolute size updated out_of_range, self') ->
    a = absolute /\ sz = size /\
    out_of_range = (absolute <? 0) || (absolute + size >? Py.len bd) /\
    resolved_offsets self' = resolved_offsets s2 /\
    resolved_sizes self' = resolved_sizes s2 /\
    binary_data self' = Some bd /\
    exists details',
      Dict.get name (structures self') = Some details' /\
      InteractiveSleuth.csv_values int0 details' = (Some size, Some absolute)).
  { intros s2 a sz Hs2 Hb2 Hr.
    assert (a = absolute /\ sz = size /\
            out_of_range = (absolute <? 0) || (absolute + size >? Py.len bd))
      as (-> & -> & ->).
    { unfold InteractiveSleuth.reconcile in Hr.
      repeat case_match; by simplify_eq. }
    destruct (reconcile_caches _ _ _ _ _ _ _ _ Hr) as (Ho & Hsz & Hbin).
    repeat split; try done; [congruence|].
    eapply (reconcile_declares int0 s2 bd name absolute size details);
      [done|done|done|by rewrite Hs2|by rewrite Hs2|exact Hr]. }
  exists bd.
  destruct (resolved_sizes self1 !! name) as [sz|] eqn:Hsz.
  - simplify_eq.
    destruct (Hfin self1 _ _ eq_refl eq_refl H)
      as (-> & -> & Hoor & Ho & Hs' & Hbin & details' & Hg' & Hcsv).
    exists details'. repeat split; try done.
    + by rewrite Ho.
    + left. by rewrite Hs'.
  - destruct ((resolved - 4 <? 0) || (resolved - 4 + 4 >? Py.len bd)) eqn:Hrange;
      [discriminate|].
    destruct (resolved + 4 <=? Py.len bd) eqn:Hroom; simplify_eq.
    + destruct (Hfin _ _ _
                  (eq_refl : structures (set_size name _ (set_offset name _ self1))
                             = structures self1) eq_refl H)
        as (<- & <- & Hoor & Ho & Hs' & Hbin & details' & Hg' & Hcsv).
      exists details'. repeat split; try done.
      * rewrite Ho. cbn. by rewrite lookup_insert_eq.
      * left. rewrite Hs'. cbn. by rewrite lookup_insert_eq.
    + destruct (Hfin self1 _ _ eq_refl eq_refl H)
        as (-> & <- & Hoor & Ho & Hs' & Hbin & details' & Hg' & Hcsv).
      exists details'. repeat split; try done.
      * by rewrite Ho.
      * right. repeat split; try done. by rewrite Hs'.
Qed.

(** X15: the reconciler settles in one step.  When [analyze_rel] has
    compared a structure, with an offset and a size that are not
    negative, a second [analyze_rel] of the same structure reports the
    same offset, size and range flag, writes no corrected profile and
    leaves the session as it is. *)
Theorem X15_reconciler_settles (int0 : string -> option Z) self name absolute size
    updated out_of_range self' :
  reads_hex int0 -> 0 <= absolute -> 0 <= size ->
  wf_structures (structures self) ->
  InteractiveSleuth.analyze_rel int0 self name
    = Some (InteractiveSleuth.Analyzed absolute size updated out_of_range, self') ->
  InteractiveSleuth.analyze_rel int0 self' name
    = Some (InteractiveSleuth.Analyzed absolute size None out_of_range, self').
Proof.
  intros Hhex Ha Hs Hwf H.
  destruct (analyze_rel_post _ _ _ _ _ _ _ _ Hhex Ha Hs Hwf H)
    as (bd & details' & _ & Hbd & -> & Ho & Hg & Hcsv & Hsz).
  unfold InteractiveSleuth.analyze_rel. rewrite Hbd, Hg.
  unfold InteractiveSleuth._resolve_offset_recursive, resolve.
  rewrite (resolve_rec_cached _ _ _ _ _ _ _ _ Ho).
  destruct Hsz as [Hsz|(Hsz & Hrange & Hroom & Hsize)].
  - rewrite Hsz. f_equal. by eapply reconcile_settled.
  - rewrite Hsz, Hrange, Hroom, <- Hsize. f_equal. by eapply reconcile_settled.
Qed.

Lemma X15_reconciler_settles_witness :
  InteractiveSleuth.analyze_rel PyStr.int0 repl_x4_analyzed "X"
    = Some (InteractiveSleuth.Analyzed 32 16 None false, repl_x4_analyzed).
Proof.
  apply (X15_reconciler_settles PyStr.int0 repl_x4_resolved "X" 32 16
           (Some [Row "X" "0x20" "0x10" blank blank]) false repl_x4_analyzed).
  - exact int0_hex_literal.
  - lia.
  - lia.
  - split; [repeat constructor; set_solver|repeat constructor].
  - reflexivity.
Defined.

(** ** Views and extracts *)

Lemma slice_length {A} (l : list A) (a b : Z) :
  0 <= a -> a <= b ->
  Py.len (Py.slice l a b) = Z.max 0 (Z.min b (Py.len l) - a).
Proof.
  intros Ha Hab. unfold Py.slice, Py.adjust, Py.len.
  destruct (Z.ltb_spec a 0); [lia|]. destruct (Z.ltb_spec b 0); [lia|].
  rewrite length_take, length_drop. lia.
Qed.



(** X17: [dump_slice] writes a file exactly when the region starts at a
    position that is not negative and ends inside the image; for a size
    that is not negative the file then holds exactly [size] bytes, the
    bytes of the region. *)
Theorem X17_dump_slice_exact self bd offset size :
  binary_data self = Some bd ->
  0 <= size ->
  (forall data_slice,
     InteractiveSleuth_views.dump_slice self offset size
       = InteractiveSleuth_views.Dump_wrote data_slice <->
     0 <= offset /\ offset + size <= Py.len bd /\
     data_slice = firstn (Z.to_nat size) (skipn (Z.to_nat offset) bd)) /\
  (forall data_slice,
     InteractiveSleuth_views.dump_slice self offset size
       = InteractiveSleuth_views.Dump_wrote data_slice ->
     Py.len data_slice = size) /\
  (InteractiveSleuth_views.dump_slice self offset size
     = InteractiveSleuth_views.Dump_out_of_bounds <->
   offset < 0 \/ Py.len bd < offset + size).
Proof.
  intros Hbd Hs. unfold InteractiveSleuth_views.dump_slice. rewrite Hbd.
  destruct (Z.ltb_spec offset 0);
    destruct (Z.gtb_spec (offset + size) (Py.len bd)); cbn [orb].
  1-3: split; [split; [discriminate|lia]|split; [discriminate|split; [lia|done]]].
  assert (Hsl : Py.slice bd offset (offset + size)
                = firstn (Z.to_nat size) (skipn (Z.to_nat offset) bd)).
  { rewrite slice_in_range by lia. do 2 f_equal. lia. }
  split; [|split].
  - intros data_slice. split.
    + intros [= <-]. done.
    + intros (_ & _ & ->). by rewrite Hsl.
  - intros data_slice [= <-]. rewrite slice_length by lia. lia.
  - split; [discriminate|lia].
Qed.

Lemma X17_dump_slice_exact_witness :
  Py.len [x20; x00; x00; x00]%byte = 4.
Proof.
  apply (proj1 (proj2 (X17_dump_slice_exact repl_x4 image_child 4 4 eq_refl ltac:(lia)))).
  reflexivity.
Defined.

(** With a negative size the check of [dump_slice] passes and the slice
    counts its end from the end of the image: on the 16 bytes of
    [image_8_4], offset 2 and size -5 write the eleven bytes of [2,13). *)
Example dump_slice_negative_size :
  InteractiveSleuth_views.dump_slice repl_x4_small 2 (-5)
  = InteractiveSleuth_views.Dump_wrote
      [x00; x00; x08; x00; x00; x00; x00; x00; x00; x00; x04]%byte.
Proof. reflexivity. Qed.

(** X18: [analyze_abs] agrees with [analyze_rel] once the latter has run.
    After [analyze_rel] has compared a structure, with an offset and a
    size that are not negative, [analyze_abs] of the same structure shows
    the region that [analyze_rel] reported, with the same range warning,
    and extracts that region. *)
Theorem X18_analyze_abs_after_analyze_rel (int0 : string -> option Z)
    self name absolute size updated out_of_range self' width extract :
  reads_hex int0 -> 0 <= absolute -> 0 <= size ->
  wf_structures (structures self) ->
  InteractiveSleuth.analyze_rel int0 self name
    = Some (InteractiveSleuth.Analyzed absolute size updated out_of_range, self') ->
  exists bd,
    binary_data self' = Some bd /\
    InteractiveSleuth_views.analyze_abs int0 self' name width extract
    = match Hexdump.hexdump_width (Py.slice bd absolute (absolute + size))
              absolute width with
      | None => InteractiveSleuth_views.Abs_zero_width absolute size out_of_range
      | Some text =>
          InteractiveSleuth_views.Abs_shown absolute size out_of_range text
            (if extract
             then Some (InteractiveSleuth_views.dump_slice self' absolute size)
             else None)
      end.
Proof.
  intros Hhex Ha Hs Hwf H.
  destruct (analyze_rel_post _ _ _ _ _ _ _ _ Hhex Ha Hs Hwf H)
    as (bd & details' & _ & Hbd & -> & _ & Hg & Hcsv & _).
  exists bd. split; [exact Hbd|].
  apply csv_values_Some in Hcsv as (Hto & Hpo & Hts & Hps).
  unfold InteractiveSleuth_views.analyze_abs.
  rewrite Hg, Hto, Hpo, Hts, Hps, Hbd. reflexivity.
Qed.

Lemma X18_analyze_abs_after_analyze_rel_witness :
  exists bd,
    binary_data repl_x4_analyzed = Some bd /\
    InteractiveSleuth_views.analyze_abs PyStr.int0 repl_x4_analyzed "X" 16 true
    = match Hexdump.hexdump_width (Py.slice bd 32 (32 + 16)) 32 16 with
      | None => InteractiveSleuth_views.Abs_zero_width 32 16 false
      | Some text =>
          InteractiveSleuth_views.Abs_shown 32 16 false text
            (if true
             then Some (InteractiveSleuth_views.dump_slice repl_x4_analyzed 32 16)
             else None)
      end.
Proof.
  apply (X18_analyze_abs_after_analyze_rel PyStr.int0 repl_x4_resolved "X" 32 16
           (Some [Row "X" "0x20" "0x10" blank blank]) false repl_x4_analyzed 16 true).
  - exact int0_hex_literal.
  - lia.
  - lia.
  - split; [repeat constructor; set_solver|repeat constructor].
  - reflexivity.
Defined.

(** ** [hexdump] *)

Lemma slice_nonneg {A} (l : list A) (a b : Z) :
  0 <= a -> a <= b ->
  Py.slice l a b = firstn (Z.to_nat (b - a)) (skipn (Z.to_nat a) l).
Proof.
  intros Ha Hab. unfold Py.slice, Py.adjust, Py.len.
  destruct (Z.ltb_spec a 0); [lia|]. destruct (Z.ltb_spec b 0); [lia|].
  destruct (Z.le_gt_cases a (Z.of_nat (length l))) as [Hle|Hgt].
  - rewrite (Z.min_l a) by lia.
    destruct (Z.le_gt_cases b (Z.of_nat (length l))).
    + by rewrite Z.min_l by lia.
    + rewrite Z.min_r by lia.
      rewrite !take_ge; [done|rewrite length_drop; lia|rewrite length_drop; lia].
  - rewrite !Z.min_r by lia.
    rewrite !drop_ge by lia. by rewrite !take_nil.
Qed.

Lemma chunks_take (data : list byte) (width : Z) (k : nat) :
  0 < width ->
  concat (map (fun i => Hexdump.chunk data width (Z.of_nat i * width)) (seq 0 k))
  = firstn (Z.to_nat (Z.of_nat k * width)) data.
Proof.
  intros Hw. induction k as [|k IH]; [done|].
  rewrite seq_S, map_app, concat_app, IH. cbn [map concat plus].
  rewrite app_nil_r. unfold Hexdump.chunk.
  rewrite slice_nonneg by lia.
  replace (Z.to_nat (Z.of_nat k * width + width - Z.of_nat k * width))
    with (Z.to_nat width) by lia.
  rewrite take_take_drop. f_equal. lia.
Qed.

(** X19: for a positive width [hexdump] prints one line per chunk of
    [width] bytes, the last one possibly shorter: the lines start at the
    positions 0, [width], 2 [width], ..., there are as many as the length
    divided by the width, rounded up, and the chunks put end to end are
    the data.  A zero width raises, and a negative width prints nothing. *)
Theorem X19_hexdump_covers_data (data : list byte) (start_offset : Z) :
  Hexdump.hexdump_width data start_offset 0 = None /\
  (forall width, width < 0 ->
     Hexdump.hexdump_width data start_offset width = Some EmptyString) /\
  (forall width, 0 < width ->
     let count := Z.to_nat ((Py.len data + width - 1) / width) in
     let idx := map (fun k => Z.of_nat k * width) (seq 0 count) in
     Hexdump.lines data start_offset width
       = Some (map (Hexdump.line data start_offset width) idx) /\
     concat (map (Hexdump.chunk data width) idx) = data).
Proof.
  split; [reflexivity|]. split.
  - intros width Hw. unfold Hexdump.hexdump_width, Hexdump.lines, PyFmt.range0.
    destruct (Z.eqb_spec width 0); [lia|].
    destruct (Z.ltb_spec 0 width); [lia|].
    replace (Z.to_nat ((- Py.len data + - width - 1) / - width)) with 0%nat; [done|].
    assert ((- Py.len data + - width - 1) / - width < 1); [|lia].
    unfold Py.len. apply Z.div_lt_upper_bound; lia.
  - intros width Hw count idx. split.
    + unfold Hexdump.lines, PyFmt.range0.
      destruct (Z.eqb_spec width 0); [lia|].
      destruct (Z.ltb_spec 0 width); [done|lia].
    + unfold idx. rewrite map_map. rewrite chunks_take by done.
      apply take_ge. unfold count, Py.len.
      pose proof (Z.div_mod (Z.of_nat (length data) + width - 1) width ltac:(lia)).
      pose proof (Z.mod_pos_bound (Z.of_nat (length data) + width - 1) width Hw).
      assert (0 <= (Z.of_nat (length data) + width - 1) / width)
        by (apply Z.div_pos; lia).
      nia.
Qed.

Lemma X19_hexdump_covers_data_witness :
  let count := Z.to_nat ((Py.len image_8_4 + 16 - 1) / 16) in
  let idx := map (fun k => Z.of_nat k * 16) (seq 0 count) in
  Hexdump.lines image_8_4 0 16 = Some (map (Hexdump.line image_8_4 0 16) idx) /\
  concat (map (Hexdump.chunk image_8_4 16) idx) = image_8_4.
Proof.
  apply (proj2 (proj2 (X19_hexdump_covers_data image_8_4 0)) 16). lia.
Defined.

Example hexdump_example :
  Hexdump.hexdump image_8_4 64
  = "0x00000040 | FF 00 00 00 08 00 00 00 00 00 00 00 04 00 00 00  | ................".
Proof. reflexivity. Qed.

(** ** Ancestors *)

Lemma resolve_rec_ancestors
    (parse_offset parse_rOffset : string -> string -> result Z)
    (read_metadata : option (list byte) -> Z -> result (Z * Z))
    fuel self name visited v self' k :
  resolve_rec parse_offset parse_rOffset read_metadata fuel self name visited
    = Some (inr v, self') ->
  rtc (parent_edge self) name k ->
  is_Some (resolved_offsets self' !! k).
Proof.
  revert name visited v self'.
  induction fuel as [|fuel IH]; intros name visited v self' H Hrtc; [discriminate|].
  apply rtc_inv in Hrtc as [<-|(y & Hedge & Hrtc)].
  { exists v. eapply resolve_rec_result. exact H. }
  destruct Hedge as (Hc & structure & Hg & Ho & Hrp & <-).
  cbn [resolve_rec] in H. rewrite Hc, Hg, Ho, Hrp in H.
  destruct (decide (name ∈ visited)); [discriminate|].
  destruct (parse_rOffset name (row_rOffset structure)); [discriminate|].
  destruct (resolve_rec _ _ _ fuel self (row_parent structure) ({[name]} ∪ visited))
    as [[[e|parent_offset] self1]|] eqn:E; try discriminate.
  destruct (IH _ _ _ _ E Hrtc) as [w Hw].
  destruct (read_metadata _ _) as [?|[? ?]]; simplify_eq; cbn.
  all: destruct (decide (name = k)) as [->|Hne];
    [rewrite lookup_insert_eq; eauto|rewrite lookup_insert_ne by done; eauto].
Qed.

(** X20: a resolution that returns has resolved the whole chain: every
    structure reached from the requested one along parent links of
    uncached relative descriptors has a resolved offset afterwards. *)
Theorem X20_ancestors_are_cached
    (parse_offset parse_rOffset : string -> string -> result Z)
    (read_metadata : option (list byte) -> Z -> result (Z * Z))
    self name v self' k :
  resolve parse_offset parse_rOffset read_metadata self name = Some (inr v, self') ->
  rtc (parent_edge self) name k ->
  is_Some (resolved_offsets self' !! k).
Proof. intros H. unfold resolve in H. by eapply resolve_rec_ancestors. Qed.

Lemma X20_ancestors_are_cached_witness :
  is_Some (resolved_offsets
             (set_size "Child" 16 (set_offset "Child" 32 (set_offset "Root" 0 batch_example)))
             !! "Root").
Proof.
  apply (X20_ancestors_are_cached
           (SleuthParser.parse_offset PyStr.int0)
           (SleuthParser.parse_rOffset PyStr.int0)
           SleuthParser._read_metadata batch_example "Child" 32 _ "Root").
  - reflexivity.
  - apply rtc_once. split; [reflexivity|].
    exists (Row "Child" blank blank "0x8" "Root"). repeat split.
Defined.

(** ** The two resolvers side by side *)

Lemma resolve_rec_agree
    (po1 pr1 po2 pr2 : string -> string -> result Z)
    (rm1 rm2 : option (list byte) -> Z -> result (Z * Z)) fuel self name visited :
  (forall n structure,
     Dict.get n (structures self) = Some structure ->
     agree (po1 n (row_offset structure)) (po2 n (row_offset structure)) /\
     agree (pr1 n (row_rOffset structure)) (pr2 n (row_rOffset structure))) ->
  (forall m, agree (rm1 (binary_data self) m) (rm2 (binary_data self) m)) ->
  same_outcome (resolve_rec po1 pr1 rm1 fuel self name visited)
               (resolve_rec po2 pr2 rm2 fuel self name visited).
Proof.
  intros Hp Hm. revert name visited.
  induction fuel as [|fuel IH]; intros name visited; [done|].
  cbn [resolve_rec].
  destruct (resolved_offsets self !! name); [done|].
  destruct (decide (name ∈ visited)); [done|].
  destruct (Dict.get name (structures self)) as [structure|] eqn:Hg; [|done].
  destruct (Hp _ _ Hg) as [Hpo Hpr].
  destruct (Py.truthy (row_offset structure)).
  { destruct (po1 name (row_offset structure)), (po2 name (row_offset structure));
      cbn in Hpo; try done. by subst. }
  destruct (_ && _); [|done].
  destruct (pr1 name (row_rOffset structure)) as [e1|r1],
           (pr2 name (row_rOffset structure)) as [e2|r2]; cbn in Hpr; try done.
  subst r2. specialize (IH (row_parent structure) ({[name]} ∪ visited)).
  destruct (resolve_rec po1 pr1 rm1 fuel self (row_parent structure) ({[name]} ∪ visited))
    as [[[e1|v1] s1]|] eqn:E1,
    (resolve_rec po2 pr2 rm2 fuel self (row_parent structure) ({[name]} ∪ visited))
    as [[[e2|v2] s2]|] eqn:E2; cbn in IH; try done; destruct IH as [Hv <-]; try done.
  subst v2. apply resolve_rec_env in E1 as [_ Hb]. rewrite Hb.
  specialize (Hm (v1 + r1)).
  destruct (rm1 (binary_data self) (v1 + r1)) as [?|[p1 z1]],
           (rm2 (binary_data self) (v1 + r1)) as [?|[p2 z2]]; cbn in Hm; try done.
  by simplify_eq.
Qed.

Lemma probes_agree_without_8_4 (bd : list byte) (meta_ptr : Z) :
  (forall p s,
     InteractiveSleuth_probe._read_metadata_exit (Some bd) meta_ptr <> Return_8_4 p s) ->
  agree (SleuthParser_probe._read_metadata bd meta_ptr)
        (InteractiveSleuth_probe._read_metadata (Some bd) meta_ptr).
Proof.
  unfold SleuthParser_probe._read_metadata, InteractiveSleuth_probe._read_metadata,
    SleuthParser_probe._read_metadata_exit, InteractiveSleuth_probe._read_metadata_exit.
  cbv zeta. intros Hno.
  destruct (Z.ltb_spec meta_ptr 0); [done|].
  destruct (Z.geb_spec meta_ptr (Py.len bd));
    destruct (Z.gtb_spec (meta_ptr + 8) (Py.len bd));
    destruct (Z.leb_spec (meta_ptr + 8) (Py.len bd)); cbn [orb] in *;
    try lia; try done.
  destruct (in_image _ _ _); [done|].
  destruct (meta_ptr + 12 <=? Py.len bd); [|done].
  match goal with |- context [if ?b then _ else _] => destruct b end; [|done].
  exfalso. by eapply Hno.
Qed.

Lemma parse_num_stripped (int0 : string -> option Z) s :
  PyStr.strip s = s ->
  InteractiveSleuth.parse_num int0 s
  = match int0 s with Some v => inr v | None => inl (ValueError (InvalidNumber s)) end.
Proof. intros Hs. unfold InteractiveSleuth.parse_num. by rewrite Hs. Qed.

Lemma get_stripped name d v :
  stripped d -> Dict.get name d = Some v -> SleuthParser.clean_row v = v.
Proof.
  intros Hall. induction d as [|[k w] d IH]; [done|]. cbn.
  inversion Hall; subst.
  destruct (String.eqb_spec k name) as [->|Hne]; [by intros [= <-]|by apply IH].
Qed.

Lemma short_image_no_8_4 (bd : list byte) (meta_ptr p s : Z) :
  Py.len bd < 12 ->
  InteractiveSleuth_probe._read_metadata_exit (Some bd) meta_ptr <> Return_8_4 p s.
Proof.
  intros Hlen. unfold InteractiveSleuth_probe._read_metadata_exit. cbv zeta.
  destruct (Z.ltb_spec meta_ptr 0); [done|]. cbn [orb].
  destruct (_ >? _); [done|].
  destruct (in_image _ _ _); [done|].
  destruct (Z.leb_spec (meta_ptr + 12) (Py.len bd)); [lia|done].
Qed.

(** X21: the two resolvers differ only through the 8+4 layout.  On a
    schema whose cells are stripped, as both loaders leave them, and an
    image on which the interactive probe never takes the 8+4 exit, the
    batch resolver and the interactive resolver end alike for every name:
    both return the same offset or both raise, and both leave the same
    session. *)
Theorem X21_resolvers_agree (int0 : string -> option Z) self name :
  stripped (structures self) ->
  (forall meta_ptr p s,
     InteractiveSleuth_probe._read_metadata_exit (binary_data self) meta_ptr
       <> Return_8_4 p s) ->
  exists r1 r2 self',
    SleuthParser._get_absolute_offset int0 self name = Some (r1, self') /\
    InteractiveSleuth._resolve_offset_recursive int0 self name = Some (r2, self') /\
    agree r1 r2.
Proof.
  intros Hst Hno.
  assert (Hp : forall n structure,
    Dict.get n (structures self) = Some structure ->
    agree (SleuthParser.parse_offset int0 n (row_offset structure))
          (InteractiveSleuth.parse_num int0 (row_offset structure)) /\
    agree (SleuthParser.parse_rOffset int0 n (row_rOffset structure))
          (InteractiveSleuth.parse_num int0 (row_rOffset structure))).
  { intros n structure Hg.
    apply (get_stripped _ _ _ Hst) in Hg.
    destruct structure as [nm o sz r p]. unfold SleuthParser.clean_row in Hg.
    cbn [row_name row_offset row_size row_rOffset row_parent] in Hg |- *.
    injection Hg as _ Ho _ Hr _.
    rewrite !parse_num_stripped by done.
    unfold SleuthParser.parse_offset, SleuthParser.parse_rOffset.
    split; [by destruct (int0 o)|by destruct (int0 r)]. }
  assert (Hm : forall m,
    agree (SleuthParser._read_metadata (binary_data self) m)
          (InteractiveSleuth._read_metadata (binary_data self) m)).
  { intros m. unfold SleuthParser._read_metadata, InteractiveSleuth._read_metadata.
    destruct (binary_data self) as [bd|]; [|done].
    apply probes_agree_without_8_4. intros p s. apply Hno. }
  pose proof (resolve_rec_agree
                (SleuthParser.parse_offset int0) (SleuthParser.parse_rOffset int0)
                (fun _ => InteractiveSleuth.parse_num int0)
                (fun _ => InteractiveSleuth.parse_num int0)
                SleuthParser._read_metadata InteractiveSleuth._read_metadata
                (S (length (structures self))) self name ∅ Hp Hm) as Hag.
  destruct (resolve_total (SleuthParser.parse_offset int0)
              (SleuthParser.parse_rOffset int0) SleuthParser._read_metadata self name)
    as [[r1 s1] H1].
  unfold SleuthParser._get_absolute_offset, InteractiveSleuth._resolve_offset_recursive.
  unfold resolve in *. rewrite H1 in Hag |- *.
  destruct (resolve_rec _ _ InteractiveSleuth._read_metadata _ self name ∅)
    as [[r2 s2]|]; [|done].
  destruct Hag as [Hr <-]. exists r1, r2, s1. by repeat split.
Qed.

Lemma X21_resolvers_agree_witness :
  exists r1 r2 self',
    SleuthParser._get_absolute_offset PyStr.int0
      (InteractiveSleuth.load_binary zeros8
         (InteractiveSleuth.load_csv schema_child InteractiveSleuth.__init__))
      "Child" = Some (r1, self') /\
    InteractiveSleuth._resolve_offset_recursive PyStr.int0
      (InteractiveSleuth.load_binary zeros8
         (InteractiveSleuth.load_csv schema_child InteractiveSleuth.__init__))
      "Child" = Some (r2, self') /\
    agree r1 r2.
Proof.
  apply (X21_resolvers_agree PyStr.int0
           (InteractiveSleuth.load_binary zeros8
              (InteractiveSleuth.load_csv schema_child InteractiveSleuth.__init__))
           "Child").
  - repeat constructor.
  - intros meta_ptr p s. apply short_image_no_8_4. vm_compute. reflexivity.
Defined.

(** ** The fallback and the size cache *)

Lemma resolve_all_loop_sizes_dom
    (parse_offset parse_rOffset : string -> string -> result Z)
    (read_metadata : option (list byte) -> Z -> result (Z * Z)) names self r self' :
  resolve_all_loop parse_offset parse_rOffset read_metadata names self = Some (r, self') ->
  dom (resolved_sizes self) ⊆ dom (resolved_offsets self) ->
  dom (resolved_sizes self') ⊆ dom (resolved_offsets self').
Proof.
  revert self. induction names as [|name names IH]; intros self H Hd;
    cbn [resolve_all_loop] in H.
  - by simplify_eq.
  - destruct (resolved_offsets self !! name); [eauto|].
    destruct (resolve parse_offset parse_rOffset read_metadata self name)
      as [[[e|v] self1]|] eqn:E; [| |discriminate].
    + simplify_eq. eapply resolve_rec_sizes_dom; eassumption.
    + eapply IH; [eassumption|]. eapply resolve_rec_sizes_dom; eassumption.
Qed.

Lemma batch_run_sizes_dom (int0 : string -> option Z) calls self self' :
  batch_run int0 calls self = Some self' ->
  dom (resolved_sizes self) ⊆ dom (resolved_offsets self) ->
  dom (resolved_sizes self') ⊆ dom (resolved_offsets self').
Proof.
  revert self. induction calls as [|[name|] calls IH]; intros self H Hd;
    cbn [batch_run] in H.
  - by simplify_eq.
  - destruct (SleuthParser._get_absolute_offset int0 self name)
      as [[r self1]|] eqn:E; [|discriminate].
    eapply IH; [eassumption|]. eapply resolve_rec_sizes_dom; eassumption.
  - destruct (SleuthParser.resolve_all_offsets int0 self)
      as [[r self1]|] eqn:E; [|discriminate].
    eapply IH; [eassumption|]. eapply resolve_all_loop_sizes_dom; eassumption.
Qed.

(** X22: the fallback of the resolver.  For a relative descriptor that
    is not cached, whose parent resolves to [parent_offset] (the
    recursive call of the resolver, with the name on the path), a probe
    at [parent_offset + rOffset] that raises, whatever the exception,
    makes [resolve] return [parent_offset + rOffset]: the value is cached
    under the name, no exception leaves [resolve], and the size cache is
    left as the resolution of the parent left it, with the entry of the
    name as it was before the call.  In a session where only names with a
    cached offset have a cached size the name then has no discovered
    size, and the session is again of that kind.  Every session of the
    batch parser is of that kind, whatever calls were made on it. *)
Theorem X22_probe_failure_falls_back :
  (forall (parse_offset parse_rOffset : string -> string -> result Z)
          (read_metadata : option (list byte) -> Z -> result (Z * Z))
          self name structure r_offset parent_offset self1 e,
     resolved_offsets self !! name = None ->
     Dict.get name (structures self) = Some structure ->
     Py.truthy (row_offset structure) = false ->
     Py.truthy (row_rOffset structure) = true ->
     Py.truthy (row_parent structure) = true ->
     parse_rOffset name (row_rOffset structure) = inr r_offset ->
     resolves parse_offset parse_rOffset read_metadata self
       (row_parent structure) {[name]} (inr parent_offset, self1) ->
     read_metadata (binary_data self1) (parent_offset + r_offset) = inl e ->
     let meta_ptr := parent_offset + r_offset in
     exists self',
       resolve parse_offset parse_rOffset read_metadata self name
         = Some (inr meta_ptr, self') /\
       resolved_offsets self' = <[name := meta_ptr]> (resolved_offsets self1) /\
       resolved_sizes self' = resolved_sizes self1 /\
       resolved_sizes self' !! name = resolved_sizes self !! name /\
       (dom (resolved_sizes self) ⊆ dom (resolved_offsets self) ->
        resolved_sizes self' !! name = None /\
        dom (resolved_sizes self') ⊆ dom (resolved_offsets self'))) /\
  (forall int0 binary rows calls self,
     batch_run int0 calls (SleuthParser.__init__ binary rows) = Some self ->
     dom (resolved_sizes self) ⊆ dom (resolved_offsets self)).
Proof.
  split.
  - intros parse_offset parse_rOffset read_metadata
      self name structure r_offset parent_offset self1 e
      Hc Hg Ho Hr Hp Hparse [fuel Hrec] Hprobe meta_ptr.
    assert (Hrun : resolve parse_offset parse_rOffset read_metadata self name
                   = Some (inr meta_ptr, set_offset name meta_ptr self1)).
    { apply resolve_resolves. exists (S fuel). cbn [resolve_rec].
      rewrite Hc, Hg, Ho, Hr, Hp, Hparse. cbn [andb].
      rewrite decide_False by set_solver.
      rewrite (right_id_L ∅ (∪)), Hrec, Hprobe. reflexivity. }
    assert (Hsz : resolved_sizes self1 !! name = resolved_sizes self !! name).
    { eapply resolve_rec_visited in Hrec as [_ Hs]; [exact Hs|set_solver]. }
    exists (set_offset name meta_ptr self1).
    split; [exact Hrun|]. split; [reflexivity|]. split; [reflexivity|].
    split; [exact Hsz|]. intros Hd. split.
    + cbn. rewrite Hsz. apply not_elem_of_dom.
      apply not_elem_of_dom in Hc. set_solver.
    + unfold resolve in Hrun. eapply resolve_rec_sizes_dom; eassumption.
  - intros int0 binary rows calls self H.
    eapply batch_run_sizes_dom; [exact H|]. cbn. set_solver.
Qed.

Lemma X22_probe_failure_falls_back_witness :
  exists self',
    SleuthParser._get_absolute_offset PyStr.int0 batch_flat "Child"
      = Some (inr (0 + 8), self') /\
    resolved_offsets self'
      = <["Child" := 0 + 8]> (resolved_offsets (set_offset "Root" 0 batch_flat)) /\
    resolved_sizes self' = resolved_sizes (set_offset "Root" 0 batch_flat) /\
    resolved_sizes self' !! "Child" = resolved_sizes batch_flat !! "Child" /\
    (dom (resolved_sizes batch_flat) ⊆ dom (resolved_offsets batch_flat) ->
     resolved_sizes self' !! "Child" = None /\
     dom (resolved_sizes self') ⊆ dom (resolved_offsets self')).
Proof.
  apply (proj1 X22_probe_failure_falls_back
           (SleuthParser.parse_offset PyStr.int0)
           (SleuthParser.parse_rOffset PyStr.int0)
           SleuthParser._read_metadata
           batch_flat "Child" (Row "Child" blank blank "0x8" "Root") 8 0
           (set_offset "Root" 0 batch_flat)
           (ValueError MetadataPointerOutOfRange));
    try reflexivity.
  exists 1%nat. reflexivity.
Defined.

(** ** Explicit offsets and the cache *)

Lemma list_loop_agrees
    (parse_offset parse_rOffset : string -> string -> result Z)
    (read_metadata : option (list byte) -> Z -> result (Z * Z)) names self lines self' :
  list_loop parse_offset parse_rOffset read_metadata names self = Some (lines, self') ->
  cache_agrees parse_offset self -> cache_agrees parse_offset self'.
Proof.
  revert self lines. induction names as [|name names IH]; intros self lines H Hag;
    cbn [list_loop] in H.
  - by simplify_eq.
  - destruct (resolve parse_offset parse_rOffset read_metadata self name)
      as [[r self1]|] eqn:E; [|discriminate].
    destruct (list_loop _ _ _ names self1) as [[ls self2]|] eqn:E2; [|discriminate].
    simplify_eq. eapply IH; [eassumption|].
    eapply resolve_rec_agrees; eassumption.
Qed.

Lemma list_command_agrees (int0 : string -> option Z) self lines self' :
  InteractiveSleuth.list_command int0 self = Some (lines, self') ->
  cache_agrees (fun _ => InteractiveSleuth.parse_num int0) self'.
Proof.
  unfold InteractiveSleuth.list_command.
  destruct (structures self) as [|kv d] eqn:Hs.
  - intros [= _ <-]. intros name structure L v Hg. by rewrite Hs in Hg.
  - destruct (list_loop _ _ _ _ _) as [[ls s2]|] eqn:E; [|discriminate].
    intros [= _ <-]. eapply list_loop_agrees; [exact E|].
    intros name structure L v _ _ _ Hc. cbn in Hc. by rewrite lookup_empty in Hc.
Qed.

Lemma declared_offset_Some (int0 : string -> option Z) details absolute :
  declared_offset int0 details = Some absolute ->
  Py.truthy (row_offset details) = true /\
  InteractiveSleuth.parse_num int0 (row_offset details) = inr absolute.
Proof.
  unfold declared_offset.
  destruct (Py.truthy (row_offset details)); [|discriminate].
  destruct (InteractiveSleuth.parse_num int0 (row_offset details)); [discriminate|].
  by intros [= ->].
Qed.

Lemma int0_rejects_negative_hex : rejects_negative_hex PyStr.int0.
Proof.
  intros z Hz. unfold PyStr.int0. rewrite strip_hex_literal.
  unfold PyStr.hex_literal, PyStr.format_X.
  destruct (Z.ltb_spec z 0); [|lia]. reflexivity.
Qed.

Lemma parse_num_negative_hex (int0 : string -> option Z) z :
  rejects_negative_hex int0 -> z < 0 ->
  InteractiveSleuth.parse_num int0 (PyStr.hex_literal z)
  = inl (ValueError (InvalidNumber (PyStr.hex_literal z))).
Proof.
  intros Hrej Hz. unfold InteractiveSleuth.parse_num.
  rewrite strip_hex_literal, Hrej by done. reflexivity.
Qed.

Lemma reconcile_agrees (int0 : string -> option Z) s2 bd name details absolute size
    out self' :
  reads_hex int0 -> rejects_negative_hex int0 ->
  wf_structures (structures s2) ->
  Dict.get name (structures s2) = Some details ->
  InteractiveSleuth.reconcile int0 s2 bd name absolute size = (out, self') ->
  resolved_offsets s2 !! name = Some absolute ->
  (forall k structure L v,
     k <> name ->
     Dict.get k (structures s2) = Some structure ->
     Py.truthy (row_offset structure) = true ->
     InteractiveSleuth.parse_num int0 (row_offset structure) = inr L ->
     resolved_offsets s2 !! k = Some v -> v = L) ->
  cache_agrees (fun _ => InteractiveSleuth.parse_num int0) self'.
Proof.
  intros Hhex Hrej Hwf Hg Hr Hc Hothers.
  destruct (reconcile_spec _ _ _ _ _ _ _ _ _ Hwf Hg Hr)
    as (updated & -> & Hiff & Hnone & Hsome).
  apply reconcile_caches in Hr as (Ho & _ & _).
  intros k structure L v Hgk Ht Hp Hck. rewrite Ho in Hck.
  destruct updated as [rows|].
  - destruct (Hsome ltac:(done)) as [_ Hst]. rewrite Hst in Hgk.
    destruct Hwf as [_ Hall].
    rewrite corrected_schema_get in Hgk by done.
    destruct (String.eqb_spec k name) as [->|Hne].
    + rewrite Hg in Hgk. cbn in Hgk. injection Hgk as <-.
      cbn [corrected_row row_offset] in Hp.
      destruct (Z.lt_ge_cases absolute 0).
      * rewrite parse_num_negative_hex in Hp by done. discriminate.
      * rewrite parse_num_hex_literal in Hp by done. congruence.
    + eapply Hothers; eassumption.
  - rewrite (Hnone eq_refl) in Hgk.
    destruct (decide (k = name)) as [->|Hne]; [|eapply Hothers; eassumption].
    rewrite Hg in Hgk. injection Hgk as <-.
    destruct (decide (declared_offset int0 details = Some absolute)) as [Hd|Hd].
    + apply declared_offset_Some in Hd as [_ Hd]. congruence.
    + exfalso. assert (Hn : (None : option (list row)) <> None); [|done].
      apply Hiff. by left.
Qed.

Lemma analyze_rel_agrees (int0 : string -> option Z) self name out self' :
  reads_hex int0 -> rejects_negative_hex int0 ->
  wf_structures (structures self) ->
  InteractiveSleuth.analyze_rel int0 self name = Some (out, self') ->
  cache_agrees (fun _ => InteractiveSleuth.parse_num int0) self ->
  cache_agrees (fun _ => InteractiveSleuth.parse_num int0) self'.
Proof.
  intros Hhex Hrej Hwf H Hag. unfold InteractiveSleuth.analyze_rel in H.
  destruct (binary_data self) as [bd|]; [|by simplify_eq].
  destruct (Dict.get name (structures self)) as [details|] eqn:Hg; [|by simplify_eq].
  destruct (InteractiveSleuth._resolve_offset_recursive int0 self name)
    as [[[e|resolved] self1]|] eqn:E; [| |discriminate].
  { simplify_eq. eapply resolve_rec_agrees; eassumption. }
  unfold InteractiveSleuth._resolve_offset_recursive, resolve in E.
  pose proof (resolve_rec_agrees _ _ _ _ _ _ _ _ _ E Hag) as Hag1.
  pose proof (resolve_rec_env _ _ _ _ _ _ _ _ _ E) as [Hs _].
  pose proof (resolve_rec_result _ _ _ _ _ _ _ _ _ E) as Hc.
  rewrite <- Hs in Hwf, Hg.
  assert (Hfin : forall s2 a sz,
    structures s2 = structures self1 ->
    resolved_offsets s2 !! name = Some a ->
    (forall k, k <> name -> resolved_offsets s2 !! k = resolved_offsets self1 !! k) ->
    InteractiveSleuth.reconcile int0 s2 bd name a sz = (out, self') ->
    cache_agrees (fun _ => InteractiveSleuth.parse_num int0) self').
  { intros s2 a sz Hs2 Hc2 Hk2 Hr.
    eapply (reconcile_agrees int0 s2 bd name details a sz); try eassumption.
    - by rewrite Hs2.
    - by rewrite Hs2.
    - intros k structure L v Hne Hgk Ht Hp Hck.
      rewrite Hs2 in Hgk. rewrite Hk2 in Hck by done. eapply Hag1; eassumption. }
  destruct (resolved_sizes self1 !! name) as [sz|].
  { injection H as H. eapply Hfin; [reflexivity|exact Hc|done|exact H]. }
  destruct ((resolved - 4 <? 0) || (resolved - 4 + 4 >? Py.len bd));
    [by simplify_eq|].
  destruct (resolved + 4 <=? Py.len bd).
  - injection H as H. eapply Hfin; [| | |exact H].
    + reflexivity.
    + cbn. by rewrite lookup_insert_eq.
    + intros k Hne. cbn. by rewrite lookup_insert_ne.
  - injection H as H. eapply Hfin; [reflexivity|exact Hc|done|exact H].
Qed.

Lemma list_command_wf (int0 : string -> option Z) self lines self' :
  InteractiveSleuth.list_command int0 self = Some (lines, self') ->
  wf_structures (structures self) -> wf_structures (structures self').
Proof.
  intros H Hwf. unfold InteractiveSleuth.list_command in H.
  destruct (structures self) eqn:Hd; [by simplify_eq; rewrite Hd|].
  destruct (list_loop _ _ _ _ _) as [[ls self2]|] eqn:E; [|discriminate].
  simplify_eq. apply list_loop_lines_cached in E as (_ & Hs & _).
  rewrite Hs. cbn. by rewrite Hd.
Qed.

Lemma analyze_rel_wf (int0 : string -> option Z) self name out self' :
  InteractiveSleuth.analyze_rel int0 self name = Some (out, self') ->
  wf_structures (structures self) -> wf_structures (structures self').
Proof.
  intros H Hwf. unfold InteractiveSleuth.analyze_rel in H.
  destruct (binary_data self) as [bd|]; [|by simplify_eq].
  destruct (Dict.get name (structures self)); [|by simplify_eq].
  destruct (InteractiveSleuth._resolve_offset_recursive int0 self name)
    as [[[e|absolute] self1]|] eqn:E; [| |discriminate].
  { simplify_eq. apply resolve_rec_env in E as [-> _]. done. }
  apply resolve_rec_env in E as [Hs _]. rewrite <- Hs in Hwf.
  repeat case_match; simplify_eq; try done.
  all: match goal with
       | Hr : InteractiveSleuth.reconcile _ _ _ _ _ _ = _ |- _ =>
           eapply reconcile_wf; [exact Hr|done]
       end.
Qed.

Lemma repl_run_settled (int0 : string -> option Z) cmds self self' :
  reads_hex int0 -> rejects_negative_hex int0 ->
  repl_run int0 cmds self = Some self' ->
  wf_structures (structures self) ->
  cache_agrees (fun _ => InteractiveSleuth.parse_num int0) self ->
  wf_structures (structures self') /\
  cache_agrees (fun _ => InteractiveSleuth.parse_num int0) self'.
Proof.
  intros Hhex Hrej. revert self.
  induction cmds as [|[binary| |name] cmds IH]; intros self H Hwf Hag;
    cbn [repl_run] in H.
  - by simplify_eq.
  - eapply IH; [exact H|exact Hwf|exact Hag].
  - destruct (InteractiveSleuth.list_command int0 self) as [[ls s1]|] eqn:E;
      [|discriminate].
    eapply IH; [exact H| |].
    + eapply list_command_wf; eassumption.
    + eapply list_command_agrees; eassumption.
  - destruct (InteractiveSleuth.analyze_rel int0 self name) as [[o s1]|] eqn:E;
      [|discriminate].
    eapply IH; [exact H| |].
    + eapply analyze_rel_wf; eassumption.
    + eapply analyze_rel_agrees; eassumption.
Qed.

(** X23: what the resolver returns for an explicit offset is what the
    row says, as long as no second profile is loaded.  Call a session
    settled when every cached name whose row has a valid explicit offset
    is cached at the value of that literal.  In a settled session a
    structure with the valid explicit offset [L] resolves to [L], and the
    session stays settled.  A batch session is settled whatever calls
    were made on it.  A REPL session is settled once its profile is
    loaded and stays so through any sequence of [setimg], [list] and
    [analyze_rel]: [list] starts from an empty offset cache, the resolver
    caches the literal, and [analyze_rel], where it moves the cached
    offset of a name, writes the new value to the row. *)
Theorem X23_explicit_offsets_follow_rows (int0 : string -> option Z) :
  reads_hex int0 -> rejects_negative_hex int0 ->
  (forall (parse_offset parse_rOffset : string -> string -> result Z)
          (read_metadata : option (list byte) -> Z -> result (Z * Z))
          self name structure L,
     Dict.get name (structures self) = Some structure ->
     Py.truthy (row_offset structure) = true ->
     parse_offset name (row_offset structure) = inr L ->
     cache_agrees parse_offset self ->
     exists self',
       resolve parse_offset parse_rOffset read_metadata self name
         = Some (inr L, self') /\
       cache_agrees parse_offset self') /\
  (forall binary rows calls self,
     batch_run int0 calls (SleuthParser.__init__ binary rows) = Some self ->
     cache_agrees (SleuthParser.parse_offset int0) self) /\
  (forall rows cmds self,
     repl_run int0 cmds
       (InteractiveSleuth.load_csv rows InteractiveSleuth.__init__) = Some self ->
     cache_agrees (fun _ => InteractiveSleuth.parse_num int0) self) /\
  (forall self name out self',
     wf_structures (structures self) ->
     InteractiveSleuth.analyze_rel int0 self name = Some (out, self') ->
     cache_agrees (fun _ => InteractiveSleuth.parse_num int0) self ->
     cache_agrees (fun _ => InteractiveSleuth.parse_num int0) self').
Proof.
  intros Hhex Hrej. split; [|split; [|split]].
  - intros po pr rm self name structure L Hg Ht Hp Hag.
    destruct (resolved_offsets self !! name) as [v|] eqn:Hc.
    + exists self. split; [|exact Hag].
      rewrite (Hag _ _ _ _ Hg Ht Hp Hc) in Hc.
      unfold resolve. by apply resolve_rec_cached.
    + exists (set_offset name L self).
      pose proof (resolve_explicit po pr rm _ _ _ _ Hg Ht Hp Hc) as Hr.
      split; [exact Hr|]. eapply resolve_rec_agrees; eassumption.
  - intros binary rows calls self Hrun.
    eapply batch_run_agrees; [exact Hrun|apply init_cache_agrees].
  - intros rows cmds self Hrun.
    eapply repl_run_settled; [exact Hhex|exact Hrej|exact Hrun| |].
    + apply load_rows_wf.
    + intros name structure L v _ _ _ Hc. cbn in Hc. by rewrite lookup_empty in Hc.
  - intros self name out self' Hwf H Hag.
    eapply analyze_rel_agrees; eassumption.
Qed.

Lemma X23_explicit_offsets_follow_rows_witness :
  cache_agrees (fun _ => InteractiveSleuth.parse_num PyStr.int0) repl_x4_analyzed.
Proof.
  pose proof (X23_explicit_offsets_follow_rows PyStr.int0
                int0_hex_literal int0_rejects_negative_hex)
    as (_ & _ & Hrun & _).
  apply (Hrun profile_x4 [Cmd_setimg image_child; Cmd_list; Cmd_analyze_rel "X"]).
  reflexivity.
Defined.
